(** * rollouts-demo: the colour endpoint and the shutdown coordinator

    A shallow embedding of [main.go].  Go strings and byte slices are
    [string]s (sequences of 8-bit [ascii]); Go's [int] is the 64-bit
    two's-complement integer, carried as a [Z]; the response writer, the
    log, the sleeps and the random source are threaded explicitly through
    the handler.

    The handler calls into Go's standard library ([fmt], [strconv],
    [encoding/json], [unicode/utf8], [math/rand]).  The parts of those
    packages that decide what the handler does are modelled below, each
    under the name the library gives it. *)

From Stdlib Require Import String Ascii List Bool ZArith NArith Lia Arith.
Import ListNotations.

Set Warnings "-register-all".

Local Open Scope string_scope.
Local Open Scope list_scope.
Local Open Scope Z_scope.

(* ================================================================== *)
(** * Bytes *)

Definition byteval (c : ascii) : N := N_of_ascii c.

Definition between (lo hi : N) (c : ascii) : bool :=
  (lo <=? byteval c)%N && (byteval c <=? hi)%N.

Definition isDigit (c : ascii) : bool := between 48 57 c.

Definition bytes (s : string) : list ascii := list_ascii_of_string s.

Definition startsWith (c : ascii) (s : list ascii) : bool :=
  match s with
  | d :: _ => (d =? c)%char
  | [] => false
  end.

(** The double quote, and a way to write Go literals that contain it:
    [Q] turns every single quote of its argument into a double quote. *)
Definition dquote : ascii := ascii_of_N 34.

Fixpoint Q (s : string) : string :=
  match s with
  | EmptyString => EmptyString
  | String c t => String (if (c =? "'")%char then dquote else c) (Q t)
  end.

(** The line feed that ends some of the log formats. *)
Definition newline : string := String (ascii_of_N 10) "".

(* ================================================================== *)
(** * unicode/utf8 *)

Module utf8.

Definition RuneError : N := 65533.       (* U+FFFD *)
Definition MaxRune : N := 1114111.       (* U+10FFFF *)
Definition RuneSelf : N := 128.

Definition continuation (lo hi : N) (c : ascii) : bool := between lo hi c.

Definition low6 (c : ascii) : N := N.land (byteval c) 63.

(** [DecodeRuneInString]: the rune at the head of [s] and the number
    of bytes it takes.  An ill-formed head decodes to [RuneError] of
    width 1; the empty string to [RuneError] of width 0. *)
Definition DecodeRune (s : list ascii) : N * nat :=
  match s with
  | [] => (RuneError, 0%nat)
  | s0 :: t =>
      let b0 := byteval s0 in
      if (b0 <? 128)%N then (b0, 1%nat)
      else if (b0 <? 194)%N then (RuneError, 1%nat)            (* 80..C1 *)
      else if (b0 <=? 223)%N then                               (* C2..DF *)
        match t with
        | s1 :: _ =>
            if continuation 128 191 s1
            then (N.lor (N.shiftl (N.land b0 31) 6) (low6 s1), 2%nat)
            else (RuneError, 1%nat)
        | _ => (RuneError, 1%nat)
        end
      else if (b0 <=? 239)%N then                               (* E0..EF *)
        let lo := if (b0 =? 224)%N then 160%N else 128%N in
        let hi := if (b0 =? 237)%N then 159%N else 191%N in
        match t with
        | s1 :: s2 :: _ =>
            if continuation lo hi s1 then
              if continuation 128 191 s2
              then (N.lor (N.shiftl (N.land b0 15) 12)
                      (N.lor (N.shiftl (low6 s1) 6) (low6 s2)), 3%nat)
              else (RuneError, 1%nat)
            else (RuneError, 1%nat)
        | _ => (RuneError, 1%nat)
        end
      else if (b0 <=? 244)%N then                               (* F0..F4 *)
        let lo := if (b0 =? 240)%N then 144%N else 128%N in
        let hi := if (b0 =? 244)%N then 143%N else 191%N in
        match t with
        | s1 :: s2 :: s3 :: _ =>
            if continuation lo hi s1 then
              if continuation 128 191 s2 then
                if continuation 128 191 s3
                then (N.lor (N.shiftl (N.land b0 7) 18)
                        (N.lor (N.shiftl (low6 s1) 12)
                           (N.lor (N.shiftl (low6 s2) 6) (low6 s3))), 4%nat)
                else (RuneError, 1%nat)
              else (RuneError, 1%nat)
            else (RuneError, 1%nat)
        | _ => (RuneError, 1%nat)
        end
      else (RuneError, 1%nat)                                   (* F5..FF *)
  end.

Definition cont (r : N) (shift : N) : ascii :=
  ascii_of_N (N.lor 128 (N.land (N.shiftr r shift) 63)).

Definition encode3 (r : N) : list ascii :=
  [ascii_of_N (N.lor 224 (N.shiftr r 12)); cont r 6; cont r 0].

(** [AppendRune]/[EncodeRune]: surrogates and runes beyond [MaxRune]
    are written as [RuneError]. *)
Definition EncodeRune (r : N) : list ascii :=
  if (r <? 128)%N then [ascii_of_N r]
  else if (r <? 2048)%N then [ascii_of_N (N.lor 192 (N.shiftr r 6)); cont r 0]
  else if (MaxRune <? r)%N then encode3 RuneError
  else if (55296 <=? r)%N && (r <=? 57343)%N then encode3 RuneError
  else if (r <? 65536)%N then encode3 r
  else [ascii_of_N (N.lor 240 (N.shiftr r 18)); cont r 12; cont r 6; cont r 0].

(** ** Runes from the end of a string, and all the runes of a string *)

(** [RuneStart]: the byte is not a continuation byte. *)
Definition RuneStart (b : ascii) : bool :=
  negb (N.land (byteval b) 192 =? 128)%N.

(** The loop of [DecodeLastRuneInString] that walks back to the start
    of the last rune: from [start] down to [lim], stopping at the first
    byte that starts a rune. *)
Fixpoint lastStart (fuel : nat) (s : list ascii) (start lim : Z) : Z :=
  match fuel with
  | O => start
  | S fuel' =>
      if start <? lim then start
      else if RuneStart (nth (Z.to_nat start) s zero) then start
      else lastStart fuel' s (start - 1) lim
  end.

(** [DecodeLastRuneInString]. *)
Definition DecodeLastRune (s : list ascii) : N * nat :=
  let end_ := Z.of_nat (length s) in
  if end_ =? 0 then (RuneError, 0%nat)
  else
    let start := end_ - 1 in
    let r := byteval (nth (Z.to_nat start) s zero) in
    if (r <? RuneSelf)%N then (r, 1%nat)
    else
      let lim := Z.max (end_ - 4) 0 in
      let start := Z.max (lastStart 4 s (start - 1) lim) 0 in
      let (r, size) := DecodeRune (skipn (Z.to_nat start) s) in
      if negb (start + Z.of_nat size =? end_) then (RuneError, 1%nat)
      else (r, size).

(** The runes of a string, as [[]rune(s)] and the [range] loop decode
    them: each step takes the rune at the head and moves on by its
    width; [skip] counts the bytes of the current rune still to pass. *)
Fixpoint decodeRunes (skip : nat) (s : list ascii) : list N :=
  match s with
  | [] => []
  | _ :: t =>
      match skip with
      | S k => decodeRunes k t
      | O => fst (DecodeRune s) :: decodeRunes (snd (DecodeRune s) - 1) t
      end
  end.

(** [[]rune(s)] *)
Definition stringToRunes (s : string) : list N := decodeRunes 0 (bytes s).

(** [string(runes)] *)
Definition runesToString (runes : list N) : string :=
  string_of_list_ascii (concat (map EncodeRune runes)).

(** [RuneCountInString]: one for every rune, an ill-formed byte
    counting as a rune of width 1. *)
Fixpoint countRunes (skip : nat) (s : list ascii) : nat :=
  match s with
  | [] => 0%nat
  | _ :: t =>
      match skip with
      | S k => countRunes k t
      | O => S (countRunes (snd (DecodeRune s) - 1) t)
      end
  end.

Definition RuneCountInString (s : string) : nat := countRunes 0 (bytes s).

End utf8.

(* ================================================================== *)
(** * fmt: a format string printed with no operands

    Every error path of the handler calls [fmt.Fprintf(w, err.Error())]:
    the error text is the format and the operand list is empty.  This is
    [doPrintf] of [fmt/print.go] at [len(a) = 0]: no verb finds an
    operand, so [argNum] stays 0, a [*] width or precision is always bad
    and an argument index [[n]] is always out of range. *)

Module fmt.

Definition percentSign : ascii := "%"%char.

Definition badWidthString : list ascii := bytes "%!(BADWIDTH)".
Definition badPrecString : list ascii := bytes "%!(BADPREC)".
Definition noVerbString : list ascii := bytes "%!(NOVERB)".
Definition missingString : list ascii := bytes "(MISSING)".
Definition badIndexString : list ascii := bytes "(BADINDEX)".

Definition isFlag (c : ascii) : bool :=
  (c =? "#")%char || (c =? "0")%char || (c =? "+")%char
  || (c =? "-")%char || (c =? " ")%char.

(** The [simpleFormat] loop; without operands the lower-case fast path
    is never taken, so the loop only steps over flags. *)
Fixpoint skipFlags (s : list ascii) : list ascii :=
  match s with
  | c :: t => if isFlag c then skipFlags t else s
  | [] => []
  end.

(** [tooLarge]: [x > 1e6] (the operand is never negative here). *)
Definition tooLarge (x : N) : bool := (1000000 <? x)%N.

(** [parsenum(s, start, end)] on the slice [s[start:end]]: the number
    read, whether one was read, and what is left of the slice.  On
    overflow Go returns [newi = end]: nothing is left. *)
Fixpoint parsenumLoop (num : N) (isnum : bool) (s : list ascii)
  : N * bool * list ascii :=
  match s with
  | c :: t =>
      if isDigit c then
        if tooLarge num then (0%N, false, [])
        else parsenumLoop (num * 10 + (byteval c - 48))%N true t
      else (num, isnum, s)
  | [] => (num, isnum, [])
  end.

Definition parsenum (s : list ascii) : N * bool * list ascii :=
  match s with
  | [] => (0%N, false, [])
  | _ => parsenumLoop 0%N false s
  end.

(** The position of the first [']'] of [s]. *)
Fixpoint findClose (s : list ascii) : option nat :=
  match s with
  | [] => None
  | c :: t => if (c =? "]")%char then Some 0%nat
              else option_map S (findClose t)
  end.

(** [parseArgNumber(format)] where [format] starts with ['[']: the
    number of bytes to step over and whether a well-formed index was
    read. *)
Definition parseArgNumber (format : list ascii) : nat * bool :=
  if (length format <? 3)%nat then (1%nat, false)
  else
    match findClose (tl format) with
    | Some j =>
        let '(_, ok, rest) := parsenum (firstn j (tl format)) in
        match ok, rest with
        | true, [] => (j + 2, true)%nat
        | _, _ => (j + 2, false)%nat
        end
    | None => (1%nat, false)
    end.

(** [argNumber] with [numArgs = 0]: an index, even a well-formed one,
    is out of range, so [goodArgNum] drops to false whenever a ['[']
    is met.  Returns the rest of the format, [found] and the new
    [goodArgNum]. *)
Definition argNumber (format : list ascii) (goodArgNum : bool)
  : list ascii * bool * bool :=
  match format with
  | c :: _ =>
      if (c =? "[")%char then
        let '(wid, ok) := parseArgNumber format in
        (skipn wid format, ok, false)
      else (format, false, goodArgNum)
  | [] => (format, false, goodArgNum)
  end.

(** The width: [(written, rest, afterIndex, goodArgNum)]. *)
Definition doWidth (s : list ascii) (afterIndex good : bool)
  : list ascii * list ascii * bool * bool :=
  if startsWith "*" s then (badWidthString, tl s, false, good)
  else
    let '(_, widPresent, t) := parsenum s in
    ([], t, afterIndex, if afterIndex && widPresent then false else good).

(** The precision, when the format continues with ['.']. *)
Definition doPrec (s : list ascii) (afterIndex good : bool)
  : list ascii * list ascii * bool * bool :=
  if startsWith "." s then
    let good := if afterIndex then false else good in
    let '(t, afterIndex, good) := argNumber (tl s) good in
    if startsWith "*" t then (badPrecString, tl t, false, good)
    else let '(_, _, u) := parsenum t in ([], u, afterIndex, good)
  else ([], s, afterIndex, good).

(** The verb itself: ['%'] is written as such; any other verb has no
    operand, and is reported with the index or the operand missing. *)
Definition doRune (s : list ascii) (good : bool)
  : list ascii * list ascii :=
  match s with
  | [] => (noVerbString, [])
  | _ :: _ =>
      let '(verb, size) := utf8.DecodeRune s in
      let rest := skipn size s in
      if (verb =? 37)%N then ([percentSign], rest)
      else if negb good then
        (percentSign :: "!"%char :: utf8.EncodeRune verb ++ badIndexString,
         rest)
      else
        (percentSign :: "!"%char :: utf8.EncodeRune verb ++ missingString,
         rest)
  end.

(** One verb, from just after its ['%']: what is written and the rest
    of the format still to be processed. *)
Definition doVerb (s : list ascii) : list ascii * list ascii :=
  let s := skipFlags s in
  let '(s, afterIndex, good) := argNumber s true in
  let '(outW, s, afterIndex, good) := doWidth s afterIndex good in
  let '(outP, s, afterIndex, good) := doPrec s afterIndex good in
  let '(s, _, good) :=
    if afterIndex then (s, afterIndex, good) else argNumber s good in
  let '(outV, rest) := doRune s good in
  (outW ++ outP ++ outV, rest).

(** The [formatLoop]: literal bytes are copied up to the next ['%'];
    [fuel] bounds the number of bytes still to be read. *)
Fixpoint doPrintfLoop (fuel : nat) (format : list ascii) : list ascii :=
  match fuel, format with
  | S fuel', c :: t =>
      if (c =? percentSign)%char then
        let '(out, rest) := doVerb t in out ++ doPrintfLoop fuel' rest
      else c :: doPrintfLoop fuel' t
  | _, _ => []
  end.

Definition doPrintf (format : list ascii) : list ascii :=
  doPrintfLoop (length format) format.

(** [fmt.Sprintf(format)] with no operands. *)
Definition Sprintf (format : string) : string :=
  string_of_list_ascii (doPrintf (list_ascii_of_string format)).

End fmt.

(* ================================================================== *)
(** * strconv *)

Module strconv.

Definition lowerhex (n : N) : ascii :=
  if (n <? 10)%N then ascii_of_N (48 + n) else ascii_of_N (87 + n).

(** [strconv.IsPrint] on Latin-1, where Go answers without its tables. *)
Definition IsPrintLatin1 (r : N) : bool :=
  ((32 <=? r)%N && (r <=? 126)%N)
  || ((161 <=? r)%N && (r <=? 255)%N && negb (r =? 173)%N).

Section Quote.

(** Go's Unicode tables decide which runes above U+00FF are
    printable; they are taken as given. *)
Variable printable : N -> bool.

Definition IsPrint (r : N) : bool :=
  if (r <=? 255)%N then IsPrintLatin1 r else printable r.

Definition hexDigits (r : N) (shifts : list N) : list ascii :=
  map (fun sh => lowerhex (N.land (N.shiftr r sh) 15)) shifts.

(** [appendEscapedRune] with the double quote as the quote character. *)
Definition appendEscapedRune (r : N) : list ascii :=
  if (r =? 34)%N || (r =? 92)%N then ["\"%char; ascii_of_N r]
  else if IsPrint r then utf8.EncodeRune r
  else if (r =? 7)%N then bytes "\a"
  else if (r =? 8)%N then bytes "\b"
  else if (r =? 12)%N then bytes "\f"
  else if (r =? 10)%N then bytes "\n"
  else if (r =? 13)%N then bytes "\r"
  else if (r =? 9)%N then bytes "\t"
  else if (r =? 11)%N then bytes "\v"
  else if (r <? 32)%N || (r =? 127)%N then
    bytes "\x" ++ hexDigits r [4; 0]%N
  else if (utf8.MaxRune <? r)%N || ((55296 <=? r)%N && (r <=? 57343)%N) then
    bytes "\u" ++ hexDigits utf8.RuneError [12; 8; 4; 0]%N
  else if (r <? 65536)%N then
    bytes "\u" ++ hexDigits r [12; 8; 4; 0]%N
  else
    bytes "\U" ++ hexDigits r [28; 24; 20; 16; 12; 8; 4; 0]%N.

(** The loop of [appendQuotedWith]: a byte that starts no well-formed
    rune is written as a hexadecimal escape. *)
Fixpoint quoteLoop (fuel : nat) (s : list ascii) : list ascii :=
  match fuel, s with
  | S fuel', c :: _ =>
      let '(r, width) := utf8.DecodeRune s in
      if (width =? 1)%nat && (r =? utf8.RuneError)%N then
        bytes "\x"
          ++ [lowerhex (N.shiftr (byteval c) 4); lowerhex (N.land (byteval c) 15)]
          ++ quoteLoop fuel' (skipn 1 s)
      else appendEscapedRune r ++ quoteLoop fuel' (skipn width s)
  | _, _ => []
  end.

Definition Quote (s : string) : string :=
  string_of_list_ascii
    (dquote :: quoteLoop (String.length s) (bytes s) ++ [dquote]).

End Quote.

Inductive NumErrKind := ErrSyntax | ErrRange.

Definition maxUint64 : Z := 18446744073709551615.
Definition maxInt64 : Z := 9223372036854775807.
Definition minInt64 : Z := -9223372036854775808.

(** The digit loop of [ParseUint(s, 10, 64)]. *)
Fixpoint parseUintLoop (n : Z) (s : list ascii) : Z + NumErrKind :=
  match s with
  | [] => inl n
  | c :: t =>
      if isDigit c then
        if maxUint64 / 10 + 1 <=? n then inr ErrRange
        else
          let n1 := n * 10 + Z.of_N (byteval c - 48) in
          if maxUint64 <? n1 then inr ErrRange else parseUintLoop n1 t
      else inr ErrSyntax
  end.

Definition ParseUint (s : list ascii) : Z + NumErrKind :=
  match s with
  | [] => inr ErrSyntax
  | _ => parseUintLoop 0 s
  end.

(** [ParseInt(s, 10, 64)]: an optional sign, then [ParseUint], then the
    range of a signed 64-bit integer. *)
Definition ParseInt (s : list ascii) : Z + NumErrKind :=
  match s with
  | [] => inr ErrSyntax
  | c :: t =>
      let neg := (c =? "-")%char in
      let digits := if (c =? "+")%char || neg then t else s in
      match ParseUint digits with
      | inr e => inr e
      | inl un =>
          if negb neg && (maxInt64 + 1 <=? un) then inr ErrRange
          else if neg && (maxInt64 + 1 <? un) then inr ErrRange
          else inl (if neg then - un else un)
      end
  end.

(** [Atoi]: on a 64-bit platform the fast path and [ParseInt(s, 10, 0)]
    accept the same strings with the same values. *)
Definition Atoi (s : string) : Z + NumErrKind := ParseInt (bytes s).

Definition errText (e : NumErrKind) : string :=
  match e with
  | ErrSyntax => "invalid syntax"
  | ErrRange => "value out of range"
  end.

(** The [Error()] text of the [NumError] that [Atoi] returns. *)
Definition AtoiError (printable : N -> bool) (s : string) (e : NumErrKind)
  : string :=
  ("strconv.Atoi: parsing " ++ Quote printable s ++ ": " ++ errText e)%string.

End strconv.

(* ================================================================== *)
(** * The per-colour parameters of a request

    [type colorParameters struct]; a [*int] is [None] when nil. *)

Record colorParameters := mkColorParameters {
  Color : string;
  DelayProbability : option Z;
  DelayLength : Z;
  Return500Probability : option Z
}.

(** The zero value, [var colorParams colorParameters]. *)
Definition zeroColorParameters : colorParameters :=
  mkColorParameters "" None 0 None.

(* ================================================================== *)
(** * encoding/json: the scanner

    [json.Unmarshal] first runs [checkValid] over the whole input; the
    text of a syntax error is fixed there.  The scanner is the state
    machine of [encoding/json/scanner.go]: [step] is the current state
    function, [parseState] the stack of open objects and arrays. *)

Module json.

Inductive stepFn :=
| stateBeginValueOrEmpty | stateBeginValue
| stateBeginStringOrEmpty | stateBeginString
| stateEndValue | stateEndTop
| stateInString | stateInStringEsc
| stateInStringEscU | stateInStringEscU1
| stateInStringEscU12 | stateInStringEscU123
| stateNeg | state1 | state0 | stateDot | stateDot0
| stateE | stateESign | stateE0
| stateT | stateTr | stateTru
| stateF | stateFa | stateFal | stateFals
| stateN | stateNu | stateNul
| stateError.

Inductive parseKind := parseObjectKey | parseObjectValue | parseArrayValue.

Record scanner := mkScanner {
  step : stepFn;
  endTop : bool;
  parseState : list parseKind;     (* innermost first *)
  err : option string
}.

Definition maxNestingDepth : N := 10000.

Definition reset : scanner := mkScanner stateBeginValue false [] None.

Definition isSpace (c : ascii) : bool :=
  (c =? " ")%char || (c =? ascii_of_N 9)%char
  || (c =? ascii_of_N 13)%char || (c =? ascii_of_N 10)%char.

Definition isHex (c : ascii) : bool :=
  isDigit c || between 97 102 c || between 65 70 c.

(** [quoteChar]: the offending byte as a quoted character literal.
    The byte is turned into the rune of the same number, which is at
    most U+00FF, so [strconv.Quote] never consults the Unicode tables
    (the table handed to it here is not looked at). *)
Definition quoteChar (c : ascii) : string :=
  if (c =? "'")%char then String "'" (String "\" (String "'" (String "'" "")))
  else if (c =? dquote)%char then String "'" (String dquote (String "'" ""))
  else
    let q := strconv.Quote (fun _ => false)
               (string_of_list_ascii (utf8.EncodeRune (byteval c))) in
    ("'" ++ substring 1 (String.length q - 2) q ++ "'")%string.

(** [s.error(c, context)] *)
Definition error (s : scanner) (c : ascii) (context : string) : scanner :=
  mkScanner stateError (endTop s) (parseState s)
    (Some ("invalid character " ++ quoteChar c ++ " " ++ context)%string).

Definition goto (s : scanner) (f : stepFn) : scanner :=
  mkScanner f (endTop s) (parseState s) (err s).

Definition pushParseState (s : scanner) (c : ascii) (k : parseKind)
  : scanner :=
  let s' := mkScanner (step s) (endTop s) (k :: parseState s) (err s) in
  if (N.of_nat (length (parseState s')) <=? maxNestingDepth)%N then s'
  else error s' c "exceeded max depth".

Definition popParseState (s : scanner) : scanner :=
  match tl (parseState s) with
  | [] => mkScanner stateEndTop true [] (err s)
  | rest => mkScanner stateEndValue (endTop s) rest (err s)
  end.

Definition setTop (s : scanner) (k : parseKind) : scanner :=
  mkScanner (step s) (endTop s) (k :: tl (parseState s)) (err s).

(** [stateEndTop]: anything but white space after the top-level value
    is an error (recorded; reported when the next byte, or the end of
    the input, is reached). *)
Definition doEndTop (s : scanner) (c : ascii) : scanner :=
  if isSpace c then s else error s c "after top-level value".

(** [stateEndValue] *)
Definition doEndValue (s : scanner) (c : ascii) : scanner :=
  match parseState s with
  | [] => doEndTop (mkScanner stateEndTop true [] (err s)) c
  | ps :: _ =>
      if isSpace c then goto s stateEndValue
      else
        match ps with
        | parseObjectKey =>
            if (c =? ":")%char
            then goto (setTop s parseObjectValue) stateBeginValue
            else error s c "after object key"
        | parseObjectValue =>
            if (c =? ",")%char
            then goto (setTop s parseObjectKey) stateBeginString
            else if (c =? "}")%char then popParseState s
            else error s c "after object key:value pair"
        | parseArrayValue =>
            if (c =? ",")%char then goto s stateBeginValue
            else if (c =? "]")%char then popParseState s
            else error s c "after array element"
        end
  end.

(** [stateBeginValue] *)
Definition doBeginValue (s : scanner) (c : ascii) : scanner :=
  if isSpace c then s
  else if (c =? "{")%char then
    pushParseState (goto s stateBeginStringOrEmpty) c parseObjectKey
  else if (c =? "[")%char then
    pushParseState (goto s stateBeginValueOrEmpty) c parseArrayValue
  else if (c =? dquote)%char then goto s stateInString
  else if (c =? "-")%char then goto s stateNeg
  else if (c =? "0")%char then goto s state0
  else if (c =? "t")%char then goto s stateT
  else if (c =? "f")%char then goto s stateF
  else if (c =? "n")%char then goto s stateN
  else if between 49 57 c then goto s state1
  else error s c "looking for beginning of value".

(** [stateBeginString] *)
Definition doBeginString (s : scanner) (c : ascii) : scanner :=
  if isSpace c then s
  else if (c =? dquote)%char then goto s stateInString
  else error s c "looking for beginning of object key string".

(** [state0], [stateDot0] and [stateE0], the states a number may end in *)
Definition do0 (s : scanner) (c : ascii) : scanner :=
  if (c =? ".")%char then goto s stateDot
  else if (c =? "e")%char || (c =? "E")%char then goto s stateE
  else doEndValue s c.

Definition doESign (s : scanner) (c : ascii) : scanner :=
  if isDigit c then goto s stateE0
  else error s c "in exponent of numeric literal".

Definition expect (s : scanner) (c want : ascii) (next : stepFn)
                  (context : string) : scanner :=
  if (c =? want)%char then goto s next else error s c context.

Definition hexStep (s : scanner) (c : ascii) (next : stepFn) : scanner :=
  if isHex c then goto s next
  else error s c "in \u hexadecimal character escape".

(** One call [s.step(s, c)]. *)
Definition stepByte (s : scanner) (c : ascii) : scanner :=
  match step s with
  | stateBeginValueOrEmpty =>
      if isSpace c then s
      else if (c =? "]")%char then doEndValue s c
      else doBeginValue s c
  | stateBeginValue => doBeginValue s c
  | stateBeginStringOrEmpty =>
      if isSpace c then s
      else if (c =? "}")%char then doEndValue (setTop s parseObjectValue) c
      else doBeginString s c
  | stateBeginString => doBeginString s c
  | stateEndValue => doEndValue s c
  | stateEndTop => doEndTop s c
  | stateInString =>
      if (c =? dquote)%char then goto s stateEndValue
      else if (c =? "\")%char then goto s stateInStringEsc
      else if (byteval c <? 32)%N then error s c "in string literal"
      else s
  | stateInStringEsc =>
      if (c =? "b")%char || (c =? "f")%char || (c =? "n")%char
         || (c =? "r")%char || (c =? "t")%char || (c =? "\")%char
         || (c =? "/")%char || (c =? dquote)%char
      then goto s stateInString
      else if (c =? "u")%char then goto s stateInStringEscU
      else error s c "in string escape code"
  | stateInStringEscU => hexStep s c stateInStringEscU1
  | stateInStringEscU1 => hexStep s c stateInStringEscU12
  | stateInStringEscU12 => hexStep s c stateInStringEscU123
  | stateInStringEscU123 => hexStep s c stateInString
  | stateNeg =>
      if (c =? "0")%char then goto s state0
      else if between 49 57 c then goto s state1
      else error s c "in numeric literal"
  | state1 => if isDigit c then goto s state1 else do0 s c
  | state0 => do0 s c
  | stateDot =>
      if isDigit c then goto s stateDot0
      else error s c "after decimal point in numeric literal"
  | stateDot0 =>
      if isDigit c then s
      else if (c =? "e")%char || (c =? "E")%char then goto s stateE
      else doEndValue s c
  | stateE =>
      if (c =? "+")%char || (c =? "-")%char then goto s stateESign
      else doESign s c
  | stateESign => doESign s c
  | stateE0 => if isDigit c then s else doEndValue s c
  | stateT => expect s c "r" stateTr "in literal true (expecting 'r')"
  | stateTr => expect s c "u" stateTru "in literal true (expecting 'u')"
  | stateTru => expect s c "e" stateEndValue "in literal true (expecting 'e')"
  | stateF => expect s c "a" stateFa "in literal false (expecting 'a')"
  | stateFa => expect s c "l" stateFal "in literal false (expecting 'l')"
  | stateFal => expect s c "s" stateFals "in literal false (expecting 's')"
  | stateFals => expect s c "e" stateEndValue "in literal false (expecting 'e')"
  | stateN => expect s c "u" stateNu "in literal null (expecting 'u')"
  | stateNu => expect s c "l" stateNul "in literal null (expecting 'l')"
  | stateNul => expect s c "l" stateEndValue "in literal null (expecting 'l')"
  | stateError => s
  end.

(** [s.eof()]: [None] when the input was one complete value. *)
Definition eof (s : scanner) : option string :=
  match err s with
  | Some e => Some e
  | None =>
      if endTop s then None
      else
        let s' := stepByte s " " in
        if endTop s' then None
        else match err s' with
             | Some e => Some e
             | None => Some "unexpected end of JSON input"
             end
  end.

(** [checkValid]: the error of the first byte that the scanner
    rejects, else that of [eof]. *)
Fixpoint scanAll (s : scanner) (data : list ascii) : scanner :=
  match data with
  | [] => s
  | c :: t =>
      match step s with
      | stateError => s
      | _ => scanAll (stepByte s c) t
      end
  end.

Definition checkValid (data : string) : option string :=
  eof (scanAll reset (bytes data)).

(** ** The decoder

    Once [checkValid] has accepted the input, [Unmarshal] walks it
    again and stores what it finds into the [[]colorParameters].  The
    walk is split here into reading the JSON value and storing it. *)

Inductive value :=
| Null
| Bool (b : bool)
| Number (lit : list ascii)
| Str (s : list ascii)
| Array (elems : list value)
| Object (members : list (list ascii * value)).

Fixpoint skipSpace (s : list ascii) : list ascii :=
  match s with
  | c :: t => if isSpace c then skipSpace t else s
  | [] => []
  end.

(** The bytes of a string literal up to its closing quote. *)
Fixpoint rawString (s : list ascii) : option (list ascii * list ascii) :=
  match s with
  | [] => None
  | c :: t =>
      if (c =? dquote)%char then Some ([], t)
      else if (c =? "\")%char then
        match t with
        | e :: t' =>
            match rawString t' with
            | Some (raw, rest) => Some (c :: e :: raw, rest)
            | None => None
            end
        | [] => None
        end
      else
        match rawString t with
        | Some (raw, rest) => Some (c :: raw, rest)
        | None => None
        end
  end.

Definition hexValue (c : ascii) : option N :=
  if isDigit c then Some (byteval c - 48)%N
  else if between 97 102 c then Some (byteval c - 87)%N
  else if between 65 70 c then Some (byteval c - 55)%N
  else None.

(** [getu4]: the code unit of a [\uXXXX] escape at the head of [s]. *)
Definition getu4 (s : list ascii) : option N :=
  match s with
  | b :: u :: h1 :: h2 :: h3 :: h4 :: _ =>
      if (b =? "\")%char && (u =? "u")%char then
        match hexValue h1, hexValue h2, hexValue h3, hexValue h4 with
        | Some a, Some b, Some c, Some d =>
            Some (a * 4096 + b * 256 + c * 16 + d)%N
        | _, _, _, _ => None
        end
      else None
  | _ => None
  end.

Definition isSurrogate (r : N) : bool := (55296 <=? r)%N && (r <? 57344)%N.

(** [utf16.DecodeRune] *)
Definition decodeSurrogates (r1 : N) (r2 : option N) : N :=
  match r2 with
  | Some r2 =>
      if (55296 <=? r1)%N && (r1 <? 56320)%N
         && (56320 <=? r2)%N && (r2 <? 57344)%N
      then ((r1 - 55296) * 1024 + (r2 - 56320) + 65536)%N
      else utf8.RuneError
  | None => utf8.RuneError
  end.

Definition simpleEscape (e : ascii) : option ascii :=
  if (e =? dquote)%char || (e =? "\")%char || (e =? "/")%char
     || (e =? "'")%char then Some e
  else if (e =? "b")%char then Some (ascii_of_N 8)
  else if (e =? "f")%char then Some (ascii_of_N 12)
  else if (e =? "n")%char then Some (ascii_of_N 10)
  else if (e =? "r")%char then Some (ascii_of_N 13)
  else if (e =? "t")%char then Some (ascii_of_N 9)
  else None.

(** [unquoteBytes] on the inside of a literal: escapes are resolved
    and what is not well-formed UTF-8 is replaced by U+FFFD.  (Go has a
    fast path for literals with nothing to resolve, which returns the
    bytes as they are; the general loop does the same on them.) *)
Fixpoint unquoteLoop (fuel : nat) (s : list ascii) : option (list ascii) :=
  match fuel, s with
  | _, [] => Some []
  | O, _ => None
  | S fuel', c :: t =>
      if (c =? "\")%char then
        match t with
        | [] => None
        | e :: t' =>
            if (e =? "u")%char then
              match getu4 s with
              | None => None
              | Some rr =>
                  let s1 := skipn 6 s in
                  if isSurrogate rr then
                    let dec := decodeSurrogates rr (getu4 s1) in
                    if (dec =? utf8.RuneError)%N then
                      option_map (app (utf8.EncodeRune utf8.RuneError))
                                 (unquoteLoop fuel' s1)
                    else
                      option_map (app (utf8.EncodeRune dec))
                                 (unquoteLoop fuel' (skipn 6 s1))
                  else
                    option_map (app (utf8.EncodeRune rr))
                               (unquoteLoop fuel' s1)
              end
            else
              match simpleEscape e with
              | Some b => option_map (cons b) (unquoteLoop fuel' t')
              | None => None
              end
        end
      else if (c =? dquote)%char || (byteval c <? 32)%N then None
      else if (byteval c <? 128)%N then
        option_map (cons c) (unquoteLoop fuel' t)
      else
        let '(rr, size) := utf8.DecodeRune s in
        option_map (app (utf8.EncodeRune rr))
                   (unquoteLoop fuel' (skipn size s))
  end.

Definition unquote (raw : list ascii) : option (list ascii) :=
  unquoteLoop (length raw) raw.

Definition isNumberByte (c : ascii) : bool :=
  isDigit c || (c =? "-")%char || (c =? "+")%char || (c =? ".")%char
  || (c =? "e")%char || (c =? "E")%char.

Fixpoint spanNumber (s : list ascii) : list ascii * list ascii :=
  match s with
  | c :: t =>
      if isNumberByte c
      then let '(lit, rest) := spanNumber t in (c :: lit, rest)
      else ([], s)
  | [] => ([], [])
  end.

Definition expectByte (c : ascii) (s : list ascii) : option (list ascii) :=
  match skipSpace s with
  | d :: t => if (d =? c)%char then Some t else None
  | [] => None
  end.

Definition readString (s : list ascii) : option (list ascii * list ascii) :=
  match rawString s with
  | Some (raw, rest) =>
      match unquote raw with
      | Some str => Some (str, rest)
      | None => None
      end
  | None => None
  end.

(** Reading one value.  [None] stands for Go's "JSON decoder out of
    sync" panic, which does not arise on input that [checkValid] has
    accepted.  [fuel] bounds the bytes still to be read: every nested
    call reads at least one more byte. *)
Fixpoint readValue (fuel : nat) (s : list ascii)
  : option (value * list ascii) :=
  match fuel with
  | O => None
  | S fuel' =>
      match skipSpace s with
      | [] => None
      | c :: t =>
          if (c =? "{")%char then
            if startsWith "}" (skipSpace t)
            then Some (Object [], tl (skipSpace t))
            else
              match readMembers fuel' t with
              | Some (ms, rest) => Some (Object ms, rest)
              | None => None
              end
          else if (c =? "[")%char then
            if startsWith "]" (skipSpace t)
            then Some (Array [], tl (skipSpace t))
            else
              match readElements fuel' t with
              | Some (vs, rest) => Some (Array vs, rest)
              | None => None
              end
          else if (c =? dquote)%char then
            match readString t with
            | Some (str, rest) => Some (Str str, rest)
            | None => None
            end
          else if (c =? "t")%char then Some (Bool true, skipn 3 t)
          else if (c =? "f")%char then Some (Bool false, skipn 4 t)
          else if (c =? "n")%char then Some (Null, skipn 3 t)
          else
            let '(lit, rest) := spanNumber (c :: t) in
            match lit with
            | [] => None
            | _ => Some (Number lit, rest)
            end
      end
  end

with readElements (fuel : nat) (s : list ascii)
  : option (list value * list ascii) :=
  match fuel with
  | O => None
  | S fuel' =>
      match readValue fuel' s with
      | Some (v, rest) =>
          match skipSpace rest with
          | d :: u =>
              if (d =? ",")%char then
                match readElements fuel' u with
                | Some (vs, rest') => Some (v :: vs, rest')
                | None => None
                end
              else if (d =? "]")%char then Some ([v], u)
              else None
          | [] => None
          end
      | None => None
      end
  end

with readMembers (fuel : nat) (s : list ascii)
  : option (list (list ascii * value) * list ascii) :=
  match fuel with
  | O => None
  | S fuel' =>
      match expectByte dquote s with
      | Some t =>
          match readString t with
          | Some (key, u) =>
              match expectByte ":" u with
              | Some w =>
                  match readValue fuel' w with
                  | Some (v, rest) =>
                      match skipSpace rest with
                      | d :: x =>
                          if (d =? ",")%char then
                            match readMembers fuel' x with
                            | Some (ms, rest') => Some ((key, v) :: ms, rest')
                            | None => None
                            end
                          else if (d =? "}")%char then Some ([(key, v)], x)
                          else None
                      | [] => None
                      end
                  | None => None
                  end
              | None => None
              end
          | None => None
          end
      | None => None
      end
  end.

(** ** Storing into [[]colorParameters] *)

Record UnmarshalTypeError := mkTypeError {
  Value : string;          (* description of the JSON value *)
  GoType : string;         (* the Go type it could not be stored in *)
  Field : string           (* the JSON name of the struct field, if any *)
}.

(** [(e *UnmarshalTypeError) Error()] *)
Definition typeErrorText (e : UnmarshalTypeError) : string :=
  if (Field e =? "")%string then
    ("json: cannot unmarshal " ++ Value e
       ++ " into Go value of type " ++ GoType e)%string
  else
    ("json: cannot unmarshal " ++ Value e
       ++ " into Go struct field colorParameters." ++ Field e
       ++ " of type " ++ GoType e)%string.

Definition kindName (v : value) : string :=
  match v with
  | Null => "null"
  | Bool _ => "bool"
  | Number _ => "number"
  | Str _ => "string"
  | Array _ => "array"
  | Object _ => "object"
  end.

Definition isLetter (c : ascii) : bool := between 97 122 c || between 65 90 c.

(** [asciiEqualFold]: how a key is matched against a field name that
    holds none of the letters with a non-ASCII case fold (k, s). *)
Fixpoint asciiEqualFold (name key : list ascii) : bool :=
  match name, key with
  | [], [] => true
  | sb :: name', tb :: key' =>
      ((sb =? tb)%char
       || (isLetter sb
           && (N.land (byteval sb) 223 =? N.land (byteval tb) 223)%N))
      && asciiEqualFold name' key'
  | _, _ => false
  end.

Inductive fieldId := fColor | fDelayPercent | fDelayLength | fReturn500.

Definition fieldName (f : fieldId) : string :=
  match f with
  | fColor => "color"
  | fDelayPercent => "delayPercent"
  | fDelayLength => "delayLength"
  | fReturn500 => "return500"
  end.

Definition findField (key : list ascii) : option fieldId :=
  find (fun f => asciiEqualFold (bytes (fieldName f)) key)
       [fColor; fDelayPercent; fDelayLength; fReturn500].

(** A JSON value stored into an [int]. *)
Definition storeInt (f : fieldId) (v : value) : Z + UnmarshalTypeError :=
  match v with
  | Number lit =>
      match strconv.ParseInt lit with
      | inl n => inl n
      | inr _ =>
          inr (mkTypeError ("number " ++ string_of_list_ascii lit)
                           "int" (fieldName f))
      end
  | _ => inr (mkTypeError (kindName v) "int" (fieldName f))
  end.

(** One member of an object stored into the struct: [null] leaves a
    string or an int as it is and makes a pointer nil; a key that
    matches no field is skipped. *)
Definition storeField (cp : colorParameters) (key : list ascii) (v : value)
  : colorParameters + UnmarshalTypeError :=
  match findField key with
  | None => inl cp
  | Some fColor =>
      match v with
      | Null => inl cp
      | Str str =>
          inl (mkColorParameters (string_of_list_ascii str)
                 (DelayProbability cp) (DelayLength cp)
                 (Return500Probability cp))
      | _ => inr (mkTypeError (kindName v) "string" (fieldName fColor))
      end
  | Some fDelayPercent =>
      match v with
      | Null =>
          inl (mkColorParameters (Color cp) None (DelayLength cp)
                 (Return500Probability cp))
      | _ =>
          match storeInt fDelayPercent v with
          | inl n =>
              inl (mkColorParameters (Color cp) (Some n) (DelayLength cp)
                     (Return500Probability cp))
          | inr e => inr e
          end
      end
  | Some fDelayLength =>
      match v with
      | Null => inl cp
      | _ =>
          match storeInt fDelayLength v with
          | inl n =>
              inl (mkColorParameters (Color cp) (DelayProbability cp) n
                     (Return500Probability cp))
          | inr e => inr e
          end
      end
  | Some fReturn500 =>
      match v with
      | Null =>
          inl (mkColorParameters (Color cp) (DelayProbability cp)
                 (DelayLength cp) None)
      | _ =>
          match storeInt fReturn500 v with
          | inl n =>
              inl (mkColorParameters (Color cp) (DelayProbability cp)
                     (DelayLength cp) (Some n))
          | inr e => inr e
          end
      end
  end.

Fixpoint storeMembers (cp : colorParameters)
                      (ms : list (list ascii * value))
  : colorParameters + UnmarshalTypeError :=
  match ms with
  | [] => inl cp
  | (key, v) :: ms' =>
      match storeField cp key v with
      | inl cp' => storeMembers cp' ms'
      | inr e => inr e
      end
  end.

(** One element of the array stored into a fresh struct. *)
Definition storeStruct (v : value) : colorParameters + UnmarshalTypeError :=
  match v with
  | Object ms => storeMembers zeroColorParameters ms
  | Null => inl zeroColorParameters
  | _ => inr (mkTypeError (kindName v) "main.colorParameters" "")
  end.

Fixpoint storeElements (vs : list value)
  : list colorParameters + UnmarshalTypeError :=
  match vs with
  | [] => inl []
  | v :: vs' =>
      match storeStruct v with
      | inl cp =>
          match storeElements vs' with
          | inl cps => inl (cp :: cps)
          | inr e => inr e
          end
      | inr e => inr e
      end
  end.

Definition storeSlice (v : value)
  : list colorParameters + UnmarshalTypeError :=
  match v with
  | Array vs => storeElements vs
  | Null => inl []
  | _ => inr (mkTypeError (kindName v) "[]main.colorParameters" "")
  end.

Definition phasePanicMsg : string :=
  "JSON decoder out of sync - data changing underfoot?".

(** [json.Unmarshal(data, &request)] with [request] a nil
    [[]colorParameters]: the slice, or the text of the error.  Go
    keeps decoding after a value of the wrong type and reports the
    first such error at the end; as the handler drops the slice when
    there is an error, the model stops at that first error. *)
Definition Unmarshal (data : string) : list colorParameters + string :=
  match checkValid data with
  | Some e => inr e
  | None =>
      match readValue (S (String.length data)) (bytes data) with
      | Some (v, _) =>
          match storeSlice v with
          | inl request => inl request
          | inr e => inr (typeErrorText e)
          end
      | None => inr phasePanicMsg
      end
  end.

End json.

(* ================================================================== *)
(** * The world a request acts on *)

(** The package-level variables read from the environment at start-up. *)
Record Globals := mkGlobals {
  color : string;            (* os.Getenv("COLOR") *)
  envErrorRate : string;     (* os.Getenv("ERROR_RATE") *)
  envLatency : string        (* os.Getenv("LATENCY") *)
}.

Definition colors : list string :=
  ["red"; "orange"; "yellow"; "green"; "blue"; "purple"].

(** What [ioutil.ReadAll(r.Body)] returns: the bytes and, possibly, an
    error (given by its text). *)
Record Request := mkRequest {
  Body : string;
  ReadErr : option string
}.

Inductive operand := OpString (s : string) | OpInt (n : Z).

Inductive logEntry :=
| Println (args : list operand)
| Printf (format : string) (args : list operand).

(** What a request does to the outside, in the order it does it. *)
Inductive event :=
| EvHeaderSet (key val : string)      (* w.Header().Set(key, val) *)
| EvWriteHeader (code : Z)            (* w.WriteHeader(code) *)
| EvWrite (p : string)                (* bytes written to w *)
| EvSleep (d : Z)                     (* time.Sleep(d), d in nanoseconds *)
| EvLog (e : logEntry).

(** [rand] lists what the process-wide source of [math/rand] will hand
    out, call after call; each call reduces the next entry into its own
    range.  [trace] holds the events so far, oldest first. *)
Record World := mkWorld {
  rand : list Z;
  trace : list event
}.

Definition newWorld (draws : list Z) : World := mkWorld draws [].

(** [http.ResponseWriter] as the client sees it: the headers that the
    handler set, the status code and the body. *)
Record ResponseWriter := mkResponseWriter {
  header : list (string * string);
  status : option Z;
  written : string
}.

Definition freshResponse : ResponseWriter := mkResponseWriter [] None "".

Definition setHeader (key val : string) (h : list (string * string))
  : list (string * string) :=
  (key, val) :: filter (fun kv => negb (fst kv =? key)%string) h.

(** Only the first [WriteHeader] sets the status; a write before any
    [WriteHeader] sends status 200; a header set once the status has
    gone out is not sent. *)
Definition applyEvent (rw : ResponseWriter) (e : event) : ResponseWriter :=
  match e with
  | EvHeaderSet key val =>
      match status rw with
      | None =>
          mkResponseWriter (setHeader key val (header rw)) None (written rw)
      | Some _ => rw
      end
  | EvWriteHeader code =>
      mkResponseWriter (header rw)
        (match status rw with Some c => Some c | None => Some code end)
        (written rw)
  | EvWrite p =>
      mkResponseWriter (header rw)
        (match status rw with Some c => Some c | None => Some 200 end)
        (written rw ++ p)%string
  | EvSleep _ | EvLog _ => rw
  end.

Definition response (tr : list event) : ResponseWriter :=
  fold_left applyEvent tr freshResponse.

(** The durations slept, oldest first. *)
Definition slept (tr : list event) : list Z :=
  flat_map (fun e => match e with EvSleep d => [d] | _ => [] end) tr.

(** A statement either falls through to the next one, returns from the
    handler, or panics. *)
Inductive flow (A : Type) :=
| Next (a : A)
| Return
| Panic (msg : string).
Arguments Next {A} a.
Arguments Return {A}.
Arguments Panic {A} msg.

Definition M (A : Type) : Type := World -> flow A * World.

Definition ret {A} (a : A) : M A := fun wd => (Next a, wd).

Definition bind {A B} (m : M A) (k : A -> M B) : M B :=
  fun wd =>
    match m wd with
    | (Next a, wd') => k a wd'
    | (Return, wd') => (Return, wd')
    | (Panic msg, wd') => (Panic msg, wd')
    end.

Definition return_ {A} : M A := fun wd => (Return, wd).
Definition panic {A} (msg : string) : M A := fun wd => (Panic msg, wd).

Declare Scope go_scope.
Delimit Scope go_scope with go.
Notation "x <- m ;; k" := (bind m (fun x => k))
  (at level 61, m at next level, right associativity) : go_scope.
Notation "m ;; k" := (bind m (fun _ => k))
  (at level 61, right associativity) : go_scope.
Local Open Scope go_scope.

(** ** net/http, log, time, math/rand *)

Definition emit (e : event) : M unit :=
  fun wd => (Next tt, mkWorld (rand wd) (trace wd ++ [e])).

Definition HeaderSet (key val : string) : M unit := emit (EvHeaderSet key val).

Definition WriteHeader (code : Z) : M unit := emit (EvWriteHeader code).

(** [fmt.Fprintf(w, format)], no operands. *)
Definition Fprintf (format : string) : M unit :=
  emit (EvWrite (fmt.Sprintf format)).

Definition quoted (s : string) : string :=
  (String dquote s ++ String dquote "")%string.

(** [fmt.Fprintf(w, "\"%s\"", s)]: the verb [%s] with a string operand
    writes the bytes of the string, here between two double quotes. *)
Definition FprintfQuoted (s : string) : M unit := emit (EvWrite (quoted s)).

Definition log (e : logEntry) : M unit := emit (EvLog e).

Definition wrap64 (z : Z) : Z := (z + 2 ^ 63) mod 2 ^ 64 - 2 ^ 63.

(** [time.Duration(n) * time.Second], a 64-bit count of nanoseconds. *)
Definition seconds (n : Z) : Z := wrap64 (n * 1000000000).

Definition Sleep (d : Z) : M unit := emit (EvSleep d).

(** The next value of the source, reduced into [[0, range)]; a source
    that has run out hands out 0. *)
Definition draw (range : Z) : M Z :=
  fun wd =>
    match rand wd with
    | x :: rest => (Next (x mod range), mkWorld rest (trace wd))
    | [] => (Next 0, wd)
    end.

(** [rand.Int()]: a non-negative 63-bit integer. *)
Definition Int : M Z := draw (2 ^ 63).

(** [rand.Intn(n)]: an integer of [[0,n)]; Go panics when [n <= 0]. *)
Definition Intn (n : Z) : M Z :=
  if n <=? 0 then panic "invalid argument to Intn" else draw n.

(** ** main.go *)

(** [colors[rand.Int()%len(colors)]]: Go's [%] truncates, and indexing
    out of range panics. *)
Definition randomColor : M string :=
  r <- Int ;;
  let i := Z.rem r (Z.of_nat (length colors)) in
  if i <? 0 then panic "index out of range"
  else match nth_error colors (Z.to_nat i) with
       | Some c => ret c
       | None => panic "index out of range"
       end.

(** [printColor]: the two cases of the [switch] differ in the colour
    they print. *)
Definition printColor (colorToPrint : string) (healthy : bool) : M unit :=
  HeaderSet "Content-Type" "text/plain; charset=utf-8" ;;
  HeaderSet "X-Content-Type-Options" "nosniff" ;;
  (if healthy then WriteHeader 200
   else log (Println [OpString "Returning 500"]) ;; WriteHeader 500) ;;
  if (colorToPrint =? "")%string then
    randomColor <- randomColor ;;
    (if healthy
     then log (Printf (String.append "Successful %s" newline)
                 [OpString randomColor])
     else log (Printf (String.append "500 - %s" newline)
                 [OpString randomColor])) ;;
    FprintfQuoted randomColor
  else
    (if healthy
     then log (Printf (String.append "Successful %s" newline)
                 [OpString colorToPrint])
     else log (Printf (String.append "500 - %s" newline)
                 [OpString colorToPrint])) ;;
    FprintfQuoted colorToPrint.

(** The loop over [request]: the last record of the colour stays in
    [colorParams]. *)
Fixpoint selectParams (colorParams : colorParameters)
                      (request : list colorParameters)
                      (colorToReturn : string) : colorParameters :=
  match request with
  | [] => colorParams
  | cp :: rest =>
      selectParams
        (if (Color cp =? colorToReturn)%string then cp else colorParams)
        rest colorToReturn
  end.

(** The body as the handler takes it: [`"[]"`], the four bytes of an
    empty array inside double quotes, is not handed to the decoder. *)
Definition emptyArraySentinel : string := Q "'[]'".

Section Handler.

(** The Unicode tables behind [strconv.Quote] (see [strconv.IsPrint]). *)
Variable printable : N -> bool.

Variable g : Globals.

(** What each of the four error paths does: status 500, a log line,
    the text of the error as the format of [Fprintf], and [return]. *)
Definition fail {A} (entry : logEntry) (errText : string) : M A :=
  WriteHeader 500 ;;
  log entry ;;
  Fprintf errText ;;
  return_.

Definition failWith {A} (requestBody errText : string) : M A :=
  fail (Printf "%s: %v" [OpString requestBody; OpString errText]) errText.

(** Lines 196-205 *)
Definition parseBody (requestBody : string) : M (list colorParameters) :=
  if (0 <? String.length requestBody)%nat
     && negb (requestBody =? emptyArraySentinel)%string
  then
    match json.Unmarshal requestBody with
    | inr errText => failWith requestBody errText
    | inl request => ret request
    end
  else ret [].

(** Lines 220-233 *)
Definition delay (requestBody colorToReturn : string)
                 (colorParams : colorParameters) : M unit :=
  if negb (envLatency g =? "")%string then
    match strconv.Atoi (envLatency g) with
    | inr e =>
        failWith requestBody (strconv.AtoiError printable (envLatency g) e)
    | inl latency =>
        log (Printf "Delaying %s %ds" [OpString colorToReturn; OpInt latency]) ;;
        Sleep (seconds latency)
    end
  else
    match DelayProbability colorParams with
    | Some p =>
        if 0 <? p then
          d <- Intn 100 ;;
          if d <=? p then
            log (Printf "Delaying %s %ds"
                   [OpString colorToReturn; OpInt (DelayLength colorParams)]) ;;
            Sleep (seconds (DelayLength colorParams))
          else ret tt
        else ret tt
    | None => ret tt
    end.

(** Lines 235-247 *)
Definition decideSuccess (requestBody : string)
                         (colorParams : colorParameters) : M bool :=
  if negb (envErrorRate g =? "")%string then
    match strconv.Atoi (envErrorRate g) with
    | inr e =>
        failWith requestBody (strconv.AtoiError printable (envErrorRate g) e)
    | inl errorRate =>
        d <- Intn 100 ;;
        ret (errorRate <=? d)
    end
  else
    match Return500Probability colorParams with
    | Some p =>
        if 0 <? p then
          d <- Intn 100 ;;
          ret (negb (d <=? p))
        else ret true
    | None => ret true
    end.

(** Lines 207-210: the random colour is drawn even when [COLOR]
    overrides it. *)
Definition resolveColor : M string :=
  colorToReturn <- randomColor ;;
  if negb (color g =? "")%string then ret (color g) else ret colorToReturn.

(** Lines 207-248: what the handler does once it has the request. *)
Definition serve (requestBody : string) (request : list colorParameters)
  : M unit :=
  colorToReturn <- resolveColor ;;
  let colorParams := selectParams zeroColorParameters request colorToReturn in
  delay requestBody colorToReturn colorParams ;;
  returnSuccess <- decideSuccess requestBody colorParams ;;
  printColor colorToReturn returnSuccess.

(** [getColor], lines 187-249. *)
Definition getColor (r : Request) : M unit :=
  match ReadErr r with
  | Some errText =>
      fail (Println [OpString errText]) errText
  | None =>
      request <- parseBody (Body r) ;;
      serve (Body r) request
  end.

(** The handler run on a fresh response, with [draws] to come from the
    random source. *)
Definition handle (r : Request) (draws : list Z) : flow unit * World :=
  getColor r (newWorld draws).

End Handler.

(* ================================================================== *)
(** * The shutdown goroutine (lines 117-135 of [main])

    The goroutine blocks at three places: the receive from [quit], the
    [select] between [quit] and the ticker, and the call of
    [server.Shutdown].  It is modelled as a machine that is fed what it
    gets at those places and records what it does in between.  [done]
    is created in [main] and closed nowhere but here: [cpuBurn] gets it
    as a receive-only channel and [main] only receives from it. *)

Module shutdown.

Inductive Signal := SIGINT | SIGTERM.

Definition signalName (sig : Signal) : string :=
  match sig with
  | SIGINT => "interrupt"
  | SIGTERM => "terminated"
  end.

(** What the goroutine is handed where it blocks. *)
Inductive input :=
| Quit (sig : Signal)                     (* a signal read from [quit] *)
| Tick                                    (* a tick read from [delay.C] *)
| ShutdownReturns (err : option string).  (* [server.Shutdown] returns *)

Inductive action :=
| SetKeepAlivesEnabled (on : bool)
| LogPrintf (format : string) (args : list operand)
| LogPrintln (msg : string)
| NewTicker (d : Z)
| WithTimeout (d : Z)
| CallShutdown
| ShutdownReturned (err : option string)
| LogFatalf (format : string) (args : list operand)
| CloseDone
| Cancel
| TickerStop.

Inductive pc :=
| AwaitSignal               (* line 118: sig := <-quit *)
| AwaitSelect               (* line 123: select *)
| AwaitShutdown             (* line 131: server.Shutdown(ctx) *)
| Returned                  (* the goroutine is over *)
| Exited (code : Z)         (* os.Exit, from log.Fatalf *)
| Panicked (msg : string).

Record state := mkState {
  at_ : pc;
  doneClosed : bool;         (* the state of the channel [done] *)
  did : list action          (* oldest first *)
}.

Definition init : state := mkState AwaitSignal false [].

Definition hardTimeout : Z := seconds 30.

(** [close(done)]: closing a closed channel panics. *)
Definition closeDone (st : state) : state :=
  if doneClosed st
  then mkState (Panicked "close of closed channel") true (did st)
  else mkState (at_ st) true (did st ++ [CloseDone]).

Definition doing (st : state) (next : pc) (acts : list action) : state :=
  mkState next (doneClosed st) (did st ++ acts).

(** Lines 129-131, up to the call of [server.Shutdown]. *)
Definition beginShutdown (st : state) : state :=
  doing st AwaitShutdown [WithTimeout hardTimeout; CallShutdown].

Section Step.

(** The flag [-termination-delay], in seconds. *)
Variable terminationDelay : Z.

Definition step (st : state) (i : input) : state :=
  match at_ st, i with
  | AwaitSignal, Quit sig =>
      let st1 :=
        doing st AwaitSelect
          [SetKeepAlivesEnabled false;
           LogPrintf "Signal %v caught. Shutting down in %vs"
             [OpString (signalName sig); OpInt terminationDelay]] in
      (* time.NewTicker panics on a non-positive interval *)
      if seconds terminationDelay <=? 0
      then doing st1 (Panicked "non-positive interval for NewTicker") []
      else doing st1 AwaitSelect [NewTicker (seconds terminationDelay)]
  | AwaitSelect, Quit _ =>
      beginShutdown
        (doing st AwaitSelect
           [LogPrintln "Second signal caught. Shutting down NOW"])
  | AwaitSelect, Tick => beginShutdown st
  | AwaitShutdown, ShutdownReturns (Some err) =>
      (* log.Fatalf exits the process; deferred calls do not run *)
      doing st (Exited 1)
        [ShutdownReturned (Some err);
         LogFatalf
           (String.append "Could not gracefully shutdown the server: %v"
              newline)
           [OpString err]]
  | AwaitShutdown, ShutdownReturns None =>
      let st1 := closeDone (doing st AwaitShutdown [ShutdownReturned None]) in
      match at_ st1 with
      | Panicked _ => st1
      | _ => doing st1 Returned [Cancel; TickerStop]   (* the defers *)
      end
  | _, _ => st      (* nothing the goroutine is waiting for *)
  end.

Definition run (inputs : list input) : state := fold_left step inputs init.

End Step.

End shutdown.

(* ================================================================== *)
(** * Notions used in the statements *)

(** ** Runs of the handler *)

(** A table for [strconv.Quote] that knows no printable rune above
    U+00FF; the concrete runs below only quote ASCII. *)
Definition noTable : N -> bool := fun _ => false.

(** The world [wd] after [draws] more values were taken from the random
    source and [evs] happened. *)
Definition after (wd : World) (draws : nat) (evs : list event) : World :=
  mkWorld (skipn draws (rand wd)) (trace wd ++ evs).

(** The response at the end of a run. *)
Definition outcome (r : flow unit * World) : ResponseWriter :=
  response (trace (snd r)).

(** Events that leave the response alone. *)
Definition silent (e : event) : bool :=
  match e with
  | EvSleep _ | EvLog _ => true
  | _ => false
  end.

Definition isLog (e : event) : bool :=
  match e with
  | EvLog _ => true
  | _ => false
  end.

(** A run without its log lines: how it ended, what is left of the
    random source, and what it did to the response and the clock. *)
Definition visible (r : flow unit * World) : flow unit * list Z * list event :=
  (fst r, rand (snd r), filter (fun e => negb (isLog e)) (trace (snd r))).

(** The bodies the handler takes, with the parameters it reads in them. *)
Definition accepts (body : string) (request : list colorParameters) : Prop :=
  (body = "" /\ request = [])
  \/ (body = emptyArraySentinel /\ request = [])
  \/ (body <> "" /\ body <> emptyArraySentinel
      /\ json.Unmarshal body = inl request).

(** An override that is unset or holds an integer. *)
Definition unsetOrInt (s : string) : Prop :=
  s = "" \/ exists n, strconv.Atoi s = inl n.

(** The colour of the response when [randomColor] gave [c]. *)
Definition resolved (g : Globals) (c : string) : string :=
  if negb (color g =? "")%string then color g else c.

(** What [printColor] does for a colour that is not empty. *)
Definition printEvents (c : string) (healthy : bool) : list event :=
  [EvHeaderSet "Content-Type" "text/plain; charset=utf-8";
   EvHeaderSet "X-Content-Type-Options" "nosniff"]
  ++ (if healthy then [EvWriteHeader 200]
      else [EvLog (Println [OpString "Returning 500"]); EvWriteHeader 500])
  ++ [EvLog (Printf (if healthy then String.append "Successful %s" newline
                     else String.append "500 - %s" newline) [OpString c]);
      EvWrite (quoted c)].

(** What [fail] does. *)
Definition failEvents (entry : logEntry) (errText : string) : list event :=
  [EvWriteHeader 500; EvLog entry; EvWrite (fmt.Sprintf errText)].

Definition bodyEntry (requestBody errText : string) : logEntry :=
  Printf "%s: %v" [OpString requestBody; OpString errText].

(** A delay of [n] seconds for the colour [c]. *)
Definition delayEvents (c : string) (n : Z) : list event :=
  [EvLog (Printf "Delaying %s %ds" [OpString c; OpInt n]); EvSleep (seconds n)].

(** Without [LATENCY]: the draws and the delay of the record [cp], the
    draw being [d]. *)
Definition delayDraws (cp : colorParameters) : nat :=
  match DelayProbability cp with
  | Some p => if 0 <? p then 1%nat else 0%nat
  | None => 0%nat
  end.

Definition requestDelayEvents (c : string) (cp : colorParameters) (d : Z)
  : list event :=
  match DelayProbability cp with
  | Some p => if (0 <? p) && (d <=? p) then delayEvents c (DelayLength cp) else []
  | None => []
  end.

(** Without [ERROR_RATE]: the draws and the verdict of the record. *)
Definition failureDraws (cp : colorParameters) : nat :=
  match Return500Probability cp with
  | Some p => if 0 <? p then 1%nat else 0%nat
  | None => 0%nat
  end.

Definition requestSuccess (cp : colorParameters) (d : Z) : bool :=
  match Return500Probability cp with
  | Some p => negb ((0 <? p) && (d <=? p))
  | None => true
  end.

(** ** Decoded records *)

Definition inInt64 (p : option Z) : Prop :=
  forall n, p = Some n -> strconv.minInt64 <= n <= strconv.maxInt64.

Definition probabilitiesInt64 (cp : colorParameters) : Prop :=
  inInt64 (DelayProbability cp) /\ inInt64 (Return500Probability cp).

(** ** Formats *)

Definition pct : ascii := "%"%char.

Definition suffix (r t : list ascii) : Prop := exists m, t = m ++ r.

(** Every ['%'] of [l] is followed by ['!']. *)
Fixpoint marked (l : list ascii) : bool :=
  match l with
  | [] => true
  | c :: t => (if (c =? pct)%char then startsWith "!" t else true) && marked t
  end.

(** The same, but for a ['%'] in last position. *)
Fixpoint markedOpen (l : list ascii) : bool :=
  match l with
  | [] => true
  | c :: t =>
      (if (c =? pct)%char
       then match t with [] => true | _ => startsWith "!" t end
       else true) && markedOpen t
  end.

Definition missingTail : list ascii := bytes "!(MISSING)".

(** ** The shutdown goroutine *)

(** Actions of the goroutine before it calls [server.Shutdown]. *)
Definition early (a : shutdown.action) : bool :=
  match a with
  | shutdown.CloseDone | shutdown.ShutdownReturned _ | shutdown.CallShutdown => false
  | _ => true
  end.

Definition callShutdown : list shutdown.action :=
  [shutdown.WithTimeout shutdown.hardTimeout; shutdown.CallShutdown].

Definition closing : list shutdown.action :=
  [shutdown.ShutdownReturned None; shutdown.CloseDone; shutdown.Cancel;
   shutdown.TickerStop].

(** The states the goroutine can be in. *)
Definition reachable (st : shutdown.state) : Prop :=
  match shutdown.at_ st with
  | shutdown.AwaitSignal | shutdown.AwaitSelect | shutdown.Panicked _ =>
      shutdown.doneClosed st = false /\ forallb early (shutdown.did st) = true
  | shutdown.AwaitShutdown =>
      shutdown.doneClosed st = false /\
      exists pre, forallb early pre = true /\ shutdown.did st = pre ++ callShutdown
  | shutdown.Exited code =>
      code = 1 /\ shutdown.doneClosed st = false /\
      exists pre err entry,
        forallb early pre = true /\
        shutdown.did st
        = pre ++ callShutdown ++ [shutdown.ShutdownReturned (Some err); entry]
        /\ early entry = true
  | shutdown.Returned =>
      shutdown.doneClosed st = true /\
      exists pre, forallb early pre = true /\
                  shutdown.did st = pre ++ callShutdown ++ closing
  end.

(** ** The members of a JSON object, field by field *)

Definition fieldEqb (a b : json.fieldId) : bool :=
  match a, b with
  | json.fColor, json.fColor
  | json.fDelayPercent, json.fDelayPercent
  | json.fDelayLength, json.fDelayLength
  | json.fReturn500, json.fReturn500 => true
  | _, _ => false
  end.

(** What the members of an object hold for the field [f]: the value of
    the last member whose key is matched to [f], if there is one. *)
Fixpoint lastMember (f : json.fieldId) (ms : list (list ascii * json.value))
  : option json.value :=
  match ms with
  | [] => None
  | (key, v) :: ms' =>
      match lastMember f ms' with
      | Some w => Some w
      | None =>
          match json.findField key with
          | Some f' => if fieldEqb f' f then Some v else None
          | None => None
          end
      end
  end.

(** The probability [p] that the members [ms] give to the pointer field
    [f]: nil when the key is missing or its last value is [null], the
    integer of its last value otherwise. *)
Definition probabilityOf (f : json.fieldId) (ms : list (list ascii * json.value))
                         (p : option Z) : Prop :=
  match lastMember f ms with
  | None => p = None
  | Some json.Null => p = None
  | Some (json.Number lit) => exists n, strconv.ParseInt lit = inl n /\ p = Some n
  | Some _ => False
  end.

(** The record [cp] decoded from the element [v] of the array. *)
Definition recordOf (v : json.value) (cp : colorParameters) : Prop :=
  match v with
  | json.Null => cp = zeroColorParameters
  | json.Object ms =>
      probabilityOf json.fDelayPercent ms (DelayProbability cp)
      /\ probabilityOf json.fReturn500 ms (Return500Probability cp)
  | _ => False
  end.

(* ================================================================== *)
(** * More notions: the handler and the shutdown goroutine *)

(** ** Events of a run, by kind *)

Definition isWriteHeader (e : event) : bool :=
  match e with
  | EvWriteHeader _ => true
  | _ => false
  end.

Definition isWrite (e : event) : bool :=
  match e with
  | EvWrite _ => true
  | _ => false
  end.

(** The hundred values [rand.Intn(100)] can give. *)
Definition percent : list Z := map Z.of_nat (seq 0 100).

(** Whether the delay stage sleeps when the source hands out [d]. *)
Definition delaysOn (printable : N -> bool) (g : Globals)
                    (cp : colorParameters) (d : Z) : bool :=
  match slept (trace (snd (delay printable g "" "" cp (newWorld [d])))) with
  | [] => false
  | _ => true
  end.

(** Whether the failure decision says 500 when the source hands out [d]. *)
Definition failsOn (printable : N -> bool) (g : Globals)
                   (cp : colorParameters) (d : Z) : bool :=
  match fst (decideSuccess printable g "" cp (newWorld [d])) with
  | Next true => false
  | _ => true
  end.



(** A byte that cannot stand in a decimal integer: neither a digit nor
    a sign. *)
Definition foreign (c : ascii) : Prop :=
  isDigit c = false /\ c <> "+"%char /\ c <> "-"%char.

(** ** The shutdown goroutine, action by action *)

(** What the goroutine does when the first signal arrives, up to the
    creation of the ticker. *)
Definition onSignal (td : Z) (sig : shutdown.Signal) : list shutdown.action :=
  [shutdown.SetKeepAlivesEnabled false;
   shutdown.LogPrintf "Signal %v caught. Shutting down in %vs"
     [OpString (shutdown.signalName sig); OpInt td]].

Definition secondSignal : list shutdown.action :=
  [shutdown.LogPrintln "Second signal caught. Shutting down NOW"].

(** The end of a goroutine whose [server.Shutdown] failed. *)
Definition fatal (err : string) : list shutdown.action :=
  [shutdown.ShutdownReturned (Some err);
   shutdown.LogFatalf
     (String.append "Could not gracefully shutdown the server: %v" newline)
     [OpString err]].

(** What the goroutine has done once it waits for [server.Shutdown]. *)
Definition upToShutdown (td : Z) (sig : shutdown.Signal) (second : bool)
  : list shutdown.action :=
  onSignal td sig ++ [shutdown.NewTicker (seconds td)]
  ++ (if second then secondSignal else []) ++ callShutdown.

(** The states of the goroutine, with all it has done. *)
Definition behaviour (td : Z) (st : shutdown.state) : Prop :=
  match shutdown.at_ st with
  | shutdown.AwaitSignal =>
      shutdown.doneClosed st = false /\ shutdown.did st = []
  | shutdown.AwaitSelect =>
      shutdown.doneClosed st = false /\ 0 < seconds td /\
      exists sig, shutdown.did st = onSignal td sig ++ [shutdown.NewTicker (seconds td)]
  | shutdown.Panicked msg =>
      shutdown.doneClosed st = false /\ seconds td <= 0 /\
      msg = "non-positive interval for NewTicker" /\
      exists sig, shutdown.did st = onSignal td sig
  | shutdown.AwaitShutdown =>
      shutdown.doneClosed st = false /\ 0 < seconds td /\
      exists sig second, shutdown.did st = upToShutdown td sig second
  | shutdown.Exited code =>
      shutdown.doneClosed st = false /\ 0 < seconds td /\ code = 1 /\
      exists sig second err,
        shutdown.did st = upToShutdown td sig second ++ fatal err
  | shutdown.Returned =>
      shutdown.doneClosed st = true /\ 0 < seconds td /\
      exists sig second, shutdown.did st = upToShutdown td sig second ++ closing
  end.

(** What [server.Shutdown] returns, if it does: the first of its returns
    among the things the goroutine is handed. *)
Fixpoint shutdownResult (inputs : list shutdown.input) : option (option string) :=
  match inputs with
  | [] => None
  | shutdown.ShutdownReturns err :: _ => Some err
  | _ :: rest => shutdownResult rest
  end.

Definition isQuit (i : shutdown.input) : bool :=
  match i with
  | shutdown.Quit _ => true
  | _ => false
  end.

(* ================================================================== *)
(** * unicode and strings: what [getLabels] calls *)


Module unicode.

(** [unicode.IsSpace]: the Latin-1 spaces, and beyond them the table
    [White_Space]. *)
Definition IsSpace (r : N) : bool :=
  if (r <=? 255)%N then
    (r =? 9)%N || (r =? 10)%N || (r =? 11)%N || (r =? 12)%N || (r =? 13)%N
    || (r =? 32)%N || (r =? 133)%N || (r =? 160)%N
  else
    (r =? 5760)%N                                 (* U+1680 *)
    || ((8192 <=? r)%N && (r <=? 8202)%N)         (* U+2000..U+200A *)
    || (r =? 8232)%N || (r =? 8233)%N             (* U+2028, U+2029 *)
    || (r =? 8239)%N                              (* U+202F *)
    || (r =? 8287)%N                              (* U+205F *)
    || (r =? 12288)%N.                            (* U+3000 *)

End unicode.

Module strings.

(** [asciiSet.contains] *)
Definition contains (cutset : string) (c : ascii) : bool :=
  existsb (Ascii.eqb c) (bytes cutset).

Fixpoint trimLeftASCII (s : string) (cutset : string) : string :=
  match s with
  | EmptyString => EmptyString
  | String c t => if contains cutset c then trimLeftASCII t cutset else s
  end.

Fixpoint trimRightASCII (s : string) (cutset : string) : string :=
  match s with
  | EmptyString => EmptyString
  | String c t =>
      match trimRightASCII t cutset with
      | EmptyString => if contains cutset c then EmptyString else String c EmptyString
      | r => String c r
      end
  end.

(** [strings.Trim(s, cutset)] for a cutset of several ASCII bytes. *)
Definition Trim (s cutset : string) : string :=
  trimLeftASCII (trimRightASCII s cutset) cutset.

(** [strings.Split(s, sep)] for a separator of one byte. *)
Fixpoint Split (s : string) (sep : ascii) : list string :=
  match s with
  | EmptyString => [EmptyString]
  | String c t =>
      if (c =? sep)%char then EmptyString :: Split t sep
      else match Split t sep with
           | h :: r => String c h :: r
           | [] => [String c EmptyString]
           end
  end.

(** [TrimLeftFunc(s, f)]: the runes at the head that satisfy [f] are
    dropped. *)
Fixpoint trimLeftRunes (f : N -> bool) (skip : nat) (s : list ascii) : list ascii :=
  match s with
  | [] => []
  | _ :: t =>
      match skip with
      | S k => trimLeftRunes f k t
      | O => if f (fst (utf8.DecodeRune s))
             then trimLeftRunes f (snd (utf8.DecodeRune s) - 1) t
             else s
      end
  end.

Definition TrimLeftFunc (s : list ascii) (f : N -> bool) : list ascii :=
  trimLeftRunes f 0 s.

(** [lastIndexFunc(s, f, truth)], on [s[0:i]]: the index of the last
    rune [r] with [f(r) == truth]. *)
Fixpoint lastIndexFunc (fuel : nat) (s : list ascii) (f : N -> bool)
                       (truth : bool) (i : nat) : option nat :=
  match fuel with
  | O => None
  | S fuel' =>
      if (0 <? i)%nat then
        let (r, size) := utf8.DecodeLastRune (firstn i s) in
        if Bool.eqb (f r) truth then Some (i - size)%nat
        else lastIndexFunc fuel' s f truth (i - size)
      else None
  end.

Definition TrimRightFunc (s : list ascii) (f : N -> bool) : list ascii :=
  match lastIndexFunc (S (length s)) s f false (length s) with
  | Some i =>
      if (utf8.RuneSelf <=? byteval (nth i s zero))%N
      then firstn (i + snd (utf8.DecodeRune (skipn i s))) s
      else firstn (i + 1) s
  | None => []
  end.

Definition TrimFunc (s : list ascii) (f : N -> bool) : list ascii :=
  TrimRightFunc (TrimLeftFunc s f) f.

Definition asciiSpace (c : ascii) : bool :=
  let b := byteval c in
  (b =? 9)%N || (b =? 10)%N || (b =? 11)%N || (b =? 12)%N || (b =? 13)%N
  || (b =? 32)%N.

(** The second loop of [TrimSpace], on the bytes in reverse. *)
Fixpoint trimSpaceRight (r : list ascii) : list ascii :=
  match r with
  | [] => []
  | c :: t =>
      if (utf8.RuneSelf <=? byteval c)%N then TrimRightFunc (rev r) unicode.IsSpace
      else if asciiSpace c then trimSpaceRight t
      else rev r
  end.

(** The first loop of [TrimSpace]. *)
Fixpoint trimSpaceLeft (s : list ascii) : list ascii :=
  match s with
  | [] => []
  | c :: t =>
      if (utf8.RuneSelf <=? byteval c)%N then TrimFunc s unicode.IsSpace
      else if asciiSpace c then trimSpaceLeft t
      else trimSpaceRight (rev s)
  end.

(** [strings.TrimSpace] *)
Definition TrimSpace (s : string) : string :=
  string_of_list_ascii (trimSpaceLeft (bytes s)).

End strings.

(* ================================================================== *)
(** * [getLabels] (lines 155-185) and its caller in [main] (lines 77-83) *)

(** A [map[string]string]: every key once; the order of the pairs
    (that of the first assignment of each key) carries no meaning. *)
Definition labelMap := list (string * string).

(** [out[key] = val] *)
Fixpoint mapSet (out : labelMap) (key val : string) : labelMap :=
  match out with
  | [] => [(key, val)]
  | (k, v) :: t =>
      if (k =? key)%string then (key, val) :: t else (k, v) :: mapSet t key val
  end.

(** The cutset [";\t\n\v\f\r "] of line 157. *)
Definition labelCutset : string :=
  string_of_list_ascii (map ascii_of_N [59; 9; 10; 11; 12; 13; 32]%N).

(** Lines 171-178: a side of more than 255 runes is cut to its first
    255. *)
Definition clip (s : string) : string :=
  if (255 <? utf8.RuneCountInString s)%nat
  then utf8.runesToString (firstn 255 (utf8.stringToRunes s))
  else s.

(** The loop of lines 158-183; [None] is the [nil] map. *)
Fixpoint labelsLoop (entries : list string) (out : labelMap) : option labelMap :=
  match entries with
  | [] => Some out
  | entry :: rest =>
      if (entry =? "")%string then None
      else
        let split := strings.Split entry ":" in
        if negb (length split =? 2)%nat then None
        else
          let left := strings.TrimSpace (nth 0 split "") in
          let right := strings.TrimSpace (nth 1 split "") in
          if (left =? "")%string || (right =? "")%string then None
          else
            let out := mapSet out (clip left) (clip right) in
            if (64 <=? length out)%nat then Some out
            else labelsLoop rest out
  end.

Definition getLabels (env : string) : option labelMap :=
  labelsLoop (strings.Split (strings.Trim env labelCutset) ";") [].

(** [len(labels)], 0 for the [nil] map. *)
Definition len (labels : option labelMap) : nat :=
  match labels with
  | Some out => length out
  | None => 0%nat
  end.

(** The two fields of [newrelic.Config] that lines 77-83 assign. *)
Record Config := mkConfig {
  Labels : option labelMap;
  Error : option string
}.

(** Lines 77-83.  [fmt.Errorf] with the verb [%s] and a string writes
    the bytes of the string. *)
Definition configureLabels (envLabels : string) (cfg : Config) : Config :=
  if negb (envLabels =? "")%string then
    let labels := getLabels envLabels in
    if (0 <? len labels)%nat then mkConfig labels (Error cfg)
    else mkConfig (Labels cfg)
           (Some ("invalid NEW_RELIC_LABELS value: " ++ envLabels)%string)
  else cfg.

(** ** Notions used in the statements about [getLabels] *)




(** The bytes of [s] all belong to [cutset]. *)
Definition within (cutset s : string) : Prop :=
  forall c, In c (bytes s) -> strings.contains cutset c = true.

(** [n] labels with the keys [a], [aa], [aaa], ... *)
Fixpoint manyLabels (n : nat) : string :=
  match n with
  | O => ""
  | S O => "a:v"
  | S k =>
      (manyLabels k ++ ";" ++ string_of_list_ascii (repeat "a"%char n) ++ ":v")%string
  end.

(** ** Labels as they are written in [NEW_RELIC_LABELS] *)

(** An ASCII byte that is no white space. *)
Definition visibleByte (c : ascii) : bool :=
  (byteval c <? 128)%N && negb (strings.asciiSpace c).

(** A key or a value written plainly: it starts and ends with a visible
    ASCII byte, holds neither [;] nor [:], and has at most 255 runes. *)
Definition plain (s : string) : Prop :=
  visibleByte (hd zero (bytes s)) = true
  /\ visibleByte (hd zero (rev (bytes s))) = true
  /\ s <> ""
  /\ ~ In ";"%char (bytes s) /\ ~ In ":"%char (bytes s)
  /\ (utf8.RuneCountInString s <= 255)%nat.

(** White space of the ASCII kind only. *)
Definition blank (s : string) : Prop :=
  forall c, In c (bytes s) -> strings.asciiSpace c = true.

(** One label as written: a key and a value, with white space around
    each. *)
Record labelText := mkLabelText {
  lead : string;
  wkey : string;
  mid1 : string;
  mid2 : string;
  wval : string;
  trail : string
}.

Definition entryText (w : labelText) : string :=
  (lead w ++ wkey w ++ mid1 w ++ ":" ++ mid2 w ++ wval w ++ trail w)%string.

Definition wellWritten (w : labelText) : Prop :=
  plain (wkey w) /\ plain (wval w)
  /\ blank (lead w) /\ blank (mid1 w) /\ blank (mid2 w) /\ blank (trail w).

(** Entries joined by semicolons. *)
Fixpoint joinEntries (entries : list string) : string :=
  match entries with
  | [] => ""
  | [e] => e
  | e :: rest => (e ++ ";" ++ joinEntries rest)%string
  end.

(** The map that holds the labels of [ws], assigned in order. *)
Definition labelsOf (ws : list labelText) : labelMap :=
  fold_left (fun out w => mapSet out (wkey w) (wval w)) ws [].

(* ================================================================== *)
(** * [cpuBurn] (lines 283-313) and the end of [main] (lines 137-144)

    [main] starts the shutdown goroutine, calls [cpuBurn], which starts
    one goroutine per CPU to burn, serves until [ListenAndServe]
    returns, and then waits for [done].  The goroutines run in any
    order: a schedule says who takes the next step (and, for the steps
    that wait for the outside, what comes in).  [done] is never sent
    on, so a receive from it succeeds exactly when it is closed. *)

Module process.

(** A line of the log, or the line of [log.Fatal] and [log.Fatalf]. *)
Inductive line :=
| Log (e : logEntry)
| Fatal (text : string)
| Fatalf (format : string) (args : list operand).

(** What [cpuBurn] leaves behind: the lines it logged and the
    goroutines it started (by their argument [cpu]), or the exit of
    [log.Fatal]. *)
Inductive burning :=
| Started (lines : list line) (cpus : list Z)
| Exit (lines : list line) (code : Z).

(** The loop of lines 299-312: [for i := 0; i < numCPU; i++]. *)
Fixpoint spawn (fuel : nat) (i numCPU : Z) : list Z :=
  match fuel with
  | O => []
  | S fuel' => if i <? numCPU then i :: spawn fuel' (i + 1) numCPU else []
  end.

Section CpuBurn.

Variable printable : N -> bool.

(** [runtime.NumCPU()] *)
Variable NumCPU : Z.

Definition cpuBurn (numCPUBurn : string) : burning :=
  if (numCPUBurn =? "")%string then Started [] []
  else
    let numCPU :=
      if (numCPUBurn =? "all")%string then inl NumCPU
      else match strconv.Atoi numCPUBurn with
           | inl num => inl num
           | inr e => inr (strconv.AtoiError printable numCPUBurn e)
           end in
    match numCPU with
    | inr text => Exit [Fatal text] 1
    | inl numCPU =>
        Started [Log (Printf "Burning %d CPUs" [OpInt numCPU])]
          (spawn (Z.to_nat numCPU) 0 numCPU)
    end.

End CpuBurn.

(** A goroutine of [cpuBurn]: before its first line, in its loop, or
    returned. *)
Inductive workerPc := Spawned | Spinning | Stopped.

Record worker := mkWorker {
  cpu : Z;
  wat : workerPc;
  wlog : list line
}.

(** One step of a worker: the first line, or one turn of the loop,
    whose [select] takes [<-done] when [done] is closed and the
    [default] otherwise. *)
Definition stepWorker (doneClosed : bool) (w : worker) : worker :=
  match wat w with
  | Spawned =>
      mkWorker (cpu w) Spinning
        (wlog w ++ [Log (Printf "Burning CPU #%d" [OpInt (cpu w)])])
  | Spinning =>
      if doneClosed
      then mkWorker (cpu w) Stopped
             (wlog w ++ [Log (Printf "Stopped CPU burn #%d" [OpInt (cpu w)])])
      else w
  | Stopped => w
  end.

Fixpoint stepAt (k : nat) (doneClosed : bool) (ws : list worker) : list worker :=
  match ws, k with
  | [], _ => []
  | w :: rest, O => stepWorker doneClosed w :: rest
  | w :: rest, S k' => w :: stepAt k' doneClosed rest
  end.

(** What [server.ListenAndServe] returns. *)
Inductive listenErr :=
| ErrServerClosed
| ErrOther (text : string)
| ErrNil.

Inductive mainPc :=
| AtCpuBurn       (* line 137 *)
| Listening       (* line 139, in ListenAndServe *)
| AwaitDone       (* line 143: <-done *)
| MainReturned.

Record state := mkProc {
  sd : shutdown.state;           (* the goroutine of lines 117-135 *)
  workers : list worker;
  mainAt : mainPc;
  mainLog : list line;
  exited : option Z              (* the exit status, once the process is over *)
}.

Definition init : state := mkProc shutdown.init [] AtCpuBurn [] None.

Inductive sched :=
| ToShutdown (i : shutdown.input)     (* the shutdown goroutine is handed [i] *)
| ListenReturns (e : listenErr)       (* [ListenAndServe] returns [e] *)
| MainRuns                            (* [main] takes a step *)
| WorkerRuns (k : nat).               (* the [k]-th worker takes a step *)

Section Step.

Variable printable : N -> bool.
Variable NumCPU : Z.
Variable terminationDelay : Z.
Variable listenAddr : string.
Variable numCPUBurn : string.

Definition stepMain (st : state) : state :=
  match mainAt st with
  | AtCpuBurn =>
      match cpuBurn printable NumCPU numCPUBurn with
      | Exit lines code =>
          mkProc (sd st) (workers st) AtCpuBurn (mainLog st ++ lines) (Some code)
      | Started lines cpus =>
          mkProc (sd st) (map (fun c => mkWorker c Spawned []) cpus) Listening
            (mainLog st ++ lines
             ++ [Log (Printf "Started server on %s" [OpString listenAddr])])
            None
      end
  | Listening => st
  | AwaitDone =>
      if shutdown.doneClosed (sd st)
      then mkProc (sd st) (workers st) MainReturned
             (mainLog st ++ [Log (Println [OpString "Server stopped"])])
             (Some 0)       (* main returns: the process is over *)
      else st
  | MainReturned => st
  end.

Definition step (st : state) (s : sched) : state :=
  match exited st with
  | Some _ => st
  | None =>
      match s with
      | ToShutdown i =>
          let sd' := shutdown.step terminationDelay (sd st) i in
          mkProc sd' (workers st) (mainAt st) (mainLog st)
            (match shutdown.at_ sd' with
             | shutdown.Exited code => Some code
             | shutdown.Panicked _ => Some 2
             | _ => None
             end)
      | ListenReturns e =>
          match mainAt st, e with
          | Listening, ErrOther text =>
              mkProc (sd st) (workers st) Listening
                (mainLog st
                 ++ [Fatalf (String.append "Could not listen on %s: %v" newline)
                       [OpString listenAddr; OpString text]])
                (Some 1)
          | Listening, _ =>
              mkProc (sd st) (workers st) AwaitDone (mainLog st) None
          | _, _ => st
          end
      | MainRuns => stepMain st
      | WorkerRuns k =>
          mkProc (sd st) (stepAt k (shutdown.doneClosed (sd st)) (workers st))
            (mainAt st) (mainLog st) None
      end
  end.

Definition run (schedule : list sched) : state := fold_left step schedule init.

End Step.

End process.

(** ** Notions used in the statements about the process *)

Definition burningLine (c : Z) : process.line :=
  process.Log (Printf "Burning CPU #%d" [OpInt c]).

Definition stoppedLine (c : Z) : process.line :=
  process.Log (Printf "Stopped CPU burn #%d" [OpInt c]).

Definition serverStopped : process.line :=
  process.Log (Println [OpString "Server stopped"]).

(** What a worker has logged, by where it is; [closed] is the state of
    [done]. *)
Definition workerLog (closed : bool) (w : process.worker) : Prop :=
  match process.wat w with
  | process.Spawned => process.wlog w = []
  | process.Spinning => process.wlog w = [burningLine (process.cpu w)]
  | process.Stopped =>
      process.wlog w = [burningLine (process.cpu w); stoppedLine (process.cpu w)]
      /\ closed = true
  end.

Definition isFatal (l : process.line) : bool :=
  match l with
  | process.Log _ => false
  | _ => true
  end.

(** How the process stands: still running, or over with its status. *)
Definition standing (st : process.state) : Prop :=
  match process.exited st with
  | None =>
      process.mainAt st <> process.MainReturned
      /\ forallb (fun l => negb (isFatal l)) (process.mainLog st) = true
      /\ ~ In serverStopped (process.mainLog st)
      /\ match shutdown.at_ (process.sd st) with
         | shutdown.Exited _ | shutdown.Panicked _ => False
         | _ => True
         end
  | Some code =>
      (code = 0 /\ process.mainAt st = process.MainReturned
       /\ shutdown.doneClosed (process.sd st) = true
       /\ exists pre, process.mainLog st = pre ++ [serverStopped]
                      /\ ~ In serverStopped pre
                      /\ forallb (fun l => negb (isFatal l)) pre = true)
      \/ (code = 1 /\ process.mainAt st <> process.MainReturned
          /\ ~ In serverStopped (process.mainLog st)
          /\ ((exists pre l, process.mainLog st = pre ++ [l] /\ isFatal l = true)
              \/ shutdown.at_ (process.sd st) = shutdown.Exited 1))
      \/ (code = 2 /\ process.mainAt st <> process.MainReturned
          /\ ~ In serverStopped (process.mainLog st)
          /\ exists msg, shutdown.at_ (process.sd st) = shutdown.Panicked msg)
  end.

(** The cpus of the workers: none before [cpuBurn], then those it
    started. *)
Definition staffed (printable : N -> bool) (NumCPU : Z) (numCPUBurn : string)
                   (st : process.state) : Prop :=
  match process.mainAt st with
  | process.AtCpuBurn => process.workers st = []
  | _ => exists lines,
           process.cpuBurn printable NumCPU numCPUBurn
           = process.Started lines (map process.cpu (process.workers st))
  end.

(** What holds of the process at every moment. *)
Definition invariant (printable : N -> bool) (NumCPU td : Z)
                     (numCPUBurn : string) (st : process.state) : Prop :=
  behaviour td (process.sd st)
  /\ Forall (workerLog (shutdown.doneClosed (process.sd st))) (process.workers st)
  /\ staffed printable NumCPU numCPUBurn st
  /\ standing st.

(* ================================================================== *)
(** * Runs of the model on concrete inputs *)

(** ** Formats without operands *)

Example Sprintf_plain : fmt.Sprintf "abc" = "abc".
Proof. reflexivity. Qed.

Example Sprintf_trailing_percent : fmt.Sprintf "100%" = "100%!(NOVERB)".
Proof. reflexivity. Qed.

Example Sprintf_percent_percent : fmt.Sprintf "a%%b" = "a%b".
Proof. reflexivity. Qed.

Example Sprintf_missing : fmt.Sprintf "%d x" = "%!d(MISSING) x".
Proof. reflexivity. Qed.

Example Sprintf_index : fmt.Sprintf "%[1]d" = "%!d(BADINDEX)".
Proof. reflexivity. Qed.

Example Sprintf_star_width : fmt.Sprintf "%*d" = "%!(BADWIDTH)%!d(MISSING)".
Proof. reflexivity. Qed.

Example Sprintf_star_precision : fmt.Sprintf "%.*d" = "%!(BADPREC)%!d(MISSING)".
Proof. reflexivity. Qed.

Example Sprintf_huge_width : fmt.Sprintf "%999999999d" = "%!(NOVERB)".
Proof. reflexivity. Qed.

(** ** Integers *)

Example Atoi_negative : strconv.Atoi "-12" = inl (-12).
Proof. reflexivity. Qed.

Example Atoi_sign_only : strconv.Atoi "+" = inr strconv.ErrSyntax.
Proof. reflexivity. Qed.

Example Atoi_too_large :
  strconv.Atoi "9223372036854775808" = inr strconv.ErrRange.
Proof. reflexivity. Qed.

Example Atoi_smallest :
  strconv.Atoi "-9223372036854775808" = inl strconv.minInt64.
Proof. reflexivity. Qed.

Example Atoi_overflow_before_letter :
  strconv.Atoi "99999999999999999999999x" = inr strconv.ErrRange.
Proof. reflexivity. Qed.

Example Atoi_underscore : strconv.Atoi "1_0" = inr strconv.ErrSyntax.
Proof. reflexivity. Qed.

Example AtoiError_text :
  strconv.AtoiError (fun _ => false) "50%" strconv.ErrSyntax
  = Q "strconv.Atoi: parsing '50%': invalid syntax".
Proof. reflexivity. Qed.

(** ** The scanner *)

Example checkValid_empty_array : json.checkValid "[]" = None.
Proof. reflexivity. Qed.

Example checkValid_percent :
  json.checkValid "%"
  = Some "invalid character '%' looking for beginning of value".
Proof. reflexivity. Qed.

Example checkValid_truncated :
  json.checkValid "[1," = Some "unexpected end of JSON input".
Proof. reflexivity. Qed.

Example checkValid_minus :
  json.checkValid "-" = Some "invalid character ' ' in numeric literal".
Proof. reflexivity. Qed.

Example checkValid_trailing :
  json.checkValid "[] x" = Some "invalid character 'x' after top-level value".
Proof. reflexivity. Qed.

Example checkValid_trailing_comma :
  json.checkValid (Q "{'a':1,}")
  = Some "invalid character '}' looking for beginning of object key string".
Proof. reflexivity. Qed.

Example checkValid_open_string :
  json.checkValid (Q "'abc") = Some "unexpected end of JSON input".
Proof. reflexivity. Qed.

Example checkValid_control_byte :
  json.checkValid (String (ascii_of_N 1) "")
  = Some "invalid character '\x01' looking for beginning of value".
Proof. reflexivity. Qed.

(** ** The decoder *)

Example Unmarshal_empty_array : json.Unmarshal "[]" = inl [].
Proof. reflexivity. Qed.

Example Unmarshal_null : json.Unmarshal "null" = inl [].
Proof. reflexivity. Qed.

Example Unmarshal_record :
  json.Unmarshal
    (Q "[{'color':'red','delayPercent':100,'delayLength':2,'return500':100}]")
  = inl [mkColorParameters "red" (Some 100) 2 (Some 100)].
Proof. reflexivity. Qed.

Example Unmarshal_folded_key_and_unknown_key :
  json.Unmarshal
    (Q " [ { 'COLOR' : 'red' , 'x':[1,{'a':null}], 'delayPercent': null }, null ] ")
  = inl [mkColorParameters "red" None 0 None; zeroColorParameters].
Proof. reflexivity. Qed.

Example Unmarshal_fraction :
  json.Unmarshal (Q "[{'delayPercent':1.5}]")
  = inr "json: cannot unmarshal number 1.5 into Go struct field colorParameters.delayPercent of type int".
Proof. reflexivity. Qed.

Example Unmarshal_sentinel :
  json.Unmarshal emptyArraySentinel
  = inr "json: cannot unmarshal string into Go value of type []main.colorParameters".
Proof. reflexivity. Qed.

Example Unmarshal_escapes :
  json.Unmarshal (Q "[{'color':'a\ud83d\ude00b\ud83dcA'}]")
  = inl [mkColorParameters
           (string_of_list_ascii
              (bytes "a" ++ map ascii_of_N [240; 159; 152; 128]%N
               ++ bytes "b" ++ map ascii_of_N [239; 191; 189]%N ++ bytes "cA"))
           None 0 None].
Proof. reflexivity. Qed.

(** ** The handler *)

Example handle_plain :
  handle noTable (mkGlobals "" "" "") (mkRequest "" None) [0; 5]
  = (Next tt,
     mkWorld [5]
       [EvHeaderSet "Content-Type" "text/plain; charset=utf-8";
        EvHeaderSet "X-Content-Type-Options" "nosniff";
        EvWriteHeader 200;
        EvLog (Printf (String.append "Successful %s" newline) [OpString "red"]);
        EvWrite (quoted "red")]).
Proof. reflexivity. Qed.

(** The body of section 8 of the specification, when the colour drawn
    is red: a delay of two seconds and a status 500. *)
Example handle_red_record :
  handle noTable (mkGlobals "" "" "")
    (mkRequest
       (Q "[{'color':'red','delayPercent':100,'delayLength':2,'return500':100}]")
       None)
    [0; 5; 7]
  = (Next tt,
     mkWorld []
       [EvLog (Printf "Delaying %s %ds" [OpString "red"; OpInt 2]);
        EvSleep 2000000000;
        EvHeaderSet "Content-Type" "text/plain; charset=utf-8";
        EvHeaderSet "X-Content-Type-Options" "nosniff";
        EvLog (Println [OpString "Returning 500"]);
        EvWriteHeader 500;
        EvLog (Printf (String.append "500 - %s" newline) [OpString "red"]);
        EvWrite (quoted "red")]).
Proof. reflexivity. Qed.

(** The same body when the colour drawn is orange. *)
Example handle_other_colour :
  handle noTable (mkGlobals "" "" "")
    (mkRequest
       (Q "[{'color':'red','delayPercent':100,'delayLength':2,'return500':100}]")
       None)
    [1; 5; 7]
  = (Next tt,
     mkWorld [5; 7]
       [EvHeaderSet "Content-Type" "text/plain; charset=utf-8";
        EvHeaderSet "X-Content-Type-Options" "nosniff";
        EvWriteHeader 200;
        EvLog (Printf (String.append "Successful %s" newline) [OpString "orange"]);
        EvWrite (quoted "orange")]).
Proof. reflexivity. Qed.

Example handle_bad_latency :
  handle noTable (mkGlobals "" "0" "abc") (mkRequest "" None) [0; 5]
  = (Return,
     mkWorld [5]
       [EvWriteHeader 500;
        EvLog (Printf "%s: %v"
                 [OpString "";
                  OpString (Q "strconv.Atoi: parsing 'abc': invalid syntax")]);
        EvWrite (Q "strconv.Atoi: parsing 'abc': invalid syntax")]).
Proof. reflexivity. Qed.

(** ** The shutdown goroutine *)

Example run_second_signal :
  shutdown.run 10
    [shutdown.Quit shutdown.SIGTERM; shutdown.Quit shutdown.SIGTERM;
     shutdown.ShutdownReturns None]
  = shutdown.mkState shutdown.Returned true
      [shutdown.SetKeepAlivesEnabled false;
       shutdown.LogPrintf "Signal %v caught. Shutting down in %vs"
         [OpString "terminated"; OpInt 10];
       shutdown.NewTicker 10000000000;
       shutdown.LogPrintln "Second signal caught. Shutting down NOW";
       shutdown.WithTimeout 30000000000; shutdown.CallShutdown;
       shutdown.ShutdownReturned None; shutdown.CloseDone;
       shutdown.Cancel; shutdown.TickerStop].
Proof. reflexivity. Qed.

Example run_zero_delay :
  shutdown.run 0 [shutdown.Quit shutdown.SIGINT; shutdown.Tick]
  = shutdown.mkState (shutdown.Panicked "non-positive interval for NewTicker")
      false
      [shutdown.SetKeepAlivesEnabled false;
       shutdown.LogPrintf "Signal %v caught. Shutting down in %vs"
         [OpString "interrupt"; OpInt 0]].
Proof. reflexivity. Qed.

(* ================================================================== *)
(** * Facts about formats *)

Lemma high_bit_not_percent (x : N) :
  N.testbit x 7 = true -> ascii_of_N x <> "%"%char.
Proof.
  destruct x as [|p]; [discriminate|].
  do 8 (destruct p as [p|p|]; try discriminate);
    cbn; intros _; discriminate.
Qed.

Lemma lor_bit7 (k y : N) : N.testbit k 7 = true -> N.testbit (N.lor k y) 7 = true.
Proof. intros H. rewrite N.lor_spec, H. reflexivity. Qed.

Lemma cont_not_percent r sh : utf8.cont r sh <> pct.
Proof. apply high_bit_not_percent, lor_bit7. reflexivity. Qed.

Lemma EncodeRune_no_percent (r : N) :
  r <> 37%N -> ~ In pct (utf8.EncodeRune r).
Proof.
  intros Hr. unfold utf8.EncodeRune, utf8.encode3.
  repeat match goal with |- context [if ?b then _ else _] => destruct b eqn:? end;
    cbn [In]; intros H;
    repeat match goal with
      | H : _ \/ _ |- _ => destruct H as [H|H]
      | H : False |- _ => exact H
      | H : utf8.cont _ _ = _ |- _ => exact (cont_not_percent _ _ H)
      | H : ascii_of_N (N.lor _ _) = _ |- _ =>
          revert H; apply high_bit_not_percent, lor_bit7; reflexivity
      end.
  apply Hr. apply N.ltb_lt in Heqb.
  rewrite <- (N_ascii_embedding r) by lia.
  unfold pct in H. rewrite H. reflexivity.
Qed.

Lemma suffix_refl t : suffix t t.
Proof. exists []. reflexivity. Qed.

Lemma suffix_trans a b c : suffix a b -> suffix b c -> suffix a c.
Proof. intros [m ->] [n ->]. exists (n ++ m). now rewrite app_assoc. Qed.

Lemma suffix_nil t : suffix [] t.
Proof. exists t. now rewrite app_nil_r. Qed.

Lemma suffix_skipn n t : suffix (skipn n t) t.
Proof. exists (firstn n t). symmetry. apply firstn_skipn. Qed.

Lemma suffix_tl t : suffix (tl t) t.
Proof. destruct t as [|c t]; [apply suffix_refl | exists [c]; reflexivity]. Qed.

Lemma suffix_length r t : suffix r t -> (length r <= length t)%nat.
Proof. intros [m ->]. rewrite length_app. lia. Qed.

Create HintDb sfx.
#[local] Hint Resolve suffix_refl suffix_nil suffix_skipn suffix_tl : sfx.

Lemma skipFlags_suffix s : suffix (fmt.skipFlags s) s.
Proof.
  induction s as [|c t IH]; cbn; auto with sfx.
  destruct (fmt.isFlag c); auto with sfx.
  eapply suffix_trans; [exact IH | exists [c]; reflexivity].
Qed.

Lemma parsenumLoop_suffix s : forall num isnum,
  suffix (snd (fmt.parsenumLoop num isnum s)) s.
Proof.
  induction s as [|c t IH]; intros; cbn; auto with sfx.
  destruct (isDigit c); cbn; auto with sfx.
  destruct (fmt.tooLarge num); cbn; auto with sfx.
  eapply suffix_trans; [apply IH | exists [c]; reflexivity].
Qed.

Lemma parsenum_suffix s : suffix (snd (fmt.parsenum s)) s.
Proof. destruct s; cbn -[fmt.parsenumLoop]; auto with sfx. apply parsenumLoop_suffix. Qed.

Lemma argNumber_suffix s good : suffix (fst (fst (fmt.argNumber s good))) s.
Proof.
  unfold fmt.argNumber. destruct s as [|c t]; cbn -[fmt.parseArgNumber skipn]; auto with sfx.
  destruct (c =? "[")%char; cbn -[fmt.parseArgNumber skipn]; auto with sfx.
  destruct (fmt.parseArgNumber (c :: t)); cbn -[skipn]; auto with sfx.
Qed.

Lemma doWidth_suffix s a g : suffix (snd (fst (fst (fmt.doWidth s a g)))) s.
Proof.
  unfold fmt.doWidth. destruct (startsWith "*" s); cbn; auto with sfx.
  pose proof (parsenum_suffix s) as H. destruct (fmt.parsenum s) as [[? ?] ?]; exact H.
Qed.

Lemma doPrec_suffix s a g : suffix (snd (fst (fst (fmt.doPrec s a g)))) s.
Proof.
  unfold fmt.doPrec. destruct (startsWith "." s); cbn; auto with sfx.
  pose proof (argNumber_suffix (tl s) (if a then false else g)) as H1.
  destruct (fmt.argNumber (tl s) _) as [[t ai] gd]; cbn in H1.
  assert (suffix t s) by (eapply suffix_trans; eauto with sfx).
  destruct (startsWith "*" t); cbn.
  - eapply suffix_trans; eauto with sfx.
  - pose proof (parsenum_suffix t) as H2. destruct (fmt.parsenum t) as [[? ?] u]; cbn in *.
    eapply suffix_trans; eauto.
Qed.

Lemma DecodeRune_size c t : (1 <= snd (utf8.DecodeRune (c :: t)))%nat.
Proof.
  unfold utf8.DecodeRune. cbv zeta.
  repeat (cbn [snd];
          match goal with
          | |- (1 <= snd (if ?b then _ else _))%nat => destruct b
          | |- (1 <= snd (match ?l with [] => _ | _ :: _ => _ end))%nat => destruct l
          end); cbn [snd]; lia.
Qed.

Lemma doRune_progress s g :
  suffix (snd (fmt.doRune s g)) s /\
  (s <> [] -> (length (snd (fmt.doRune s g)) < length s)%nat).
Proof.
  destruct s as [|c t]; [split; [apply suffix_nil | congruence]|].
  unfold fmt.doRune. pose proof (DecodeRune_size c t) as Hs.
  destruct (utf8.DecodeRune (c :: t)) as [verb size]. cbn [snd] in Hs.
  assert (Hlen : (length (skipn size (c :: t)) < length (c :: t))%nat).
  { pose proof (length_skipn size (c :: t)) as Hk. cbn [length] in *. lia. }
  destruct (verb =? 37)%N; [|destruct (negb g)]; cbn [snd];
    (split; [apply suffix_skipn | intros _; exact Hlen]).
Qed.

Lemma doVerb_progress t :
  suffix (snd (fmt.doVerb t)) t /\
  (t <> [] -> (length (snd (fmt.doVerb t)) < length t)%nat).
Proof.
  unfold fmt.doVerb.
  pose proof (skipFlags_suffix t) as H0.
  pose proof (argNumber_suffix (fmt.skipFlags t) true) as H1.
  destruct (fmt.argNumber (fmt.skipFlags t) true) as [[s1 a1] g1]; cbn in H1.
  pose proof (doWidth_suffix s1 a1 g1) as H2.
  destruct (fmt.doWidth s1 a1 g1) as [[[oW s2] a2] g2]; cbn in H2.
  pose proof (doPrec_suffix s2 a2 g2) as H3.
  destruct (fmt.doPrec s2 a2 g2) as [[[oP s3] a3] g3]; cbn in H3.
  assert (H4 : exists s4 g4, (if a3 then (s3, a3, g3) else fmt.argNumber s3 g3) = (s4, snd (fst (if a3 then (s3, a3, g3) else fmt.argNumber s3 g3)), g4) /\ suffix s4 s3).
  { destruct a3.
    - exists s3, g3. split; [reflexivity | apply suffix_refl].
    - pose proof (argNumber_suffix s3 g3) as H. destruct (fmt.argNumber s3 g3) as [[s4 a4] g4].
      exists s4, g4. split; [reflexivity | exact H]. }
  destruct H4 as (s4 & g4 & -> & H4).
  pose proof (doRune_progress s4 g4) as [H5 H6].
  destruct (fmt.doRune s4 g4) as [oV rest]; cbn [snd] in *.
  assert (Hs4 : suffix s4 t) by (repeat (eapply suffix_trans; [eassumption|]); apply suffix_refl).
  split.
  - eapply suffix_trans; eassumption.
  - intros Ht. destruct s4 as [|c s4'].
    + destruct H5 as [m Hm]. destruct m; [|discriminate]. cbn in Hm. subst rest.
      destruct t; [congruence | cbn; lia].
    + specialize (H6 ltac:(discriminate)). apply suffix_length in Hs4. lia.
Qed.

(** Where percent signs stand in what a verb writes *)

Lemma marked_app a b : marked a = true -> marked b = true -> marked (a ++ b) = true.
Proof.
  induction a as [|c t IH]; cbn; auto. intros H Hb.
  apply andb_true_iff in H as [H1 H2]. rewrite (IH H2 Hb), andb_true_r.
  destruct (c =? pct)%char; auto. destruct t; [discriminate | exact H1].
Qed.

Lemma marked_open_app a b :
  marked a = true -> markedOpen b = true -> markedOpen (a ++ b) = true.
Proof.
  induction a as [|c t IH]; cbn [app markedOpen marked]; auto. intros H Hb.
  apply andb_true_iff in H as [H1 H2]. rewrite (IH H2 Hb), andb_true_r.
  destruct (c =? pct)%char; auto. destruct t; [discriminate | exact H1].
Qed.

Lemma marked_no_percent l : ~ In pct l -> marked l = true.
Proof.
  induction l as [|c t IH]; cbn; auto. intros H.
  rewrite IH by tauto. destruct (Ascii.eqb_spec c pct); [tauto | reflexivity].
Qed.

Lemma marked_is_open l : marked l = true -> markedOpen l = true.
Proof.
  induction l as [|c t IH]; cbn; auto. intros H.
  apply andb_true_iff in H as [H1 H2]. rewrite (IH H2), andb_true_r.
  destruct (c =? pct)%char; auto. destruct t; auto.
Qed.

Lemma markedOpen_split l : markedOpen l = true ->
  forall E1 E2, l = E1 ++ pct :: E2 -> E2 = [] \/ exists E3, E2 = "!"%char :: E3.
Proof.
  intros H E1. revert l H. induction E1 as [|e E1 IH]; intros l H E2 ->.
  - cbn in H. apply andb_true_iff in H as [H _].
    destruct E2 as [|d E2]; [now left | right].
    cbn in H. apply Ascii.eqb_eq in H. subst d. eauto.
  - cbn in H. apply andb_true_iff in H as [_ H]. eapply IH; eauto.
Qed.

Lemma doRune_marked s g : markedOpen (fst (fmt.doRune s g)) = true.
Proof.
  destruct s as [|c t]; [reflexivity|].
  unfold fmt.doRune. destruct (utf8.DecodeRune (c :: t)) as [verb size].
  destruct (N.eqb_spec verb 37); [reflexivity|].
  assert (Hm : forall tail, marked tail = true ->
     markedOpen (fmt.percentSign :: "!"%char :: utf8.EncodeRune verb ++ tail) = true).
  { intros tail Ht. apply marked_is_open.
    change (marked ([fmt.percentSign; "!"%char] ++ utf8.EncodeRune verb ++ tail) = true).
    apply marked_app; [reflexivity|]. apply marked_app; [|exact Ht].
    apply marked_no_percent, EncodeRune_no_percent; assumption. }
  destruct (negb g); cbn [fst]; apply Hm; reflexivity.
Qed.

Lemma doWidth_marked s a g : marked (fst (fst (fst (fmt.doWidth s a g)))) = true.
Proof.
  unfold fmt.doWidth. destruct (startsWith "*" s); [reflexivity|].
  destruct (fmt.parsenum s) as [[? ?] ?]; reflexivity.
Qed.

Lemma doPrec_marked s a g : marked (fst (fst (fst (fmt.doPrec s a g)))) = true.
Proof.
  unfold fmt.doPrec. destruct (startsWith "." s); [|reflexivity].
  destruct (fmt.argNumber (tl s) _) as [[t ai] gd].
  destruct (startsWith "*" t); [reflexivity|].
  destruct (fmt.parsenum t) as [[? ?] ?]; reflexivity.
Qed.

Lemma doVerb_marked t : markedOpen (fst (fmt.doVerb t)) = true.
Proof.
  unfold fmt.doVerb.
  destruct (fmt.argNumber (fmt.skipFlags t) true) as [[s1 a1] g1].
  pose proof (doWidth_marked s1 a1 g1) as H2.
  destruct (fmt.doWidth s1 a1 g1) as [[[oW s2] a2] g2]; cbn in H2.
  pose proof (doPrec_marked s2 a2 g2) as H3.
  destruct (fmt.doPrec s2 a2 g2) as [[[oP s3] a3] g3]; cbn in H3.
  destruct (if a3 then (s3, a3, g3) else fmt.argNumber s3 g3) as [[s4 a4] g4].
  pose proof (doRune_marked s4 g4) as H5.
  destruct (fmt.doRune s4 g4) as [oV rest]; cbn [fst] in *.
  apply marked_open_app; [exact H2|]. apply marked_open_app; assumption.
Qed.

(** A verb ['!'] *)
Lemma doVerb_bang t :
  fmt.doVerb ("!"%char :: t) = (bytes "%!!(MISSING)", t).
Proof. reflexivity. Qed.

Lemma doVerb_nil : fmt.doVerb [] = (fmt.noVerbString, []).
Proof. reflexivity. Qed.

(** The loop does not depend on the fuel left over *)
Lemma doPrintfLoop_fuel : forall fuel s, (length s <= fuel)%nat ->
  fmt.doPrintfLoop fuel s = fmt.doPrintfLoop (length s) s.
Proof.
  induction fuel as [fuel IH] using lt_wf_ind. intros s Hs.
  destruct s as [|c t]; [destruct fuel; reflexivity|].
  destruct fuel as [|fuel]; [cbn in Hs; lia|]. cbn [length fmt.doPrintfLoop].
  cbn [length] in Hs.
  destruct (c =? fmt.percentSign)%char.
  - pose proof (doVerb_progress t) as [Hsfx _]. apply suffix_length in Hsfx.
    destruct (fmt.doVerb t) as [out rest]; cbn [snd] in Hsfx.
    rewrite (IH fuel) by lia. rewrite (IH (length t)) by lia. reflexivity.
  - rewrite (IH fuel) by lia. reflexivity.
Qed.

Lemma doPrintf_nil : fmt.doPrintf [] = [].
Proof. reflexivity. Qed.

Lemma doPrintf_literal c t : c <> pct ->
  fmt.doPrintf (c :: t) = c :: fmt.doPrintf t.
Proof.
  intros Hc. unfold fmt.doPrintf. cbn [length fmt.doPrintfLoop].
  destruct (Ascii.eqb_spec c fmt.percentSign); [contradiction | reflexivity].
Qed.

Lemma doPrintf_verb t :
  fmt.doPrintf (pct :: t) = fst (fmt.doVerb t) ++ fmt.doPrintf (snd (fmt.doVerb t)).
Proof.
  unfold fmt.doPrintf. cbn [length fmt.doPrintfLoop].
  change (pct =? fmt.percentSign)%char with true. cbv iota.
  pose proof (doVerb_progress t) as [Hsfx _]. apply suffix_length in Hsfx.
  destruct (fmt.doVerb t) as [out rest]; cbn [fst snd] in *.
  rewrite doPrintfLoop_fuel by lia. reflexivity.
Qed.

Lemma doPrintf_no_percent s : ~ In pct s -> fmt.doPrintf s = s.
Proof.
  induction s as [|c t IH]; [reflexivity|]. intros H.
  rewrite doPrintf_literal by (intros ->; apply H; now left).
  rewrite IH; [reflexivity | intros Hin; apply H; now right].
Qed.

Lemma doPrintf_literal_app p s : ~ In pct p ->
  fmt.doPrintf (p ++ s) = p ++ fmt.doPrintf s.
Proof.
  induction p as [|c p IH]; [reflexivity|]. intros H. cbn [app].
  rewrite doPrintf_literal by (intros ->; apply H; now left).
  rewrite IH; [reflexivity | intros Hin; apply H; now right].
Qed.

(** No format is its own output behind the tail of a missing operand. *)
Lemma no_missing_fixpoint : forall n x, (length x <= n)%nat ->
  x <> missingTail ++ fmt.doPrintf x.
Proof.
  induction n as [|n IH]; intros x Hn Hx.
  - destruct x; [discriminate | cbn in Hn; lia].
  - set (y := fmt.doPrintf x) in *.
    assert (Hy : y = missingTail ++ fmt.doPrintf y).
    { unfold y at 1. rewrite Hx at 1. apply doPrintf_literal_app.
      cbv. intuition discriminate. }
    apply (IH y); [|exact Hy].
    apply (f_equal (@length _)) in Hx. rewrite length_app in Hx. cbn in Hx. lia.
Qed.

(** The format comes out of [doPrintf] with something in front of it only
    when nothing is in front and it holds no ['%']. *)
Lemma doPrintf_fixpoint : forall n y G, (length y <= n)%nat ->
  fmt.doPrintf y = G ++ y -> G = [] /\ ~ In pct y.
Proof.
  induction n as [|n IH]; intros y G Hn Hy.
  { destruct y; [|cbn in Hn; lia]. rewrite doPrintf_nil, app_nil_r in Hy.
    subst G. split; [reflexivity | intros []]. }
  destruct y as [|c t].
  { rewrite doPrintf_nil, app_nil_r in Hy. subst G. split; [reflexivity | intros []]. }
  cbn [length] in Hn.
  destruct (Ascii.eqb_spec c pct) as [->|Hc].
  2:{ rewrite doPrintf_literal in Hy by assumption.
      destruct G as [|g G].
      - cbn in Hy. injection Hy as Hy.
        destruct (IH t [] ltac:(lia) Hy) as [_ Ht].
        split; [reflexivity|]. intros [H|H]; [congruence | contradiction].
      - cbn in Hy. injection Hy as <- Hy.
        destruct (IH t (G ++ [c]) ltac:(lia)) as [HG _].
        + rewrite Hy, <- app_assoc. reflexivity.
        + destruct G; discriminate. }
  exfalso.
  rewrite doPrintf_verb in Hy.
  pose proof (doVerb_progress t) as [[m Hm] Hprog].
  pose proof (doVerb_marked t) as Hmark.
  destruct (fmt.doVerb t) as [out rest] eqn:Hverb; cbn [fst snd] in *.
  assert (Hrest : (length rest <= n)%nat).
  { apply (f_equal (@length _)) in Hm. rewrite length_app in Hm. lia. }
  (* when what the verb wrote is exactly G ++ "%" ++ m *)
  assert (Hexact : out = G ++ pct :: m -> False).
  { intros Hout.
    destruct (markedOpen_split _ Hmark _ _ Hout) as [-> | [m' ->]].
    - cbn [app] in Hm. destruct t as [|d t'].
      + rewrite doVerb_nil in Hverb. injection Hverb as <- <-.
        apply (f_equal (@rev _)) in Hout. rewrite rev_app_distr in Hout.
        cbn in Hout. discriminate.
      + specialize (Hprog ltac:(discriminate)). subst rest. lia.
    - subst t. cbn [app] in Hverb. rewrite doVerb_bang in Hverb.
      injection Hverb as <- Hr.
      apply (f_equal (@length _)) in Hr. rewrite length_app in Hr.
      destruct m'; [|cbn in Hr; lia].
      apply (f_equal (@rev _)) in Hout. rewrite rev_app_distr in Hout.
      cbn in Hout. discriminate. }
  rewrite Hm in Hy.
  change (G ++ pct :: m ++ rest) with (G ++ (pct :: m) ++ rest) in Hy.
  rewrite app_assoc in Hy.
  apply app_eq_app in Hy as [l [[Hout Hr] | [HW HX]]].
  - destruct l as [|l0 l].
    + rewrite app_nil_r in Hout. apply Hexact. exact Hout.
    + rewrite <- app_assoc in Hout. cbn [app] in Hout.
      destruct (markedOpen_split _ Hmark _ _ Hout) as [E | [E3 E]].
      { destruct m; discriminate. }
      assert (Ht : exists t', t = "!"%char :: t').
      { subst t. destruct m as [|m0 m]; cbn in E.
        - injection E as -> _. rewrite Hr. cbn. eauto.
        - injection E as -> _. cbn. eauto. }
      destruct Ht as [t' ->]. rewrite doVerb_bang in Hverb.
      injection Hverb as <- <-.
      assert (HG : G = []).
      { destruct G as [|g G]; [reflexivity|]. exfalso.
        cbn in Hout. injection Hout as _ Hout.
        assert (Hin : In pct (bytes "!!(MISSING)")).
        { change (bytes "!!(MISSING)") with
            ["!"; "!"; "("; "M"; "I"; "S"; "S"; "I"; "N"; "G"; ")"]%char.
          rewrite Hout. apply in_or_app. right. now left. }
        cbv in Hin. intuition discriminate. }
      subst G. cbn [app] in Hout.
      assert (Hm1 : m = ["!"%char]).
      { apply (f_equal (@length _)) in Hm. rewrite length_app in Hm. cbn in Hm.
        destruct m as [|m0 [|m1 m]]; cbn in Hm; try lia.
        cbn in E. injection E as -> _. reflexivity. }
      subst m. cbn in Hout. injection Hout as Hl0 Hl.
      apply (no_missing_fixpoint n t' Hrest).
      subst l0 l. exact Hr.
  - destruct (IH rest l Hrest HX) as [-> _].
    rewrite app_nil_r in HW. apply Hexact. symmetry. exact HW.
Qed.

Theorem doPrintf_id_iff (s : list ascii) :
  fmt.doPrintf s = s <-> ~ In pct s.
Proof.
  split; [|apply doPrintf_no_percent].
  intros H. apply (doPrintf_fixpoint (length s) s []); auto.
Qed.

Lemma Sprintf_id_iff (s : string) :
  fmt.Sprintf s = s <-> ~ In "%"%char (list_ascii_of_string s).
Proof.
  unfold fmt.Sprintf. rewrite <- (doPrintf_id_iff (list_ascii_of_string s)). split.
  - intros H. apply (f_equal list_ascii_of_string) in H.
    now rewrite list_ascii_of_string_of_list_ascii in H.
  - intros ->. apply string_of_list_ascii_of_string.
Qed.

(* ================================================================== *)
(** * Facts about the handler *)

Lemma bind_next {A B} (m : M A) (k : A -> M B) wd a wd' :
  m wd = (Next a, wd') -> bind m k wd = k a wd'.
Proof. unfold bind. intros ->. reflexivity. Qed.

Lemma bind_return {A B} (m : M A) (k : A -> M B) wd wd' :
  m wd = (Return, wd') -> bind m k wd = (Return, wd').
Proof. unfold bind. intros ->. reflexivity. Qed.

Lemma draw_run range wd :
  0 < range ->
  exists d, 0 <= d < range /\ d = hd 0 (rand wd) mod range /\
    draw range wd = (Next d, after wd 1 []).
Proof.
  intros Hr. exists (hd 0 (rand wd) mod range). split; [apply Z.mod_pos_bound; lia|].
  split; [reflexivity|]. unfold draw, after. destruct wd as [[|x rest] tr]; cbn.
  - rewrite app_nil_r. destruct range; reflexivity.
  - rewrite app_nil_r. reflexivity.
Qed.

Lemma randomColor_run wd :
  exists c, In c colors /\ randomColor wd = (Next c, after wd 1 []).
Proof.
  unfold randomColor, Int.
  assert (Hpos : 0 < 2 ^ 63) by lia.
  destruct (draw_run (2 ^ 63) wd Hpos) as (r & Hr & _ & Hd).
  rewrite (bind_next _ _ _ _ _ Hd).
  assert (Hi : 0 <= Z.rem r (Z.of_nat (length colors)) < 6).
  { change (Z.of_nat (length colors)) with 6. rewrite Z.rem_mod_nonneg by lia.
    apply Z.mod_pos_bound. lia. }
  destruct (Z.ltb_spec (Z.rem r (Z.of_nat (length colors))) 0) as [?|_]; [lia|].
  destruct (nth_error colors (Z.to_nat (Z.rem r (Z.of_nat (length colors))))) as [c|] eqn:Hn.
  - exists c. split; [eapply nth_error_In; eauto | reflexivity].
  - apply nth_error_None in Hn. change (length colors) with 6%nat in *. lia.
Qed.

Lemma after_after wd n1 e1 n2 e2 :
  after (after wd n1 e1) n2 e2 = after wd (n2 + n1) (e1 ++ e2).
Proof. unfold after. cbn. rewrite skipn_skipn, app_assoc. reflexivity. Qed.

Lemma after_zero wd : after wd 0 [] = wd.
Proof. destruct wd. unfold after. cbn. rewrite app_nil_r. reflexivity. Qed.

Lemma emit_run e wd : emit e wd = (Next tt, after wd 0 [e]).
Proof. reflexivity. Qed.

Lemma response_app tr evs :
  response (tr ++ evs) = fold_left applyEvent evs (response tr).
Proof. apply fold_left_app. Qed.

Lemma response_silent tr : forallb silent tr = true -> response tr = freshResponse.
Proof.
  unfold response. generalize freshResponse.
  induction tr as [|e tr IH]; intros rw H; [reflexivity|].
  cbn in H. apply andb_true_iff in H as [He H]. cbn [fold_left].
  destruct e; try discriminate; cbn [applyEvent]; apply IH; exact H.
Qed.

Lemma printColor_run c healthy wd : c <> "" ->
  printColor c healthy wd = (Next tt, after wd 0 (printEvents c healthy)).
Proof.
  intros Hc. unfold printColor. apply String.eqb_neq in Hc. rewrite Hc.
  destruct wd as [rd tr].
  destruct healthy;
    unfold after, HeaderSet, WriteHeader, log, FprintfQuoted, emit, bind, printEvents;
    cbn [rand trace skipn]; rewrite <- !app_assoc; reflexivity.
Qed.

Lemma printEvents_response tr c healthy :
  forallb silent tr = true ->
  response (tr ++ printEvents c healthy) =
    mkResponseWriter
      [("X-Content-Type-Options", "nosniff");
       ("Content-Type", "text/plain; charset=utf-8")]
      (Some (if healthy then 200 else 500))
      (quoted c).
Proof.
  intros H. rewrite response_app, (response_silent _ H).
  destruct healthy; reflexivity.
Qed.

Lemma colors_nonempty c : In c colors -> c <> "".
Proof. cbv. intuition (subst; discriminate). Qed.

(** ** The stages of the handler *)

Lemma length_pos_nonempty (s : string) :
  (0 <? String.length s)%nat = negb (s =? "")%string.
Proof. destruct s; reflexivity. Qed.

Lemma Atoi_set s n : strconv.Atoi s = inl n -> s <> "".
Proof. intros H ->. discriminate. Qed.

Section Stages.

Variable printable : N -> bool.
Variable g : Globals.

Lemma parseBody_accepts body request wd :
  accepts body request -> parseBody body wd = (Next request, wd).
Proof.
  unfold parseBody. rewrite length_pos_nonempty.
  intros [[-> ->] | [[-> ->] | (H1 & H2 & H3)]]; try reflexivity.
  apply String.eqb_neq in H1, H2. rewrite H1, H2, H3. reflexivity.
Qed.

Lemma fail_run {A} entry errText wd :
  @fail A entry errText wd = (Return, after wd 0 (failEvents entry errText)).
Proof.
  destruct wd as [rd tr].
  unfold fail, after, WriteHeader, log, Fprintf, emit, bind, return_, failEvents.
  cbn [rand trace skipn]. rewrite <- !app_assoc. reflexivity.
Qed.

Lemma parseBody_rejects body errText wd :
  body <> "" -> body <> emptyArraySentinel ->
  json.Unmarshal body = inr errText ->
  parseBody body wd
  = (Return, after wd 0 (failEvents (bodyEntry body errText) errText)).
Proof.
  intros H1 H2 H3. unfold parseBody. rewrite length_pos_nonempty.
  apply String.eqb_neq in H1, H2. rewrite H1, H2, H3.
  unfold failWith. apply fail_run.
Qed.

Lemma resolveColor_run wd :
  exists c, In c colors /\
    resolveColor g wd
    = (Next (if negb (color g =? "")%string then color g else c), after wd 1 []).
Proof.
  destruct (randomColor_run wd) as (c & Hc & Hrun). exists c. split; [exact Hc|].
  unfold resolveColor. rewrite (bind_next _ _ _ _ _ Hrun).
  destruct (negb (color g =? "")%string); reflexivity.
Qed.

Lemma delay_forced body c cp wd latency :
  strconv.Atoi (envLatency g) = inl latency ->
  delay printable g body c cp wd = (Next tt, after wd 0 (delayEvents c latency)).
Proof.
  intros H. unfold delay. pose proof (Atoi_set _ _ H) as Hs.
  apply String.eqb_neq in Hs. rewrite Hs, H. cbn [negb].
  destruct wd as [rd tr]. unfold after, log, Sleep, emit, bind, delayEvents.
  cbn [rand trace skipn]. rewrite <- !app_assoc. reflexivity.
Qed.

Lemma delay_error body c cp wd e :
  envLatency g <> "" -> strconv.Atoi (envLatency g) = inr e ->
  delay printable g body c cp wd
  = (Return,
     after wd 0
       (failEvents (bodyEntry body (strconv.AtoiError printable (envLatency g) e))
                   (strconv.AtoiError printable (envLatency g) e))).
Proof.
  intros Hs H. unfold delay. apply String.eqb_neq in Hs. rewrite Hs, H.
  cbn [negb]. unfold failWith. apply fail_run.
Qed.

Lemma delay_request body c cp wd :
  envLatency g = "" ->
  delay printable g body c cp wd
  = (Next tt,
     after wd (delayDraws cp) (requestDelayEvents c cp (hd 0 (rand wd) mod 100))).
Proof.
  intros Hs. unfold delay, delayDraws, requestDelayEvents. rewrite Hs. cbn [String.eqb negb].
  destruct (DelayProbability cp) as [p|]; [|now rewrite after_zero].
  destruct (0 <? p); [|now rewrite after_zero]. cbn [andb].
  assert (H100 : 0 < 100) by lia.
  destruct (draw_run 100 wd H100) as (d & _ & Hd & Hrun).
  unfold Intn. cbn [Z.leb Z.compare]. rewrite (bind_next _ _ _ _ _ Hrun). rewrite <- Hd.
  destruct (d <=? p); [|reflexivity].
  destruct wd as [rd tr]. unfold after, log, Sleep, emit, bind, delayEvents.
  cbn [rand trace skipn]. rewrite <- !app_assoc. reflexivity.
Qed.

Lemma delayEvents_silent c n : forallb silent (delayEvents c n) = true.
Proof. reflexivity. Qed.

Lemma requestDelayEvents_silent c cp d :
  forallb silent (requestDelayEvents c cp d) = true.
Proof.
  unfold requestDelayEvents. destruct (DelayProbability cp); [|reflexivity].
  destruct (_ && _); reflexivity.
Qed.

Lemma delayDraws_bound cp : (delayDraws cp <= 1)%nat.
Proof.
  unfold delayDraws. destruct (DelayProbability cp) as [p|]; [|lia].
  destruct (0 <? p); lia.
Qed.

(** Unless [LATENCY] is ill-formed the delay stage falls through, having
    taken at most one value from the source and touched nothing of the
    response. *)
Lemma delay_passes_bounded body c cp wd :
  unsetOrInt (envLatency g) ->
  exists n evs, (n <= 1)%nat
                /\ delay printable g body c cp wd = (Next tt, after wd n evs)
                /\ forallb silent evs = true.
Proof.
  intros [Hs | [latency H]].
  - exists (delayDraws cp). eexists. split; [apply delayDraws_bound|].
    split; [apply delay_request; exact Hs|].
    apply requestDelayEvents_silent.
  - exists 0%nat. eexists. split; [lia|].
    split; [eapply delay_forced; exact H | reflexivity].
Qed.

Lemma delay_passes body c cp wd :
  unsetOrInt (envLatency g) ->
  exists n evs, delay printable g body c cp wd = (Next tt, after wd n evs)
                /\ forallb silent evs = true.
Proof.
  intros HL. destruct (delay_passes_bounded body c cp wd HL) as (n & evs & _ & H).
  eauto.
Qed.

Lemma decideSuccess_forced body cp wd errorRate :
  strconv.Atoi (envErrorRate g) = inl errorRate ->
  decideSuccess printable g body cp wd
  = (Next (errorRate <=? hd 0 (rand wd) mod 100), after wd 1 []).
Proof.
  intros H. unfold decideSuccess. pose proof (Atoi_set _ _ H) as Hs.
  apply String.eqb_neq in Hs. rewrite Hs, H. cbn [negb].
  assert (H100 : 0 < 100) by lia.
  destruct (draw_run 100 wd H100) as (d & _ & Hd & Hrun).
  unfold Intn. cbn [Z.leb Z.compare]. rewrite (bind_next _ _ _ _ _ Hrun), <- Hd.
  reflexivity.
Qed.

Lemma decideSuccess_error body cp wd e :
  envErrorRate g <> "" -> strconv.Atoi (envErrorRate g) = inr e ->
  decideSuccess printable g body cp wd
  = (Return,
     after wd 0
       (failEvents (bodyEntry body (strconv.AtoiError printable (envErrorRate g) e))
                   (strconv.AtoiError printable (envErrorRate g) e))).
Proof.
  intros Hs H. unfold decideSuccess. apply String.eqb_neq in Hs. rewrite Hs, H.
  cbn [negb]. unfold failWith. apply fail_run.
Qed.

Lemma decideSuccess_request body cp wd :
  envErrorRate g = "" ->
  decideSuccess printable g body cp wd
  = (Next (requestSuccess cp (hd 0 (rand wd) mod 100)), after wd (failureDraws cp) []).
Proof.
  intros Hs. unfold decideSuccess, failureDraws, requestSuccess. rewrite Hs.
  cbn [String.eqb negb].
  destruct (Return500Probability cp) as [p|]; [|now rewrite after_zero].
  destruct (0 <? p); [|now rewrite after_zero]. cbn [andb].
  assert (H100 : 0 < 100) by lia.
  destruct (draw_run 100 wd H100) as (d & _ & Hd & Hrun).
  unfold Intn. cbn [Z.leb Z.compare]. rewrite (bind_next _ _ _ _ _ Hrun), <- Hd.
  reflexivity.
Qed.

Lemma decideSuccess_passes body cp wd :
  unsetOrInt (envErrorRate g) ->
  exists b n, decideSuccess printable g body cp wd = (Next b, after wd n []).
Proof.
  intros [Hs | [rate H]].
  - eexists _, _. apply decideSuccess_request; exact Hs.
  - eexists _, _. eapply decideSuccess_forced; exact H.
Qed.

End Stages.

(** ** Whole runs *)

Lemma failEvents_response tr entry errText :
  forallb silent tr = true ->
  response (tr ++ failEvents entry errText)
  = mkResponseWriter [] (Some 500) (fmt.Sprintf errText).
Proof. intros H. rewrite response_app, (response_silent _ H). reflexivity. Qed.

Lemma slept_app a b : slept (a ++ b) = slept a ++ slept b.
Proof. unfold slept. apply flat_map_app. Qed.

Lemma slept_printEvents c healthy : slept (printEvents c healthy) = [].
Proof. destruct healthy; reflexivity. Qed.

Lemma slept_failEvents entry errText : slept (failEvents entry errText) = [].
Proof. reflexivity. Qed.

Section Runs.

Variable printable : N -> bool.
Variable g : Globals.

Lemma resolved_nonempty c : In c colors -> resolved g c <> "".
Proof.
  intros Hc. unfold resolved. destruct (String.eqb_spec (color g) ""); cbn.
  - now apply colors_nonempty.
  - assumption.
Qed.

Lemma serve_unfold body request wd c wd1 :
  resolveColor g wd = (Next c, wd1) ->
  serve printable g body request wd
  = (delay printable g body c (selectParams zeroColorParameters request c) ;;
     returnSuccess <- decideSuccess printable g body
                        (selectParams zeroColorParameters request c) ;;
     printColor c returnSuccess) wd1.
Proof. intros H. unfold serve. rewrite (bind_next _ _ _ _ _ H). reflexivity. Qed.

(** Once [LATENCY] and [ERROR_RATE] are unset or integers, the handler
    gets to [printColor]. *)
Lemma serve_prints body request wd :
  unsetOrInt (envLatency g) -> unsetOrInt (envErrorRate g) ->
  exists c n evs healthy,
    In c colors /\ forallb silent evs = true /\
    serve printable g body request wd
    = (Next tt, after wd n (evs ++ printEvents (resolved g c) healthy)).
Proof.
  intros HL HE.
  destruct (resolveColor_run g wd) as (c & Hc & Hres). fold (resolved g c) in Hres.
  rewrite (serve_unfold _ _ _ _ _ Hres).
  set (cp := selectParams zeroColorParameters request (resolved g c)).
  destruct (delay_passes printable g body (resolved g c) cp (after wd 1 []) HL)
    as (n1 & evs & Hdelay & Hsilent).
  rewrite (bind_next _ _ _ _ _ Hdelay).
  destruct (decideSuccess_passes printable g body cp (after (after wd 1 []) n1 evs) HE)
    as (healthy & n2 & Hdec).
  rewrite (bind_next _ _ _ _ _ Hdec).
  rewrite printColor_run by (apply resolved_nonempty; exact Hc).
  rewrite !after_after. cbn [app]. rewrite ?app_nil_r.
  exists c. eexists. exists evs, healthy.
  split; [exact Hc|]. split; [exact Hsilent|]. reflexivity.
Qed.

Lemma handle_accepted r draws request :
  ReadErr r = None -> accepts (Body r) request ->
  handle printable g r draws = serve printable g (Body r) request (newWorld draws).
Proof.
  intros Hr Ha. unfold handle, getColor. rewrite Hr.
  rewrite (bind_next _ _ _ _ _ (parseBody_accepts _ _ (newWorld draws) Ha)).
  reflexivity.
Qed.

End Runs.

Lemma body_cases body :
  (exists request, accepts body request)
  \/ (exists errText, body <> "" /\ body <> emptyArraySentinel
                      /\ json.Unmarshal body = inr errText).
Proof.
  unfold accepts.
  destruct (string_dec body "") as [->|H1]; [left; exists []; auto|].
  destruct (string_dec body emptyArraySentinel) as [->|H2]; [left; exists []; auto|].
  destruct (json.Unmarshal body) as [request|errText] eqn:H3.
  - left. exists request. auto.
  - right. exists errText. auto.
Qed.

Lemma override_cases s :
  unsetOrInt s \/ (s <> "" /\ exists e, strconv.Atoi s = inr e).
Proof.
  unfold unsetOrInt. destruct (string_dec s "") as [->|H]; [auto|].
  destruct (strconv.Atoi s) as [n|e] eqn:Hs; [left; right; eauto | right; eauto].
Qed.

Section Failures.

Variable printable : N -> bool.
Variable g : Globals.

(** Either the request gets to [serve], or it is answered 500 at once. *)
Lemma handle_front r draws :
  (exists request, ReadErr r = None /\ accepts (Body r) request)
  \/ (exists entry errText,
        handle printable g r draws
        = (Return, after (newWorld draws) 0 (failEvents entry errText))).
Proof.
  destruct (ReadErr r) as [errText|] eqn:Hr.
  - right. exists (Println [OpString errText]), errText.
    unfold handle, getColor. rewrite Hr. apply fail_run.
  - destruct (body_cases (Body r)) as [[request Ha] | (errText & H1 & H2 & H3)].
    + left. eauto.
    + right. exists (bodyEntry (Body r) errText), errText.
      unfold handle, getColor. rewrite Hr.
      apply bind_return, parseBody_rejects; assumption.
Qed.

Lemma failed_status entry errText draws n evs :
  forallb silent evs = true ->
  status (outcome (@Return unit,
                   after (newWorld draws) n (evs ++ failEvents entry errText)))
  = Some 500.
Proof.
  intros H. unfold outcome. cbn [snd after trace newWorld app].
  now rewrite (failEvents_response _ _ _ H).
Qed.

End Failures.

Lemma seconds_exact n :
  -9223372036 <= n <= 9223372036 -> seconds n = n * 1000000000.
Proof.
  intros H. unfold seconds, wrap64.
  rewrite Z.mod_small by lia. lia.
Qed.

(** ** The active parameter set *)

Lemma selectParams_app init a b c :
  selectParams init (a ++ b) c = selectParams (selectParams init a c) b c.
Proof. revert init. induction a as [|x a IH]; intros; cbn; [reflexivity | apply IH]. Qed.

Lemma selectParams_none init request c :
  (forall x, In x request -> Color x <> c) -> selectParams init request c = init.
Proof.
  revert init. induction request as [|x request IH]; intros init H; [reflexivity|].
  cbn. destruct (String.eqb_spec (Color x) c) as [E|_].
  - exfalso. apply (H x); [now left | exact E].
  - apply IH. intros y Hy. apply H. now right.
Qed.

(** ** Bodies that carry no parameters *)

Lemma visible_after (fl : flow unit) wd n evs1 evs2 :
  filter (fun e => negb (isLog e)) evs1 = filter (fun e => negb (isLog e)) evs2 ->
  visible (fl, after wd n evs1) = visible (fl, after wd n evs2).
Proof.
  intros H. unfold visible, after. cbn [fst snd rand trace].
  rewrite !filter_app, H. reflexivity.
Qed.

Lemma serve_body_irrelevant printable g b1 b2 request wd :
  visible (serve printable g b1 request wd) = visible (serve printable g b2 request wd).
Proof.
  destruct (resolveColor_run g wd) as (c & Hc & Hres). fold (resolved g c) in Hres.
  rewrite (serve_unfold _ _ b1 _ _ _ _ Hres), (serve_unfold _ _ b2 _ _ _ _ Hres).
  set (cp := selectParams zeroColorParameters request (resolved g c)).
  destruct (override_cases (envLatency g)) as [HL | (Hs & e & He)].
  2:{ rewrite (bind_return _ _ _ _ (delay_error printable g b1 _ _ _ e Hs He)).
      rewrite (bind_return _ _ _ _ (delay_error printable g b2 _ _ _ e Hs He)).
      apply visible_after. reflexivity. }
  assert (Hd : exists wd2, forall b,
             delay printable g b (resolved g c) cp (after wd 1 []) = (Next tt, wd2)).
  { destruct HL as [Hs | [latency H]].
    - eexists. intros b. apply delay_request; exact Hs.
    - eexists. intros b. eapply delay_forced; exact H. }
  destruct Hd as [wd2 Hd].
  rewrite (bind_next _ _ _ _ _ (Hd b1)), (bind_next _ _ _ _ _ (Hd b2)).
  destruct (override_cases (envErrorRate g)) as [HE | (Hs & e & He)].
  2:{ rewrite (bind_return _ _ _ _ (decideSuccess_error printable g b1 _ _ e Hs He)).
      rewrite (bind_return _ _ _ _ (decideSuccess_error printable g b2 _ _ e Hs He)).
      apply visible_after. reflexivity. }
  assert (Hs : exists b3 wd3, forall b,
             decideSuccess printable g b cp wd2 = (Next b3, wd3)).
  { destruct HE as [Hs | [rate H]].
    - eexists _, _. intros b. apply decideSuccess_request; exact Hs.
    - eexists _, _. intros b. eapply decideSuccess_forced; exact H. }
  destruct Hs as (b3 & wd3 & Hs).
  rewrite (bind_next _ _ _ _ _ (Hs b1)), (bind_next _ _ _ _ _ (Hs b2)).
  reflexivity.
Qed.

(* ================================================================== *)
(** * Facts about the decoder *)

(** ** What the decoder stores *)

Lemma parseUintLoop_nonneg s : forall n m,
  0 <= n -> strconv.parseUintLoop n s = inl m -> 0 <= m.
Proof.
  induction s as [|c t IH]; cbn; intros n m Hn H.
  - injection H as <-. exact Hn.
  - destruct (isDigit c); [|discriminate].
    destruct (_ <=? n); [discriminate|].
    destruct (_ <? _); [discriminate|].
    eapply IH; [|exact H]. lia.
Qed.

Lemma ParseInt_range s n :
  strconv.ParseInt s = inl n -> strconv.minInt64 <= n <= strconv.maxInt64.
Proof.
  unfold strconv.ParseInt. destruct s as [|c t]; [discriminate|].
  cbv zeta.
  match goal with |- context [strconv.ParseUint ?d] => set (digits := d) end.
  destruct (strconv.ParseUint digits) as [un|e] eqn:Hu; [|discriminate].
  assert (Hun : 0 <= un).
  { unfold strconv.ParseUint in Hu. destruct digits; [discriminate|].
    eapply parseUintLoop_nonneg; [|exact Hu]. lia. }
  unfold strconv.minInt64, strconv.maxInt64 in *.
  destruct (c =? "-")%char; cbn [negb andb].
  - destruct (Z.ltb_spec (9223372036854775807 + 1) un); [discriminate|].
    intros E. injection E as <-. lia.
  - destruct (Z.leb_spec (9223372036854775807 + 1) un); [discriminate|].
    intros E. injection E as <-. lia.
Qed.

Lemma storeInt_range f v n :
  json.storeInt f v = inl n -> strconv.minInt64 <= n <= strconv.maxInt64.
Proof.
  unfold json.storeInt. destruct v; try discriminate.
  destruct (strconv.ParseInt lit) as [m|] eqn:H; [|discriminate].
  intros E. injection E as <-. eapply ParseInt_range; eauto.
Qed.

Lemma inInt64_none : inInt64 None.
Proof. intros n H. discriminate. Qed.

Lemma inInt64_some n :
  strconv.minInt64 <= n <= strconv.maxInt64 -> inInt64 (Some n).
Proof. intros H m E. injection E as <-. exact H. Qed.

Lemma storeField_range cp key v cp' :
  probabilitiesInt64 cp -> json.storeField cp key v = inl cp' ->
  probabilitiesInt64 cp'.
Proof.
  intros [H1 H2]. unfold json.storeField.
  destruct (json.findField key) as [[]|].
  - destruct v; intros E; try discriminate; injection E as <-; split; assumption.
  - destruct v; try (intros E; injection E as <-; split; [apply inInt64_none | assumption]);
      (destruct (json.storeInt _ _) as [n|] eqn:Hs; [|discriminate];
       intros E; injection E as <-; split;
       [apply inInt64_some; eapply storeInt_range; eauto | assumption]).
  - destruct v; try (intros E; injection E as <-; split; assumption);
      (destruct (json.storeInt _ _) as [n|] eqn:Hs; [|discriminate];
       intros E; injection E as <-; split; assumption).
  - destruct v; try (intros E; injection E as <-; split; [assumption | apply inInt64_none]);
      (destruct (json.storeInt _ _) as [n|] eqn:Hs; [|discriminate];
       intros E; injection E as <-; split;
       [assumption | apply inInt64_some; eapply storeInt_range; eauto]).
  - intros E. injection E as <-. split; assumption.
Qed.

Lemma storeMembers_range ms : forall cp cp',
  probabilitiesInt64 cp -> json.storeMembers cp ms = inl cp' ->
  probabilitiesInt64 cp'.
Proof.
  induction ms as [|[key v] ms IH]; cbn; intros cp cp' H E.
  - injection E as <-. exact H.
  - destruct (json.storeField cp key v) as [cp1|] eqn:Hf; [|discriminate].
    eapply IH; [|exact E]. eapply storeField_range; eauto.
Qed.

Lemma zero_range : probabilitiesInt64 zeroColorParameters.
Proof. split; apply inInt64_none. Qed.

Lemma storeStruct_range v cp :
  json.storeStruct v = inl cp -> probabilitiesInt64 cp.
Proof.
  destruct v; cbn; intros E; try discriminate.
  - injection E as <-. apply zero_range.
  - eapply storeMembers_range; [apply zero_range | exact E].
Qed.

Lemma storeElements_range vs : forall request,
  json.storeElements vs = inl request -> Forall probabilitiesInt64 request.
Proof.
  induction vs as [|v vs IH]; cbn; intros request E.
  - injection E as <-. constructor.
  - destruct (json.storeStruct v) as [cp|] eqn:Hs; [|discriminate].
    destruct (json.storeElements vs) as [cps|]; [|discriminate].
    injection E as <-. constructor; [eapply storeStruct_range; eauto | auto].
Qed.

Lemma Unmarshal_range body request :
  json.Unmarshal body = inl request -> Forall probabilitiesInt64 request.
Proof.
  unfold json.Unmarshal. destruct (json.checkValid body); [discriminate|].
  destruct (json.readValue _ _) as [[v rest]|]; [|discriminate].
  destruct (json.storeSlice v) as [req|] eqn:Hs; [|discriminate].
  intros E. injection E as <-.
  destruct v; cbn in Hs; try discriminate.
  - injection Hs as <-. constructor.
  - eapply storeElements_range; eauto.
Qed.

(* ================================================================== *)
(** * Facts about the shutdown goroutine *)

Import shutdown.

Lemma reachable_init : reachable init.
Proof. split; reflexivity. Qed.

Lemma forallb_early_app a b :
  forallb early a = true -> forallb early b = true -> forallb early (a ++ b) = true.
Proof. intros. rewrite forallb_app. now apply andb_true_iff. Qed.

Lemma reachable_step td st i : reachable st -> reachable (step td st i).
Proof.
  destruct st as [p closed acts]. unfold reachable, step. cbn [at_ doneClosed did].
  destruct p; intros H; destruct i as [sig| |[err|]]; try exact H.
  - (* the first signal *)
    destruct H as [-> H].
    destruct (seconds td <=? 0); cbn; (split; [reflexivity|]);
      rewrite ?app_nil_r, <- ?app_assoc; apply forallb_early_app; auto.
  - (* a second signal *)
    destruct H as [-> H]. cbn. split; [reflexivity|].
    eexists. split; [|reflexivity]. apply forallb_early_app; auto.
  - (* the ticker *)
    destruct H as [-> H]. cbn. split; [reflexivity|]. eauto.
  - (* Shutdown failed *)
    destruct H as (-> & pre & Hpre & ->). cbn. split; [reflexivity|]. split; [reflexivity|].
    eexists pre, err, _. split; [exact Hpre|]. rewrite <- app_assoc. split; reflexivity.
  - (* Shutdown succeeded *)
    destruct H as (-> & pre & Hpre & ->). cbn. split; [reflexivity|].
    exists pre. split; [exact Hpre|]. rewrite <- !app_assoc. reflexivity.
Qed.

Lemma reachable_run td inputs : reachable (run td inputs).
Proof.
  unfold run. generalize reachable_init. generalize init.
  induction inputs as [|i inputs IH]; intros st H; [exact H|].
  cbn. apply IH, reachable_step, H.
Qed.

Lemma early_not_in a l : early a = false -> forallb early l = true -> ~ In a l.
Proof.
  intros Ha Hl Hin. rewrite forallb_forall in Hl. specialize (Hl a Hin). congruence.
Qed.

(** An element found once splits a list in one way *)
Lemma split_once {A} (x : A) a b a' b' :
  ~ In x a -> ~ In x b -> a ++ x :: b = a' ++ x :: b' -> a = a' /\ b = b'.
Proof.
  revert a'. induction a as [|y a IH]; intros a' Ha Hb E.
  - destruct a' as [|y' a']; cbn in E.
    + injection E as <-. auto.
    + injection E as <- E. exfalso. apply Hb. rewrite E. apply in_or_app. right. now left.
  - destruct a' as [|y' a']; cbn in E.
    + injection E as -> _. exfalso. apply Ha. now left.
    + injection E as <- E. destruct (IH a') as [-> ->]; auto.
      intros H. apply Ha. now right.
Qed.

(* ================================================================== *)
(** * The claims *)

(** ** C1: the COLOR override *)

(** C1, as the spec states it, fails on a body that does not decode: with
    COLOR=red and the body ["{"], the handler answers with the text of
    the decoding error, not with the colour. *)
Lemma color_override_malformed_body :
  color (mkGlobals "red" "" "") <> ""
  /\ handle noTable (mkGlobals "red" "" "") (mkRequest "{" None) []
     = (Return,
        mkWorld []
          [EvWriteHeader 500;
           EvLog (Printf "%s: %v"
                    [OpString "{"; OpString "unexpected end of JSON input"]);
           EvWrite "unexpected end of JSON input"])
  /\ written (outcome (handle noTable (mkGlobals "red" "" "")
                         (mkRequest "{" None) []))
     <> quoted "red".
Proof.
  split; [discriminate|]. split; [reflexivity|]. cbv. discriminate.
Qed.

(** C1 (amended).  If COLOR is set to a non-empty string, then for every
    request whose body is read without error and is empty, the sentinel
    or decodes as a list of records, and with LATENCY and ERROR_RATE
    each unset or an integer, the resolved colour is that of the
    override, the handler gets to the end, and the response body is the
    override between two double quotes, with status 200 or 500. *)

Theorem color_override_answers printable g r draws request :
  color g <> "" -> ReadErr r = None -> accepts (Body r) request ->
  unsetOrInt (envLatency g) -> unsetOrInt (envErrorRate g) ->
  (forall wd, exists wd', resolveColor g wd = (Next (color g), wd'))
  /\ fst (handle printable g r draws) = Next tt
  /\ written (outcome (handle printable g r draws)) = quoted (color g)
  /\ (status (outcome (handle printable g r draws)) = Some 200
      \/ status (outcome (handle printable g r draws)) = Some 500).
Proof.
  intros Hcol Hr Ha HL HE.
  assert (Hres : forall c, resolved g c = color g).
  { intros c. unfold resolved. apply String.eqb_neq in Hcol. now rewrite Hcol. }
  split.
  { intros wd. destruct (resolveColor_run g wd) as (c & _ & H).
    fold (resolved g c) in H. rewrite Hres in H. eauto. }
  rewrite (handle_accepted printable g r draws request Hr Ha).
  destruct (serve_prints printable g (Body r) request (newWorld draws) HL HE)
    as (c & n & evs & healthy & _ & Hsilent & ->).
  unfold outcome. cbn [fst snd after trace newWorld app].
  rewrite (printEvents_response _ _ _ Hsilent), Hres. cbn [written status].
  split; [reflexivity|]. split; [reflexivity|]. destruct healthy; auto.
Qed.

Lemma color_override_witness :
  color (mkGlobals "red" "" "") <> ""
  /\ written (outcome (handle noTable (mkGlobals "red" "" "")
                         (mkRequest (Q "[{'color':'red','return500':100}]") None)
                         [3; 50]))
     = quoted "red".
Proof.
  assert (H1 : color (mkGlobals "red" "" "") <> "") by discriminate.
  assert (H2 : ReadErr (mkRequest (Q "[{'color':'red','return500':100}]") None) = None)
    by reflexivity.
  assert (H3 : accepts (Body (mkRequest (Q "[{'color':'red','return500':100}]") None))
                 [mkColorParameters "red" None 0 (Some 100)]).
  { right. right. split; [discriminate|]. split; [discriminate | reflexivity]. }
  assert (H4 : unsetOrInt (envLatency (mkGlobals "red" "" ""))) by (left; reflexivity).
  assert (H5 : unsetOrInt (envErrorRate (mkGlobals "red" "" ""))) by (left; reflexivity).
  split; [exact H1|].
  exact (proj1 (proj2 (proj2
           (color_override_answers noTable _ _ [3; 50] _ H1 H2 H3 H4 H5)))).
Defined.

(** ** C2: the ERROR_RATE override *)

(** C2, as the spec states it, fails on a body that does not decode: with
    ERROR_RATE=0 and the body ["{"], the request is answered 500, and no
    value is drawn. *)
Lemma error_rate_zero_malformed_body :
  strconv.Atoi (envErrorRate (mkGlobals "" "0" "")) = inl 0
  /\ status (outcome (handle noTable (mkGlobals "" "0" "") (mkRequest "{" None) [5; 7]))
     = Some 500
  /\ status (outcome (handle noTable (mkGlobals "" "0" "") (mkRequest "{" None) [5; 7]))
     <> Some 200
  /\ rand (snd (handle noTable (mkGlobals "" "0" "") (mkRequest "{" None) [5; 7]))
     = [5; 7].
Proof.
  split; [reflexivity|]. split; [reflexivity|]. split; [discriminate | reflexivity].
Qed.

(** C2 (amended).  When ERROR_RATE holds an integer [rate]: the failure
    decision takes one fresh draw [d] of [[0,100)] and succeeds iff
    [rate <= d], whatever the return500 of the record; a request whose
    body is read and accepted, with LATENCY unset or an integer, is
    answered 200 iff [rate <= d] and 500 iff [d < rate], [d] being the
    second or the third value of the random source (the colour takes the
    first, the delay of the record may take one); with a rate of
    100 (or more) every request is answered 500, whatever is drawn; with
    a rate of 0 (or less) every request that gets to the decision is
    answered 200, whatever is drawn. *)

Theorem error_rate_override printable g rate :
  strconv.Atoi (envErrorRate g) = inl rate ->
  (* one fresh draw decides, whatever the record says *)
  (forall body cp wd,
      decideSuccess printable g body cp wd
      = (Next (rate <=? hd 0 (rand wd) mod 100),
         mkWorld (skipn 1 (rand wd)) (trace wd)))
  (* a request that gets to the decision succeeds iff the draw is not below the rate *)
  /\ (forall r draws request,
         ReadErr r = None -> accepts (Body r) request ->
         unsetOrInt (envLatency g) ->
         exists k d,
           (k = 1 \/ k = 2)%nat /\
           d = hd 0 (skipn k draws) mod 100 /\ 0 <= d < 100 /\
           (status (outcome (handle printable g r draws)) = Some 200 <-> rate <= d) /\
           (status (outcome (handle printable g r draws)) = Some 500 <-> d < rate))
  (* a rate of 100 or more fails every request *)
  /\ (100 <= rate ->
      forall r draws, status (outcome (handle printable g r draws)) = Some 500)
  (* a rate of 0 or less fails none of those that get to the decision *)
  /\ (rate <= 0 ->
      forall r draws request,
        ReadErr r = None -> accepts (Body r) request ->
        unsetOrInt (envLatency g) ->
        status (outcome (handle printable g r draws)) = Some 200).
Proof.
  intros Hrate.
  assert (Hdecide : forall body cp wd,
      decideSuccess printable g body cp wd
      = (Next (rate <=? hd 0 (rand wd) mod 100),
         mkWorld (skipn 1 (rand wd)) (trace wd))).
  { intros. rewrite (decideSuccess_forced printable g body cp wd rate Hrate).
    unfold after. now rewrite app_nil_r. }
  assert (Hserved : forall r draws request,
      ReadErr r = None -> accepts (Body r) request -> unsetOrInt (envLatency g) ->
      exists k, (k = 1 \/ k = 2)%nat /\
                status (outcome (handle printable g r draws))
                = Some (if rate <=? hd 0 (skipn k draws) mod 100 then 200 else 500)).
  { intros r draws request Hr Ha HL.
    rewrite (handle_accepted printable g r draws request Hr Ha).
    destruct (resolveColor_run g (newWorld draws)) as (c & Hc & Hres).
    fold (resolved g c) in Hres. rewrite (serve_unfold _ _ _ _ _ _ _ Hres).
    set (cp := selectParams zeroColorParameters request (resolved g c)).
    destruct (delay_passes_bounded printable g (Body r) (resolved g c) cp
                (after (newWorld draws) 1 []) HL)
      as (n1 & evs & Hn1 & Hdelay & Hsilent).
    rewrite (bind_next _ _ _ _ _ Hdelay).
    rewrite (bind_next _ _ _ _ _
               (decideSuccess_forced printable g (Body r) cp _ rate Hrate)).
    rewrite printColor_run by (apply resolved_nonempty; exact Hc).
    rewrite !after_after. unfold outcome. cbn [snd after trace rand newWorld app].
    rewrite ?app_nil_r, (printEvents_response _ _ _ Hsilent). cbn [status].
    exists (n1 + 1)%nat. split; [lia | reflexivity]. }
  split; [exact Hdecide|]. split; [|split].
  - intros r draws request Hr Ha HL.
    destruct (Hserved r draws request Hr Ha HL) as (k & Hk12 & Hk).
    exists k, (hd 0 (skipn k draws) mod 100). split; [exact Hk12|].
    split; [reflexivity|].
    split; [apply Z.mod_pos_bound; lia|]. rewrite Hk.
    destruct (Z.leb_spec rate (hd 0 (skipn k draws) mod 100)); split;
      split; intros Hst; try reflexivity; try discriminate; try lia.
  - intros Hhigh r draws.
    destruct (handle_front printable g r draws)
      as [(request & Hr & Ha) | (entry & errText & ->)].
    2:{ apply (failed_status entry errText draws 0%nat []). reflexivity. }
    destruct (override_cases (envLatency g)) as [HL | (Hs & e & He)].
    + destruct (Hserved r draws request Hr Ha HL) as (k & _ & ->).
      assert (0 <= hd 0 (skipn k draws) mod 100 < 100) by (apply Z.mod_pos_bound; lia).
      destruct (Z.leb_spec rate (hd 0 (skipn k draws) mod 100)); [lia | reflexivity].
    + rewrite (handle_accepted printable g r draws request Hr Ha).
      destruct (resolveColor_run g (newWorld draws)) as (c & Hc & Hres).
      fold (resolved g c) in Hres. rewrite (serve_unfold _ _ _ _ _ _ _ Hres).
      rewrite (bind_return _ _ _ _ (delay_error printable g _ _ _ _ e Hs He)).
      rewrite after_after. apply failed_status. reflexivity.
  - intros Hlow r draws request Hr Ha HL.
    destruct (Hserved r draws request Hr Ha HL) as (k & _ & ->).
    assert (0 <= hd 0 (skipn k draws) mod 100 < 100) by (apply Z.mod_pos_bound; lia).
    destruct (Z.leb_spec rate (hd 0 (skipn k draws) mod 100)); [reflexivity | lia].
Qed.

Lemma error_rate_override_witness :
  strconv.Atoi (envErrorRate (mkGlobals "" "100" "")) = inl 100
  /\ 100 <= 100
  /\ status (outcome (handle noTable (mkGlobals "" "100" "")
                        (mkRequest (Q "[{'color':'red','return500':0}]") None)
                        [4; 99]))
     = Some 500.
Proof.
  assert (H1 : strconv.Atoi (envErrorRate (mkGlobals "" "100" "")) = inl 100)
    by reflexivity.
  assert (H2 : 100 <= 100) by lia.
  split; [exact H1|]. split; [exact H2|].
  exact (proj1 (proj2 (proj2 (error_rate_override noTable _ 100 H1))) H2 _ _).
Defined.

(** ** C3: the LATENCY override *)

(** C3, as the spec states it, fails on a body that does not decode: with
    LATENCY=2 and the body ["{"], the request is answered without any
    sleep. *)
Lemma latency_malformed_body :
  strconv.Atoi (envLatency (mkGlobals "" "" "2")) = inl 2
  /\ slept (trace (snd (handle noTable (mkGlobals "" "" "2") (mkRequest "{" None) [5])))
     = []
  /\ status (outcome (handle noTable (mkGlobals "" "" "2") (mkRequest "{" None) [5]))
     = Some 500.
Proof.
  split; [reflexivity|]. split; reflexivity.
Qed.

(** C3 (amended).  When LATENCY holds an integer [latency]: the delay
    stage sleeps [time.Duration(latency) * time.Second], draws nothing
    and does not look at delayPercent or delayLength (the branch of the
    record is the [else] of the test on LATENCY); every request whose
    body is read and accepted sleeps exactly once, before anything is
    written to the response; and the duration is [latency] seconds as
    long as that many nanoseconds fit in 64 bits. *)

Theorem latency_override printable g latency :
  strconv.Atoi (envLatency g) = inl latency ->
  (* the delay stage sleeps, draws nothing and does not look at the record *)
  (forall body c cp wd,
      delay printable g body c cp wd
      = (Next tt,
         mkWorld (rand wd)
           (trace wd ++ [EvLog (Printf "Delaying %s %ds" [OpString c; OpInt latency]);
                         EvSleep (seconds latency)])))
  (* a request that gets there sleeps once, before anything is sent *)
  /\ (forall r draws request,
         ReadErr r = None -> accepts (Body r) request ->
         exists c rest,
           trace (snd (handle printable g r draws))
           = EvLog (Printf "Delaying %s %ds" [OpString c; OpInt latency])
               :: EvSleep (seconds latency) :: rest
           /\ slept rest = []
           /\ slept (trace (snd (handle printable g r draws))) = [seconds latency])
  (* which is [latency] seconds as long as the product fits in 64 bits *)
  /\ (-9223372036 <= latency <= 9223372036 -> seconds latency = latency * 1000000000).
Proof.
  intros Hlat. split; [|split; [|apply seconds_exact]].
  - intros. rewrite (delay_forced printable g body c cp wd latency Hlat). reflexivity.
  - intros r draws request Hr Ha.
    rewrite (handle_accepted printable g r draws request Hr Ha).
    destruct (resolveColor_run g (newWorld draws)) as (c & Hc & Hres).
    fold (resolved g c) in Hres. rewrite (serve_unfold _ _ _ _ _ _ _ Hres).
    set (cp := selectParams zeroColorParameters request (resolved g c)).
    rewrite (bind_next _ _ _ _ _
               (delay_forced printable g (Body r) (resolved g c) cp _ latency Hlat)).
    exists (resolved g c).
    destruct (override_cases (envErrorRate g)) as [HE | (Hs & e & He)].
    + destruct (decideSuccess_passes printable g (Body r) cp
                  (after (after (newWorld draws) 1 []) 0 (delayEvents (resolved g c) latency)) HE)
        as (healthy & n2 & Hdec).
      rewrite (bind_next _ _ _ _ _ Hdec).
      rewrite printColor_run by (apply resolved_nonempty; exact Hc).
      rewrite !after_after. cbn [snd after trace newWorld app delayEvents].
      eexists. split; [reflexivity|]. cbn [slept flat_map app].
      change (flat_map _ (printEvents (resolved g c) healthy))
        with (slept (printEvents (resolved g c) healthy)).
      rewrite slept_printEvents. split; reflexivity.
    + rewrite (bind_return _ _ _ _
                 (decideSuccess_error printable g (Body r) cp _ e Hs He)).
      rewrite !after_after. cbn [snd after trace newWorld app delayEvents].
      eexists. split; [reflexivity|]. split; reflexivity.
Qed.

Lemma latency_override_witness :
  strconv.Atoi (envLatency (mkGlobals "" "" "2")) = inl 2
  /\ -9223372036 <= 2 <= 9223372036
  /\ seconds 2 = 2 * 1000000000
  /\ delay noTable (mkGlobals "" "" "2") "" "red"
       (mkColorParameters "red" (Some 100) 7 None) (newWorld [1])
     = (Next tt,
        mkWorld [1]
          [EvLog (Printf "Delaying %s %ds" [OpString "red"; OpInt 2]);
           EvSleep (seconds 2)]).
Proof.
  assert (H1 : strconv.Atoi (envLatency (mkGlobals "" "" "2")) = inl 2) by reflexivity.
  assert (H2 : -9223372036 <= 2 <= 9223372036) by lia.
  split; [exact H1|]. split; [exact H2|]. split.
  - exact (proj2 (proj2 (latency_override noTable _ 2 H1)) H2).
  - exact (proj1 (latency_override noTable _ 2 H1) _ _ _ _).
Defined.

(** ** C4: the active parameter set *)

Lemma selectParams_last pre cp post c :
  Color cp = c -> (forall x, In x post -> Color x <> c) ->
  selectParams zeroColorParameters (pre ++ cp :: post) c = cp.
Proof.
  intros Hc Hpost. rewrite selectParams_app. cbn [selectParams].
  apply String.eqb_eq in Hc. rewrite Hc. now apply selectParams_none.
Qed.

(** Once the colour is resolved, what follows neither sleeps nor draws
    for the delay unless the record says so. *)
Lemma slept_after_delay printable g body c cp wd p :
  envLatency g = "" -> DelayProbability cp = Some p -> 99 <= p ->
  slept (trace (snd ((delay printable g body c cp ;;
                      returnSuccess <- decideSuccess printable g body cp ;;
                      printColor c returnSuccess) wd)))
  = slept (trace wd) ++ [seconds (DelayLength cp)].
Proof.
  intros Hs Hp H99.
  rewrite (bind_next _ _ _ _ _ (delay_request printable g body c cp wd Hs)).
  assert (Hd : 0 <= hd 0 (rand wd) mod 100 < 100) by (apply Z.mod_pos_bound; lia).
  assert (Hev : requestDelayEvents c cp (hd 0 (rand wd) mod 100)
                = delayEvents c (DelayLength cp)).
  { unfold requestDelayEvents. rewrite Hp.
    destruct (Z.ltb_spec 0 p); [|lia].
    destruct (Z.leb_spec (hd 0 (rand wd) mod 100) p); [reflexivity | lia]. }
  rewrite Hev.
  set (wd2 := after wd (delayDraws cp) (delayEvents c (DelayLength cp))).
  assert (Hwd2 : slept (trace wd2) = slept (trace wd) ++ [seconds (DelayLength cp)]).
  { unfold wd2, after. cbn [trace]. rewrite slept_app. reflexivity. }
  destruct (override_cases (envErrorRate g)) as [HE | (Hse & e & He)].
  - destruct (decideSuccess_passes printable g body cp wd2 HE) as (b & n & Hdec).
    rewrite (bind_next _ _ _ _ _ Hdec).
    destruct (string_dec c "") as [->|Hc].
    + unfold printColor. cbn [String.eqb].
      destruct (randomColor_run (after (after wd2 n [])
        0 ([EvHeaderSet "Content-Type" "text/plain; charset=utf-8";
            EvHeaderSet "X-Content-Type-Options" "nosniff"]
           ++ (if b then [EvWriteHeader 200]
               else [EvLog (Println [OpString "Returning 500"]); EvWriteHeader 500]))))
        as (c' & _ & Hrun).
      destruct b;
        unfold after, HeaderSet, WriteHeader, log, FprintfQuoted, emit, bind in *;
        cbn [rand trace skipn app snd] in *; rewrite <- ?app_assoc in *;
        cbn [app] in *; rewrite Hrun; cbn [snd trace];
        rewrite !slept_app, Hwd2; cbn; rewrite ?app_nil_r; reflexivity.
    + rewrite (printColor_run c b _ Hc). unfold after. cbn [snd trace].
      rewrite !slept_app, slept_printEvents, Hwd2. cbn. now rewrite !app_nil_r.
  - rewrite (bind_return _ _ _ _ (decideSuccess_error printable g body cp wd2 e Hse He)).
    unfold after. cbn [snd trace]. rewrite slept_app, Hwd2. cbn. now rewrite app_nil_r.
Qed.

(** C4.  For every list of records and every colour, the loop leaves in
    [colorParams] the last record whose colour is the resolved one, and
    the handler goes on with that record and no other: its delay and
    its failure decision are those of that record, whatever stands
    before it (a record of the colour with [delayPercent] 99 or more
    makes the request sleep its own [delayLength], not that of an
    earlier one).  If no record has the colour the loop leaves the
    zero value, which (without overrides from the environment) neither
    delays nor fails nor draws, and the request is served exactly as
    one that carries no record. *)

Theorem last_match_is_active :
  (forall pre cp post c,
      Color cp = c -> (forall x, In x post -> Color x <> c) ->
      selectParams zeroColorParameters (pre ++ cp :: post) c = cp)
  /\ (forall request c,
         (forall x, In x request -> Color x <> c) ->
         selectParams zeroColorParameters request c = zeroColorParameters)
  /\ (forall printable g body c wd,
         envLatency g = "" ->
         delay printable g body c zeroColorParameters wd = (Next tt, wd))
  /\ (forall printable g body wd,
         envErrorRate g = "" ->
         decideSuccess printable g body zeroColorParameters wd = (Next true, wd))
  /\ (forall printable g body request wd c wd1,
         resolveColor g wd = (Next c, wd1) ->
         (forall x, In x request -> Color x <> c) ->
         serve printable g body request wd = serve printable g body [] wd)
  (* the handler goes on with the last record of the colour, and with
     no other *)
  /\ (forall printable g body pre cp post wd c wd1,
         resolveColor g wd = (Next c, wd1) ->
         Color cp = c -> (forall x, In x post -> Color x <> c) ->
         serve printable g body (pre ++ cp :: post) wd
         = (delay printable g body c cp ;;
            returnSuccess <- decideSuccess printable g body cp ;;
            printColor c returnSuccess) wd1)
  (* ... so that its delay is the one slept, whatever stands before *)
  /\ (forall printable g body pre cp post wd c wd1 p,
         resolveColor g wd = (Next c, wd1) ->
         Color cp = c -> (forall x, In x post -> Color x <> c) ->
         envLatency g = "" -> DelayProbability cp = Some p -> 99 <= p ->
         slept (trace (snd (serve printable g body (pre ++ cp :: post) wd)))
         = slept (trace wd) ++ [seconds (DelayLength cp)]).
Proof.
  split; [|split; [|split; [|split; [|split; [|split]]]]].
  - intros pre cp post c Hc Hpost.
    rewrite selectParams_app. cbn [selectParams].
    apply String.eqb_eq in Hc. rewrite Hc. now apply selectParams_none.
  - intros. now apply selectParams_none.
  - intros. rewrite delay_request by assumption. cbn. apply f_equal, after_zero.
  - intros. rewrite decideSuccess_request by assumption. cbn. apply f_equal, after_zero.
  - intros printable g body request wd c wd1 Hres Hnone.
    rewrite (serve_unfold _ _ _ _ _ _ _ Hres), (serve_unfold _ _ _ [] _ _ _ Hres).
    rewrite selectParams_none by assumption. reflexivity.
  - intros printable g body pre cp post wd c wd1 Hres Hc Hpost.
    rewrite (serve_unfold _ _ _ _ _ _ _ Hres), (selectParams_last _ _ _ _ Hc Hpost).
    reflexivity.
  - intros printable g body pre cp post wd c wd1 p Hres Hc Hpost Hs Hp H99.
    rewrite (serve_unfold _ _ _ _ _ _ _ Hres), (selectParams_last _ _ _ _ Hc Hpost).
    rewrite (slept_after_delay printable g body c cp wd1 p Hs Hp H99).
    destruct (resolveColor_run g wd) as (c0 & _ & Hrun). rewrite Hrun in Hres.
    injection Hres as _ <-. unfold after. cbn [trace]. now rewrite app_nil_r.
Qed.

Lemma last_match_witness :
  resolveColor (mkGlobals "red" "" "") (newWorld [0; 5]) = (Next "red", mkWorld [5] [])
  /\ Color (mkColorParameters "red" (Some 100) 7 None) = "red"
  /\ (forall x, In x [mkColorParameters "blue" (Some 100) 9 None] -> Color x <> "red")
  /\ envLatency (mkGlobals "red" "" "") = ""
  /\ DelayProbability (mkColorParameters "red" (Some 100) 7 None) = Some 100
  /\ 99 <= 100
  /\ slept (trace (snd (serve noTable (mkGlobals "red" "" "") ""
                          ([mkColorParameters "red" (Some 100) 3 None]
                           ++ mkColorParameters "red" (Some 100) 7 None
                           :: [mkColorParameters "blue" (Some 100) 9 None])
                          (newWorld [0; 5]))))
     = [seconds 7]
  /\ selectParams zeroColorParameters
       ([mkColorParameters "red" (Some 100) 3 None]
        ++ mkColorParameters "red" (Some 100) 7 None
        :: [mkColorParameters "blue" (Some 100) 9 None])
       "red"
     = mkColorParameters "red" (Some 100) 7 None.
Proof.
  assert (H1 : resolveColor (mkGlobals "red" "" "") (newWorld [0; 5])
               = (Next "red", mkWorld [5] [])) by reflexivity.
  assert (H2 : Color (mkColorParameters "red" (Some 100) 7 None) = "red") by reflexivity.
  assert (H3 : forall x, In x [mkColorParameters "blue" (Some 100) 9 None] ->
                         Color x <> "red").
  { intros x [<-|[]]. discriminate. }
  assert (H4 : envLatency (mkGlobals "red" "" "") = "") by reflexivity.
  assert (H5 : DelayProbability (mkColorParameters "red" (Some 100) 7 None) = Some 100)
    by reflexivity.
  assert (H6 : 99 <= 100) by lia.
  split; [exact H1|]. split; [exact H2|]. split; [exact H3|]. split; [exact H4|].
  split; [exact H5|]. split; [exact H6|]. split.
  - exact (proj2 (proj2 (proj2 (proj2 (proj2 (proj2 last_match_is_active)))))
             noTable _ "" _ _ _ _ _ _ 100 H1 H2 H3 H4 H5 H6).
  - exact (proj1 last_match_is_active _ _ _ _ H2 H3).
Defined.

(** ** C5: bodies without parameters *)

(** C5.  The empty body and the sentinel (the four bytes of [[]] between
    double quotes) are taken without error, as is the two-byte body
    [[]]: each gives the empty list of records, so the request is
    served as one without per-request parameters, and any two of them
    are served alike (only the body echoed in a log line can differ). *)

Theorem empty_bodies_carry_no_parameters printable g :
  (* the empty body, the sentinel and an empty JSON array are taken
     without error, as no parameters at all *)
  (forall body wd,
      body = "" \/ body = emptyArraySentinel \/ body = "[]" ->
      parseBody body wd = (Next [], wd)
      /\ getColor printable g (mkRequest body None) wd = serve printable g body [] wd)
  (* and up to the body quoted in a log line they are served alike *)
  /\ (forall body1 body2 wd,
         (body1 = "" \/ body1 = emptyArraySentinel \/ body1 = "[]") ->
         (body2 = "" \/ body2 = emptyArraySentinel \/ body2 = "[]") ->
         visible (getColor printable g (mkRequest body1 None) wd)
         = visible (getColor printable g (mkRequest body2 None) wd)).
Proof.
  assert (H : forall body wd,
      body = "" \/ body = emptyArraySentinel \/ body = "[]" ->
      parseBody body wd = (Next [], wd)
      /\ getColor printable g (mkRequest body None) wd = serve printable g body [] wd).
  { intros body wd Hb.
    assert (Hp : parseBody body wd = (Next [], wd))
      by (destruct Hb as [-> | [-> | ->]]; reflexivity).
    split; [exact Hp|]. unfold getColor. cbn [ReadErr Body].
    now rewrite (bind_next _ _ _ _ _ Hp). }
  split; [exact H|].
  intros body1 body2 wd H1 H2.
  destruct (H body1 wd H1) as [_ ->]. destruct (H body2 wd H2) as [_ ->].
  apply serve_body_irrelevant.
Qed.

Lemma empty_bodies_witness :
  (emptyArraySentinel = "" \/ emptyArraySentinel = emptyArraySentinel
   \/ emptyArraySentinel = "[]")
  /\ parseBody emptyArraySentinel (newWorld [2]) = (Next [], newWorld [2])
  /\ visible (getColor noTable (mkGlobals "" "" "") (mkRequest "" None) (newWorld [2]))
     = visible (getColor noTable (mkGlobals "" "" "")
                  (mkRequest emptyArraySentinel None) (newWorld [2])).
Proof.
  assert (H1 : emptyArraySentinel = "" \/ emptyArraySentinel = emptyArraySentinel
               \/ emptyArraySentinel = "[]") by (right; left; reflexivity).
  assert (H2 : "" = "" \/ "" = emptyArraySentinel \/ "" = "[]") by (left; reflexivity).
  split; [exact H1|]. split.
  - exact (proj1 (proj1 (empty_bodies_carry_no_parameters noTable (mkGlobals "" "" ""))
                    _ (newWorld [2]) H1)).
  - exact (proj2 (empty_bodies_carry_no_parameters noTable (mkGlobals "" "" ""))
             _ _ (newWorld [2]) H2 H1).
Defined.

(** ** C6: a body that does not decode *)

(** C6 (the code departs from it).  The body ["%"] does not decode; the
    handler answers 500, draws nothing and sleeps not, but the response
    body is not the text of the decoding error: the text is used as a
    format, and its ['%'] is printed as a verb without operand. *)

Theorem percent_body_answer printable g draws :
  json.Unmarshal "%" = inr "invalid character '%' looking for beginning of value"
  /\ handle printable g (mkRequest "%" None) draws
     = (Return,
        mkWorld draws
          [EvWriteHeader 500;
           EvLog (Printf "%s: %v"
                    [OpString "%";
                     OpString "invalid character '%' looking for beginning of value"]);
           EvWrite "invalid character '%!'(MISSING) looking for beginning of value"])
  /\ written (outcome (handle printable g (mkRequest "%" None) draws))
     <> "invalid character '%' looking for beginning of value".
Proof.
  split; [reflexivity|]. split; [reflexivity|]. cbv. discriminate.
Qed.

(** ** C7: the probabilities of a decoded record *)

Lemma asciiEqualFold_length name : forall key,
  json.asciiEqualFold name key = true -> length name = length key.
Proof.
  induction name as [|a name IH]; intros [|b key] H; try discriminate; [reflexivity|].
  cbn in H. apply andb_true_iff in H as [_ H]. cbn. f_equal. now apply IH.
Qed.

Lemma findField_fold key f :
  json.findField key = Some f
  <-> json.asciiEqualFold (bytes (json.fieldName f)) key = true.
Proof.
  unfold json.findField. split.
  - intros H. apply find_some in H as [_ H]. exact H.
  - intros H. pose proof (asciiEqualFold_length _ _ H) as Hlen.
    cbn [find].
    destruct (json.asciiEqualFold (bytes (json.fieldName json.fColor)) key) eqn:E1.
    { apply asciiEqualFold_length in E1. destruct f; cbn in Hlen, E1; try reflexivity;
        rewrite <- Hlen in E1; discriminate. }
    destruct (json.asciiEqualFold (bytes (json.fieldName json.fDelayPercent)) key) eqn:E2.
    { apply asciiEqualFold_length in E2. destruct f; cbn in Hlen, E2; try reflexivity;
        rewrite <- Hlen in E2; discriminate. }
    destruct (json.asciiEqualFold (bytes (json.fieldName json.fDelayLength)) key) eqn:E3.
    { apply asciiEqualFold_length in E3. destruct f; cbn in Hlen, E3; try reflexivity;
        rewrite <- Hlen in E3; discriminate. }
    destruct (json.asciiEqualFold (bytes (json.fieldName json.fReturn500)) key) eqn:E4.
    { apply asciiEqualFold_length in E4. destruct f; cbn in Hlen, E4; try reflexivity;
        rewrite <- Hlen in E4; discriminate. }
    destruct f; congruence.
Qed.

(** What [storeMembers] leaves in the two pointer fields. *)
Lemma storeMembers_probabilities ms : forall cp cp',
  json.storeMembers cp ms = inl cp' ->
  match lastMember json.fDelayPercent ms with
  | None => DelayProbability cp' = DelayProbability cp
  | Some json.Null => DelayProbability cp' = None
  | Some (json.Number lit) =>
      exists n, strconv.ParseInt lit = inl n /\ DelayProbability cp' = Some n
  | Some _ => False
  end
  /\ match lastMember json.fReturn500 ms with
     | None => Return500Probability cp' = Return500Probability cp
     | Some json.Null => Return500Probability cp' = None
     | Some (json.Number lit) =>
         exists n, strconv.ParseInt lit = inl n /\ Return500Probability cp' = Some n
     | Some _ => False
     end.
Proof.
  induction ms as [|[key v] ms IH]; intros cp cp' H.
  - cbn in H. injection H as <-. split; reflexivity.
  - cbn [json.storeMembers] in H.
    destruct (json.storeField cp key v) as [cp1|] eqn:Hf; [|discriminate].
    destruct (IH cp1 cp' H) as [H1 H2]. cbn [lastMember].
    unfold json.storeField, json.storeInt in Hf.
    split.
    + destruct (lastMember json.fDelayPercent ms) as [w|]; [exact H1|].
      rewrite H1. clear H1 H2 IH H.
      destruct (json.findField key) as [[]|]; cbn [fieldEqb];
        destruct v; try discriminate;
        try (injection Hf as <-; reflexivity);
        try (destruct (strconv.ParseInt lit) as [n|] eqn:Hp; [|discriminate];
             injection Hf as <-; cbn; eauto).
    + destruct (lastMember json.fReturn500 ms) as [w|]; [exact H2|].
      rewrite H2. clear H1 H2 IH H.
      destruct (json.findField key) as [[]|]; cbn [fieldEqb];
        destruct v; try discriminate;
        try (injection Hf as <-; reflexivity);
        try (destruct (strconv.ParseInt lit) as [n|] eqn:Hp; [|discriminate];
             injection Hf as <-; cbn; eauto).
Qed.

Lemma storeStruct_record v cp : json.storeStruct v = inl cp -> recordOf v cp.
Proof.
  destruct v; cbn [json.storeStruct recordOf]; intros H; try discriminate.
  - injection H as <-. reflexivity.
  - destruct (storeMembers_probabilities _ _ _ H) as [H1 H2].
    unfold probabilityOf.
    split.
    + destruct (lastMember json.fDelayPercent members) as [[]|]; auto.
    + destruct (lastMember json.fReturn500 members) as [[]|]; auto.
Qed.

Lemma storeElements_records vs : forall request,
  json.storeElements vs = inl request -> Forall2 recordOf vs request.
Proof.
  induction vs as [|v vs IH]; cbn; intros request E.
  - injection E as <-. constructor.
  - destruct (json.storeStruct v) as [cp|] eqn:Hs; [|discriminate].
    destruct (json.storeElements vs) as [cps|]; [|discriminate].
    injection E as <-. constructor; [now apply storeStruct_record | auto].
Qed.

(** A body that decodes is an array, or [null]; each record comes from
    one element of the array. *)
Lemma Unmarshal_records body request :
  json.Unmarshal body = inl request ->
  exists vs rest,
    (json.readValue (S (String.length body)) (bytes body)
     = Some (json.Array vs, rest)
     \/ (json.readValue (S (String.length body)) (bytes body)
         = Some (json.Null, rest) /\ vs = []))
    /\ Forall2 recordOf vs request.
Proof.
  unfold json.Unmarshal. destruct (json.checkValid body); [discriminate|].
  destruct (json.readValue _ _) as [[v rest]|]; [|discriminate].
  destruct (json.storeSlice v) as [req|] eqn:Hs; [|discriminate].
  intros E. injection E as <-.
  destruct v; cbn in Hs; try discriminate.
  - injection Hs as <-. exists [], rest. split; [right; auto | constructor].
  - exists elems, rest. split; [now left | now apply storeElements_records].
Qed.

(** C7, as the spec states it, fails: the decoder stores whatever integer
    the body holds, such as 150 or -1. *)
Lemma probability_out_of_range :
  json.Unmarshal (Q "[{'color':'red','delayPercent':150,'return500':-1}]")
  = inl [mkColorParameters "red" (Some 150) 0 (Some (-1))]
  /\ ~ (0 <= 150 <= 100)
  /\ ~ (0 <= -1 <= 100).
Proof.
  split; [reflexivity|]. split; lia.
Qed.

(** C7 (amended).  Every record decoded from a request body has its delay
    probability and its failure probability, when present, as integers
    of the 64-bit [int] (the decoder does not confine them to
    [[0,100]]); [null] and a missing key both decode to nil, which is
    not what 0 decodes to, and a nil probability means that the record
    applies no delay, or no failure, and draws nothing.  For every
    body that decodes, each record comes from one element of the
    array, and each of its two probabilities is nil when no member of
    the element has the key (in any letter case) or when the last such
    member is [null], and is the integer of that last member
    otherwise. *)

Theorem decoded_probabilities printable g :
  (* what is stored is an int, of any value *)
  (forall body request,
      json.Unmarshal body = inl request -> Forall probabilitiesInt64 request)
  (* null and a missing key give nil, which 0 does not *)
  /\ json.Unmarshal (Q "[{'delayPercent':null,'return500':null}]")
     = inl [mkColorParameters "" None 0 None]
  /\ json.Unmarshal (Q "[{}]") = inl [mkColorParameters "" None 0 None]
  /\ json.Unmarshal (Q "[{'delayPercent':0,'return500':0}]")
     = inl [mkColorParameters "" (Some 0) 0 (Some 0)]
  (* nil is "do not apply" *)
  /\ (forall body c cp wd,
         envLatency g = "" -> DelayProbability cp = None ->
         delay printable g body c cp wd = (Next tt, wd))
  /\ (forall body cp wd,
         envErrorRate g = "" -> Return500Probability cp = None ->
         decideSuccess printable g body cp wd = (Next true, wd))
  (* in every record of every body: nil for a missing key and for null,
     the integer otherwise *)
  /\ (forall body request,
         json.Unmarshal body = inl request ->
         exists vs rest,
           (json.readValue (S (String.length body)) (bytes body)
            = Some (json.Array vs, rest)
            \/ (json.readValue (S (String.length body)) (bytes body)
                = Some (json.Null, rest) /\ vs = []))
           /\ Forall2 recordOf vs request)
  (* a key stands for a field when it is its name, in any letter case *)
  /\ (forall key f,
         json.findField key = Some f
         <-> json.asciiEqualFold (bytes (json.fieldName f)) key = true).
Proof.
  split; [exact Unmarshal_range|].
  split; [reflexivity|]. split; [reflexivity|]. split; [reflexivity|].
  split; [|split; [|split; [exact Unmarshal_records | exact findField_fold]]].
  - intros body c cp wd Hs Hp. rewrite delay_request by assumption.
    unfold delayDraws, requestDelayEvents. rewrite Hp. apply f_equal, after_zero.
  - intros body cp wd Hs Hp. rewrite decideSuccess_request by assumption.
    unfold failureDraws, requestSuccess. rewrite Hp. apply f_equal, after_zero.
Qed.

Lemma decoded_probabilities_witness :
  json.Unmarshal (Q "[{'color':'red','delayPercent':150}]")
  = inl [mkColorParameters "red" (Some 150) 0 None]
  /\ Forall probabilitiesInt64 [mkColorParameters "red" (Some 150) 0 None]
  /\ exists vs rest,
       (json.readValue
          (S (String.length (Q "[{'color':'red','delayPercent':150}]")))
          (bytes (Q "[{'color':'red','delayPercent':150}]"))
        = Some (json.Array vs, rest)
        \/ (json.readValue
              (S (String.length (Q "[{'color':'red','delayPercent':150}]")))
              (bytes (Q "[{'color':'red','delayPercent':150}]"))
            = Some (json.Null, rest) /\ vs = []))
       /\ Forall2 recordOf vs [mkColorParameters "red" (Some 150) 0 None].
Proof.
  assert (H1 : json.Unmarshal (Q "[{'color':'red','delayPercent':150}]")
               = inl [mkColorParameters "red" (Some 150) 0 None]) by reflexivity.
  split; [exact H1|]. split.
  - exact (proj1 (decoded_probabilities noTable (mkGlobals "" "" "")) _ _ H1).
  - exact (proj1 (proj2 (proj2 (proj2 (proj2 (proj2 (proj2
             (decoded_probabilities noTable (mkGlobals "" "" ""))))))))
             _ _ H1).
Defined.

(** ** C8: the random colour *)

(** C8.  The palette has six entries and the index computed from a
    non-negative [rand.Int()] is within them; every call of
    [randomColor] returns an entry of the palette (and takes one value
    from the random source); so a request served without COLOR that
    gets to [printColor] sends an entry of the palette between double
    quotes. *)

Theorem random_color_in_palette :
  (* the index is within the six entries *)
  (length colors = 6%nat /\
   forall r, 0 <= r -> 0 <= Z.rem r (Z.of_nat (length colors)) < Z.of_nat (length colors))
  (* every call returns an entry, taking one value from the source *)
  /\ (forall wd, exists c,
         In c colors /\
         randomColor wd = (Next c, mkWorld (skipn 1 (rand wd)) (trace wd)))
  (* a request without COLOR that gets to printColor sends an entry *)
  /\ (forall printable g r draws,
         color g = "" ->
         fst (handle printable g r draws) = Next tt ->
         exists c, In c colors /\
                   written (outcome (handle printable g r draws)) = quoted c).
Proof.
  split; [|split].
  - split; [reflexivity|]. intros r Hr. change (Z.of_nat (length colors)) with 6.
    rewrite Z.rem_mod_nonneg by lia. apply Z.mod_pos_bound. lia.
  - intros wd. destruct (randomColor_run wd) as (c & Hc & H). exists c.
    split; [exact Hc|]. rewrite H. unfold after. now rewrite app_nil_r.
  - intros printable g r draws Hcol Hnext.
    destruct (handle_front printable g r draws)
      as [(request & Hr & Ha) | (entry & errText & E)].
    2:{ rewrite E in Hnext. discriminate. }
    rewrite (handle_accepted printable g r draws request Hr Ha) in *.
    destruct (override_cases (envLatency g)) as [HL | (Hs & e & He)].
    2:{ exfalso. revert Hnext.
        destruct (resolveColor_run g (newWorld draws)) as (c & Hc & Hres).
        rewrite (serve_unfold _ _ _ _ _ _ _ Hres).
        rewrite (bind_return _ _ _ _ (delay_error printable g _ _ _ _ e Hs He)).
        discriminate. }
    destruct (override_cases (envErrorRate g)) as [HE | (Hs & e & He)].
    2:{ exfalso. revert Hnext.
        destruct (resolveColor_run g (newWorld draws)) as (c & Hc & Hres).
        rewrite (serve_unfold _ _ _ _ _ _ _ Hres).
        destruct (delay_passes printable g (Body r)
                    (if negb (color g =? "")%string then color g else c)
                    (selectParams zeroColorParameters request
                       (if negb (color g =? "")%string then color g else c))
                    (after (newWorld draws) 1 []) HL) as (n1 & evs & Hdelay & _).
        rewrite (bind_next _ _ _ _ _ Hdelay).
        rewrite (bind_return _ _ _ _ (decideSuccess_error printable g _ _ _ e Hs He)).
        discriminate. }
    destruct (serve_prints printable g (Body r) request (newWorld draws) HL HE)
      as (c & n & evs & healthy & Hc & Hsilent & E).
    rewrite E. exists c. split; [exact Hc|].
    unfold outcome. cbn [snd after trace newWorld app].
    rewrite (printEvents_response _ _ _ Hsilent). cbn [written].
    unfold resolved. rewrite Hcol. reflexivity.
Qed.

Lemma random_color_witness :
  0 <= 9223372036854775807
  /\ 0 <= Z.rem 9223372036854775807 (Z.of_nat (length colors))
       < Z.of_nat (length colors)
  /\ color (mkGlobals "" "" "") = ""
  /\ fst (handle noTable (mkGlobals "" "" "") (mkRequest "" None) [9]) = Next tt
  /\ exists c, In c colors
       /\ written (outcome (handle noTable (mkGlobals "" "" "") (mkRequest "" None) [9]))
          = quoted c.
Proof.
  assert (H1 : 0 <= 9223372036854775807) by lia.
  assert (H2 : color (mkGlobals "" "" "") = "") by reflexivity.
  assert (H3 : fst (handle noTable (mkGlobals "" "" "") (mkRequest "" None) [9])
               = Next tt) by reflexivity.
  split; [exact H1|]. split.
  - exact (proj2 (proj1 random_color_in_palette) _ H1).
  - split; [exact H2|]. split; [exact H3|].
    exact (proj2 (proj2 random_color_in_palette) noTable _ _ _ H2 H3).
Defined.

(** ** C9: the shutdown signal *)

(** C9.  Whatever the goroutine is handed, and in whatever order, it
    closes [done] at most once, and only right after [server.Shutdown],
    called with a timeout of 30 seconds, has returned nil; [done] is
    closed exactly when that has happened; and once [server.Shutdown]
    has returned an error the process has exited with status 1
    ([log.Fatalf]) and [done] is not closed, and never will be. *)

Theorem done_closed_once_after_shutdown td inputs :
  (* close(done) happens at most once, right after Shutdown returned nil *)
  (forall pre post,
      did (run td inputs) = pre ++ CloseDone :: post ->
      ~ In CloseDone pre /\ ~ In CloseDone post /\
      exists pre', pre = pre' ++ [WithTimeout 30000000000; CallShutdown;
                                  ShutdownReturned None])
  (* the channel is closed exactly when that has happened *)
  /\ (doneClosed (run td inputs) = true <-> In CloseDone (did (run td inputs)))
  (* a failed Shutdown ends the process with the channel open *)
  /\ (forall err,
         In (ShutdownReturned (Some err)) (did (run td inputs)) ->
         at_ (run td inputs) = Exited 1 /\ doneClosed (run td inputs) = false /\ ~ In CloseDone (did (run td inputs))).
Proof.
  set (st := run td inputs). pose proof (reachable_run td inputs) as H. fold st in H.
  unfold reachable in H.
  assert (Hearly : forall l, forallb early l = true ->
            ~ In CloseDone l /\ forall err, ~ In (ShutdownReturned err) l).
  { intros l Hl. split; [|intros err]; apply early_not_in; auto. }
  destruct (at_ st) eqn:Hat.
  1,2,6: destruct H as [Hc Hl]; destruct (Hearly _ Hl) as [Hn1 Hn2];
    (split; [|split]);
    [ intros pre post E; exfalso; apply Hn1; rewrite E; apply in_or_app; right; now left
    | rewrite Hc; split; [discriminate | intros Hin; contradiction]
    | intros err Hin; exfalso; exact (Hn2 _ Hin) ].
  - (* waiting for Shutdown *)
    destruct H as (Hc & pre0 & Hpre & Hdid).
    destruct (Hearly _ Hpre) as [Hn1 Hn2].
    assert (HnC : ~ In CloseDone (did st)).
    { rewrite Hdid. intros Hin. apply in_app_or in Hin as [Hin|Hin]; [auto|].
      cbv in Hin. intuition discriminate. }
    split; [|split].
    + intros pre post E. exfalso. apply HnC. rewrite E. apply in_or_app. right. now left.
    + rewrite Hc. split; [discriminate | intros Hin; contradiction].
    + intros err Hin. exfalso. rewrite Hdid in Hin.
      apply in_app_or in Hin as [Hin|Hin]; [exact (Hn2 _ Hin)|].
      cbv in Hin. intuition discriminate.
  - (* returned *)
    destruct H as (Hc & pre0 & Hpre & Hdid).
    destruct (Hearly _ Hpre) as [Hn1 Hn2].
    split; [|split].
    + intros pre post E. rewrite Hdid in E.
      change (pre0 ++ callShutdown ++ closing)
        with (pre0 ++ callShutdown ++ [ShutdownReturned None] ++ CloseDone :: [Cancel; TickerStop]) in E.
      rewrite !app_assoc in E.
      apply split_once in E as [<- <-].
      * split; [|split].
        -- intros Hin. apply in_app_or in Hin as [Hin|Hin]; [|cbv in Hin; intuition discriminate].
           apply in_app_or in Hin as [Hin|Hin]; [auto | cbv in Hin; intuition discriminate].
        -- cbv. intuition discriminate.
        -- exists pre0. rewrite <- app_assoc. reflexivity.
      * intros Hin. apply in_app_or in Hin as [Hin|Hin]; [|cbv in Hin; intuition discriminate].
        apply in_app_or in Hin as [Hin|Hin]; [auto | cbv in Hin; intuition discriminate].
      * cbv. intuition discriminate.
    + rewrite Hc, Hdid. split; [intros _ | reflexivity].
      apply in_or_app. right. cbv. auto.
    + intros err Hin. exfalso. rewrite Hdid in Hin.
      apply in_app_or in Hin as [Hin|Hin]; [exact (Hn2 _ Hin)|].
      cbv in Hin. intuition discriminate.
  - (* exited *)
    destruct H as (Hcode & Hc & pre0 & err0 & entry & Hpre & Hdid & Hentry).
    destruct (Hearly _ Hpre) as [Hn1 Hn2].
    assert (HnC : ~ In CloseDone (did st)).
    { rewrite Hdid. intros Hin. apply in_app_or in Hin as [Hin|Hin]; [auto|].
      cbn in Hin. destruct Hin as [Hin|[Hin|[Hin|[Hin|[]]]]]; try discriminate.
      subst entry. discriminate. }
    split; [|split].
    + intros pre post E. exfalso. apply HnC. rewrite E. apply in_or_app. right. now left.
    + rewrite Hc. split; [discriminate | intros Hin; contradiction].
    + intros err _. subst code. auto.
Qed.

Lemma done_closed_witness :
  did (run 10 [Quit SIGTERM; Tick; ShutdownReturns None])
  = [SetKeepAlivesEnabled false;
     LogPrintf "Signal %v caught. Shutting down in %vs"
       [OpString "terminated"; OpInt 10];
     NewTicker 10000000000;
     WithTimeout 30000000000; CallShutdown; ShutdownReturned None]
    ++ CloseDone :: [Cancel; TickerStop]
  /\ In (ShutdownReturned (Some "context deadline exceeded"))
        (did (run 10 [Quit SIGINT; Quit SIGINT;
                      ShutdownReturns (Some "context deadline exceeded");
                      ShutdownReturns None]))
  /\ ~ In CloseDone [Cancel; TickerStop]
  /\ doneClosed (run 10 [Quit SIGINT; Quit SIGINT;
                         ShutdownReturns (Some "context deadline exceeded");
                         ShutdownReturns None]) = false.
Proof.
  assert (H1 : did (run 10 [Quit SIGTERM; Tick; ShutdownReturns None])
    = [SetKeepAlivesEnabled false;
       LogPrintf "Signal %v caught. Shutting down in %vs"
         [OpString "terminated"; OpInt 10];
       NewTicker 10000000000;
       WithTimeout 30000000000; CallShutdown; ShutdownReturned None]
      ++ CloseDone :: [Cancel; TickerStop]) by reflexivity.
  assert (H2 : In (ShutdownReturned (Some "context deadline exceeded"))
        (did (run 10 [Quit SIGINT; Quit SIGINT;
                      ShutdownReturns (Some "context deadline exceeded");
                      ShutdownReturns None]))).
  { vm_compute. right. right. right. right. right. right. left. reflexivity. }
  split; [exact H1|]. split; [exact H2|]. split.
  - exact (proj1 (proj2 (proj1 (done_closed_once_after_shutdown 10 _) _ _ H1))).
  - exact (proj1 (proj2 (proj2 (proj2 (done_closed_once_after_shutdown 10 _)) _ H2))).
Defined.

(** ** C10: the error text as a format *)

(** C10.  On each of the four error paths of the handler (the body
    cannot be read; it does not decode; LATENCY is not an integer;
    ERROR_RATE is not an integer) the response is 500 and its body is
    the error text printed as a format with no operands,
    [fmt.Sprintf(errText)]; and a format is printed as it stands if and
    only if it holds no ['%']: the body is the error text only when the
    text has no formatting verb. *)

Theorem error_text_is_the_format printable g :
  (* the body could not be read *)
  (forall r draws errText,
      ReadErr r = Some errText ->
      handle printable g r draws
      = (Return,
         mkWorld draws
           [EvWriteHeader 500; EvLog (Println [OpString errText]);
            EvWrite (fmt.Sprintf errText)]))
  (* the body is not JSON for a list of records *)
  /\ (forall r draws errText,
         ReadErr r = None -> Body r <> "" -> Body r <> emptyArraySentinel ->
         json.Unmarshal (Body r) = inr errText ->
         handle printable g r draws
         = (Return,
            mkWorld draws
              [EvWriteHeader 500;
               EvLog (Printf "%s: %v" [OpString (Body r); OpString errText]);
               EvWrite (fmt.Sprintf errText)]))
  (* LATENCY is not an integer *)
  /\ (forall r draws request e,
         ReadErr r = None -> accepts (Body r) request ->
         envLatency g <> "" -> strconv.Atoi (envLatency g) = inr e ->
         fst (handle printable g r draws) = Return
         /\ status (outcome (handle printable g r draws)) = Some 500
         /\ written (outcome (handle printable g r draws))
            = fmt.Sprintf (strconv.AtoiError printable (envLatency g) e))
  (* ERROR_RATE is not an integer *)
  /\ (forall r draws request e,
         ReadErr r = None -> accepts (Body r) request ->
         unsetOrInt (envLatency g) ->
         envErrorRate g <> "" -> strconv.Atoi (envErrorRate g) = inr e ->
         fst (handle printable g r draws) = Return
         /\ status (outcome (handle printable g r draws)) = Some 500
         /\ written (outcome (handle printable g r draws))
            = fmt.Sprintf (strconv.AtoiError printable (envErrorRate g) e))
  (* and a format comes out as it went in only if it holds no '%' *)
  /\ (forall errText,
         fmt.Sprintf errText = errText
         <-> ~ In "%"%char (list_ascii_of_string errText)).
Proof.
  split; [|split; [|split; [|split]]].
  - intros r draws errText Hr. unfold handle, getColor. rewrite Hr.
    rewrite fail_run. reflexivity.
  - intros r draws errText Hr H1 H2 H3. unfold handle, getColor. rewrite Hr.
    rewrite (bind_return _ _ _ _ (parseBody_rejects _ _ _ H1 H2 H3)). reflexivity.
  - intros r draws request e Hr Ha Hs He.
    rewrite (handle_accepted printable g r draws request Hr Ha).
    destruct (resolveColor_run g (newWorld draws)) as (c & Hc & Hres).
    rewrite (serve_unfold _ _ _ _ _ _ _ Hres).
    rewrite (bind_return _ _ _ _ (delay_error printable g _ _ _ _ e Hs He)).
    rewrite after_after. split; [reflexivity|].
    unfold outcome. cbn [snd after trace newWorld app].
    split; reflexivity.
  - intros r draws request e Hr Ha HL Hs He.
    rewrite (handle_accepted printable g r draws request Hr Ha).
    destruct (resolveColor_run g (newWorld draws)) as (c & Hc & Hres).
    rewrite (serve_unfold _ _ _ _ _ _ _ Hres).
    match goal with |- context [delay printable g ?b ?c ?cp] =>
      destruct (delay_passes printable g b c cp (after (newWorld draws) 1 []) HL)
        as (n1 & evs & Hdelay & Hsilent) end.
    rewrite (bind_next _ _ _ _ _ Hdelay).
    rewrite (bind_return _ _ _ _ (decideSuccess_error printable g _ _ _ e Hs He)).
    rewrite !after_after. split; [reflexivity|].
    unfold outcome. cbn [snd after trace newWorld app].
    rewrite (failEvents_response _ _ _ Hsilent). split; reflexivity.
  - apply Sprintf_id_iff.
Qed.

Lemma error_text_witness :
  ReadErr (mkRequest "" (Some "read: 100% lost")) = Some "read: 100% lost"
  /\ handle noTable (mkGlobals "" "" "") (mkRequest "" (Some "read: 100% lost")) [1]
     = (Return,
        mkWorld [1]
          [EvWriteHeader 500; EvLog (Println [OpString "read: 100% lost"]);
           EvWrite (fmt.Sprintf "read: 100% lost")])
  /\ fmt.Sprintf "unexpected EOF" = "unexpected EOF"
  /\ ~ In "%"%char (list_ascii_of_string "unexpected EOF").
Proof.
  assert (H1 : ReadErr (mkRequest "" (Some "read: 100% lost")) = Some "read: 100% lost")
    by reflexivity.
  assert (H2 : fmt.Sprintf "unexpected EOF" = "unexpected EOF") by reflexivity.
  split; [exact H1|]. split.
  - exact (proj1 (error_text_is_the_format noTable (mkGlobals "" "" "")) _ [1] _ H1).
  - split; [exact H2|].
    exact (proj1 (proj2 (proj2 (proj2 (proj2
             (error_text_is_the_format noTable (mkGlobals "" "" ""))))) _) H2).
Defined.

(* ================================================================== *)
(** * Further properties of the handler *)

(** ** The shape of a run *)

Section Shape.

Variable printable : N -> bool.
Variable g : Globals.

Lemma delay_shape body c cp wd :
  unsetOrInt (envLatency g) ->
  exists n evs, (n <= 1)%nat
                /\ delay printable g body c cp wd = (Next tt, after wd n evs)
                /\ (evs = [] \/ exists m, evs = delayEvents c m).
Proof.
  intros [Hs | [latency H]].
  - exists (delayDraws cp). eexists. split; [apply delayDraws_bound|].
    split; [apply delay_request; exact Hs|].
    unfold requestDelayEvents. destruct (DelayProbability cp); [|now left].
    destruct (_ && _); [right; eauto | now left].
  - exists 0%nat. eexists. split; [lia|].
    split; [eapply delay_forced; exact H | right; eauto].
Qed.

Lemma decideSuccess_shape body cp wd :
  unsetOrInt (envErrorRate g) ->
  exists b n, (n <= 1)%nat
              /\ decideSuccess printable g body cp wd = (Next b, after wd n []).
Proof.
  intros [Hs | [rate H]].
  - eexists _, (failureDraws cp). split; [|apply decideSuccess_request; exact Hs].
    unfold failureDraws. destruct (Return500Probability cp) as [p|]; [|lia].
    destruct (0 <? p); lia.
  - eexists _, 1%nat. split; [lia|]. eapply decideSuccess_forced; exact H.
Qed.

(** Every run of the handler: at most three values taken from the
    source, possibly a delay, and then either the colour or an error. *)
Lemma handle_shape r draws :
  exists k pre tail (fl : flow unit),
    handle printable g r draws = (fl, after (newWorld draws) k (pre ++ tail))
    /\ (k <= 3)%nat
    /\ (pre = [] \/ exists c n, pre = delayEvents c n)
    /\ ((fl = Next tt /\ (1 <= k)%nat
         /\ exists c healthy, In c colors
                              /\ tail = printEvents (resolved g c) healthy)
        \/ (fl = Return
            /\ exists entry errText,
                 tail = failEvents entry errText
                 /\ (entry = Println [OpString errText]
                     \/ entry = bodyEntry (Body r) errText))).
Proof.
  assert (Hfront :
    (exists request, ReadErr r = None /\ accepts (Body r) request)
    \/ (exists entry errText,
          handle printable g r draws
          = (Return, after (newWorld draws) 0 (failEvents entry errText))
          /\ (entry = Println [OpString errText]
              \/ entry = bodyEntry (Body r) errText))).
  { destruct (ReadErr r) as [errText|] eqn:Hr.
    - right. exists (Println [OpString errText]), errText.
      split; [|now left]. unfold handle, getColor. rewrite Hr. apply fail_run.
    - destruct (body_cases (Body r)) as [[request Ha] | (errText & H1 & H2 & H3)].
      + left. eauto.
      + right. exists (bodyEntry (Body r) errText), errText.
        split; [|now right]. unfold handle, getColor. rewrite Hr.
        apply bind_return, parseBody_rejects; assumption. }
  destruct Hfront as [(request & Hr & Ha) | (entry & errText & E & Hentry)].
  2:{ exists 0%nat, [], (failEvents entry errText), Return.
      split; [exact E|]. split; [lia|]. split; [now left|]. right. eauto. }
  rewrite (handle_accepted printable g r draws request Hr Ha).
  destruct (resolveColor_run g (newWorld draws)) as (c & Hc & Hres).
  fold (resolved g c) in Hres. rewrite (serve_unfold _ _ _ _ _ _ _ Hres).
  set (cp := selectParams zeroColorParameters request (resolved g c)).
  destruct (override_cases (envLatency g)) as [HL | (Hs & e & He)].
  2:{ rewrite (bind_return _ _ _ _ (delay_error printable g _ _ _ _ e Hs He)).
      rewrite after_after. eexists 1%nat, [], _, Return.
      split; [reflexivity|]. split; [lia|]. split; [now left|]. right.
      split; [reflexivity|]. eexists _, _. split; [reflexivity | now right]. }
  destruct (delay_shape (Body r) (resolved g c) cp (after (newWorld draws) 1 []) HL)
    as (n1 & evs & Hn1 & Hdelay & Hevs).
  rewrite (bind_next _ _ _ _ _ Hdelay), after_after. cbn [app].
  destruct (override_cases (envErrorRate g)) as [HE | (Hs & e & He)].
  2:{ rewrite (bind_return _ _ _ _ (decideSuccess_error printable g _ _ _ e Hs He)).
      rewrite after_after. eexists (0 + (n1 + 1))%nat, evs, _, Return.
      split; [reflexivity|]. split; [lia|].
      split; [destruct Hevs as [?|[m ?]]; eauto|]. right.
      split; [reflexivity|]. eexists _, _. split; [reflexivity | now right]. }
  destruct (decideSuccess_shape (Body r) cp (after (newWorld draws) (n1 + 1) evs) HE)
    as (healthy & n2 & Hn2 & Hdec).
  rewrite (bind_next _ _ _ _ _ Hdec).
  rewrite printColor_run by (apply resolved_nonempty; exact Hc).
  rewrite !after_after. cbn [app]. rewrite ?app_nil_r.
  eexists (0 + (n2 + (n1 + 1)))%nat, evs, _, (Next tt).
  split; [reflexivity|]. split; [lia|].
  split; [destruct Hevs as [?|[m ?]]; eauto|]. left.
  split; [reflexivity|]. split; [lia|]. eauto.
Qed.

Lemma pre_silent (pre : list event) :
  (pre = [] \/ exists c n, pre = delayEvents c n) -> forallb silent pre = true.
Proof. intros [->|(c & n & ->)]; reflexivity. Qed.

End Shape.

(** X1.  Whatever the request and the environment, the handler does not
    panic; it calls [WriteHeader] exactly once, with 200 or 500, then
    writes the body exactly once, as the last thing it does; a run that
    ends in one of the error [return]s has status 500. *)

Theorem one_header_then_one_write printable g r draws :
  (fst (handle printable g r draws) = Next tt
   \/ fst (handle printable g r draws) = Return)
  /\ exists before code between p,
       trace (snd (handle printable g r draws))
       = before ++ EvWriteHeader code :: between ++ [EvWrite p]
       /\ forallb (fun e => negb (isWriteHeader e || isWrite e))
            (before ++ between) = true
       /\ (code = 200 \/ code = 500)
       /\ (fst (handle printable g r draws) = Return -> code = 500)
       /\ status (outcome (handle printable g r draws)) = Some code
       /\ written (outcome (handle printable g r draws)) = p.
Proof.
  destruct (handle_shape printable g r draws)
    as (k & pre & tail & fl & -> & _ & Hpre & Htail).
  pose proof (pre_silent pre Hpre) as Hsilent.
  assert (Hquiet : forallb (fun e => negb (isWriteHeader e || isWrite e)) pre = true)
    by (destruct Hpre as [->|(c & n & ->)]; reflexivity).
  unfold outcome. cbn [fst snd after trace newWorld app].
  destruct Htail as [(-> & _ & c & healthy & _ & ->) | (-> & entry & errText & -> & _)].
  - split; [now left|]. rewrite (printEvents_response _ _ _ Hsilent). cbn [status written].
    destruct healthy.
    + exists (pre ++ [EvHeaderSet "Content-Type" "text/plain; charset=utf-8";
                      EvHeaderSet "X-Content-Type-Options" "nosniff"]),
        200, [EvLog (Printf (String.append "Successful %s" newline)
                       [OpString (resolved g c)])], (quoted (resolved g c)).
      split; [rewrite <- app_assoc; reflexivity|].
      split; [rewrite !forallb_app, Hquiet; reflexivity|].
      split; [now left|]. split; [discriminate|]. split; reflexivity.
    + exists (pre ++ [EvHeaderSet "Content-Type" "text/plain; charset=utf-8";
                      EvHeaderSet "X-Content-Type-Options" "nosniff";
                      EvLog (Println [OpString "Returning 500"])]),
        500, [EvLog (Printf (String.append "500 - %s" newline)
                       [OpString (resolved g c)])], (quoted (resolved g c)).
      split; [rewrite <- app_assoc; reflexivity|].
      split; [rewrite !forallb_app, Hquiet; reflexivity|].
      split; [now right|]. split; [reflexivity|]. split; reflexivity.
  - split; [now right|]. rewrite (failEvents_response _ _ _ Hsilent). cbn [status written].
    exists pre, 500, [EvLog entry], (fmt.Sprintf errText).
    split; [reflexivity|].
    split; [rewrite !forallb_app, Hquiet; reflexivity|].
    split; [now right|]. split; [reflexivity|]. split; reflexivity.
Qed.

(** X2.  The two headers are sent exactly with the answers that carry a
    colour: a run that gets to [printColor] sends [Content-Type] and
    [X-Content-Type-Options]; a run that ends in an error [return]
    sends no header of the handler's, and status 500; and a 200 is only
    ever sent by [printColor], with the colour between double quotes. *)

Theorem headers_only_with_a_colour printable g r draws :
  (fst (handle printable g r draws) = Next tt ->
   header (outcome (handle printable g r draws))
   = [("X-Content-Type-Options", "nosniff");
      ("Content-Type", "text/plain; charset=utf-8")])
  /\ (fst (handle printable g r draws) = Return ->
      header (outcome (handle printable g r draws)) = []
      /\ status (outcome (handle printable g r draws)) = Some 500)
  /\ (status (outcome (handle printable g r draws)) = Some 200 ->
      fst (handle printable g r draws) = Next tt
      /\ exists c, (c = color g \/ In c colors)
                   /\ written (outcome (handle printable g r draws)) = quoted c).
Proof.
  destruct (handle_shape printable g r draws)
    as (k & pre & tail & fl & -> & _ & Hpre & Htail).
  pose proof (pre_silent pre Hpre) as Hsilent.
  unfold outcome. cbn [fst snd after trace newWorld app].
  destruct Htail as [(-> & _ & c & healthy & Hc & ->) | (-> & entry & errText & -> & _)].
  - rewrite (printEvents_response _ _ _ Hsilent). cbn [status written header].
    split; [reflexivity|]. split; [discriminate|]. intros _. split; [reflexivity|].
    exists (resolved g c). split; [|reflexivity].
    unfold resolved. destruct (negb _); auto.
  - rewrite (failEvents_response _ _ _ Hsilent). cbn [status written header].
    split; [discriminate|]. split; [auto | discriminate].
Qed.

Lemma headers_only_with_a_colour_witness :
  fst (handle noTable (mkGlobals "" "" "") (mkRequest "" None) [4]) = Next tt
  /\ header (outcome (handle noTable (mkGlobals "" "" "") (mkRequest "" None) [4]))
     = [("X-Content-Type-Options", "nosniff");
        ("Content-Type", "text/plain; charset=utf-8")]
  /\ fst (handle noTable (mkGlobals "" "" "x") (mkRequest "" None) [4]) = Return
  /\ header (outcome (handle noTable (mkGlobals "" "" "x") (mkRequest "" None) [4]))
     = [].
Proof.
  assert (H1 : fst (handle noTable (mkGlobals "" "" "") (mkRequest "" None) [4])
               = Next tt) by reflexivity.
  assert (H2 : fst (handle noTable (mkGlobals "" "" "x") (mkRequest "" None) [4])
               = Return) by reflexivity.
  split; [exact H1|]. split.
  - exact (proj1 (headers_only_with_a_colour noTable _ _ _) H1).
  - split; [exact H2|].
    exact (proj1 (proj1 (proj2 (headers_only_with_a_colour noTable _ _ _)) H2)).
Defined.

(** X3.  A request takes at most three values from the process-wide
    random source (the colour, the delay, the failure), at least one
    when it gets to [printColor], even with [COLOR] set, and none when
    its body cannot be read or does not decode. *)

Theorem random_source_use printable g r draws :
  (exists k, (k <= 3)%nat
             /\ rand (snd (handle printable g r draws)) = skipn k draws
             /\ (fst (handle printable g r draws) = Next tt -> (1 <= k)%nat))
  /\ (forall errText,
         ReadErr r = Some errText
         \/ (ReadErr r = None /\ Body r <> "" /\ Body r <> emptyArraySentinel
             /\ json.Unmarshal (Body r) = inr errText) ->
         rand (snd (handle printable g r draws)) = draws).
Proof.
  split.
  - destruct (handle_shape printable g r draws)
      as (k & pre & tail & fl & -> & Hk & _ & Htail).
    exists k. split; [exact Hk|]. split; [reflexivity|]. cbn [fst].
    destruct Htail as [(_ & H & _) | (-> & _)]; [auto | discriminate].
  - intros errText [Hr | (Hr & H1 & H2 & H3)]; unfold handle, getColor; rewrite Hr.
    + rewrite fail_run. reflexivity.
    + rewrite (bind_return _ _ _ _ (parseBody_rejects _ _ _ H1 H2 H3)). reflexivity.
Qed.

Lemma random_source_use_witness :
  (ReadErr (mkRequest "{" None) = Some "unexpected end of JSON input"
   \/ (ReadErr (mkRequest "{" None) = None /\ Body (mkRequest "{" None) <> ""
       /\ Body (mkRequest "{" None) <> emptyArraySentinel
       /\ json.Unmarshal (Body (mkRequest "{" None))
          = inr "unexpected end of JSON input"))
  /\ rand (snd (handle noTable (mkGlobals "" "" "") (mkRequest "{" None) [4; 5; 6]))
     = [4; 5; 6].
Proof.
  assert (H : ReadErr (mkRequest "{" None) = Some "unexpected end of JSON input"
   \/ (ReadErr (mkRequest "{" None) = None /\ Body (mkRequest "{" None) <> ""
       /\ Body (mkRequest "{" None) <> emptyArraySentinel
       /\ json.Unmarshal (Body (mkRequest "{" None))
          = inr "unexpected end of JSON input")).
  { right. split; [reflexivity|]. split; [discriminate|]. split; [discriminate|].
    reflexivity. }
  split; [exact H|].
  exact (proj2 (random_source_use noTable (mkGlobals "" "" "") _ [4; 5; 6]) _ H).
Defined.

(** X4.  The handler sleeps at most once per request, and only before
    it touches the response: nothing is slept once a header is set or
    the status is sent. *)

Theorem sleeps_once_before_the_answer printable g r draws :
  exists pre tail,
    trace (snd (handle printable g r draws)) = pre ++ tail
    /\ forallb silent pre = true
    /\ (length (slept pre) <= 1)%nat
    /\ slept tail = []
    /\ response pre = freshResponse
    /\ slept (trace (snd (handle printable g r draws))) = slept pre.
Proof.
  destruct (handle_shape printable g r draws)
    as (k & pre & tail & fl & -> & _ & Hpre & Htail).
  exists pre, tail. cbn [snd after trace newWorld app].
  pose proof (pre_silent pre Hpre) as Hsilent.
  assert (Ht : slept tail = []).
  { destruct Htail as [(_ & _ & c & healthy & _ & ->) | (_ & entry & errText & -> & _)].
    - apply slept_printEvents.
    - reflexivity. }
  split; [reflexivity|]. split; [exact Hsilent|].
  split; [destruct Hpre as [->|(c & n & ->)]; cbn; lia|].
  split; [exact Ht|]. split; [apply response_silent; exact Hsilent|].
  rewrite slept_app, Ht, app_nil_r. reflexivity.
Qed.

(** ** Counting the draws that trigger a delay or a failure *)

Lemma count_le n p :
  0 <= p ->
  length (filter (fun d => d <=? p) (map Z.of_nat (seq 0 n)))
  = Nat.min n (Z.to_nat (p + 1)).
Proof.
  intros Hp. induction n as [|n IH]; [reflexivity|].
  rewrite seq_S, map_app, filter_app, length_app, IH. cbn [Nat.add map filter].
  destruct (Z.leb_spec (Z.of_nat n) p); cbn [length]; lia.
Qed.

Lemma count_lt n rate :
  length (filter (fun d => negb (rate <=? d)) (map Z.of_nat (seq 0 n)))
  = Nat.min n (Z.to_nat rate).
Proof.
  induction n as [|n IH]; [reflexivity|].
  rewrite seq_S, map_app, filter_app, length_app, IH. cbn [Nat.add map filter].
  destruct (Z.leb_spec rate (Z.of_nat n)); cbn [length negb]; lia.
Qed.

Lemma percent_range d : In d percent -> 0 <= d < 100.
Proof.
  unfold percent. rewrite in_map_iff. intros (n & <- & Hn).
  apply in_seq in Hn. lia.
Qed.

Lemma filter_none {A} (f : A -> bool) l :
  (forall x, In x l -> f x = false) -> filter f l = [].
Proof.
  induction l as [|x l IH]; intros H; [reflexivity|]. cbn.
  rewrite (H x) by now left. apply IH. intros y Hy. apply H. now right.
Qed.

(** X5.  Without [LATENCY], a record with [delayPercent] [p] makes the
    handler call [time.Sleep(time.Duration(delayLength) * time.Second)]
    exactly when [p > 0] and the draw of [rand.Intn(100)] is at most
    [p]: [p + 1] of the hundred draws make it sleep (all of them from
    99 on), and for [p <= 0] none does and nothing is drawn.  The
    duration is [delayLength] seconds as long as that many nanoseconds
    fit in 64 bits, that is for [delayLength] between -9223372036 and
    9223372036; beyond that the product wraps around. *)

Theorem delay_percent_chances printable g cp p :
  envLatency g = "" -> DelayProbability cp = Some p ->
  (forall body c x rest tr,
      slept (trace (snd (delay printable g body c cp (mkWorld (x :: rest) tr))))
      = slept tr ++ (if (0 <? p) && (x mod 100 <=? p)
                     then [seconds (DelayLength cp)] else [])
      /\ rand (snd (delay printable g body c cp (mkWorld (x :: rest) tr)))
         = if 0 <? p then rest else x :: rest)
  /\ (forall d, 0 <= d < 100 ->
                delaysOn printable g cp d = (0 <? p) && (d <=? p))
  /\ Z.of_nat (length (filter (delaysOn printable g cp) percent))
     = (if p <=? 0 then 0 else Z.min (p + 1) 100)
  /\ (-9223372036 <= DelayLength cp <= 9223372036 ->
      seconds (DelayLength cp) = DelayLength cp * 1000000000).
Proof.
  intros Hs Hp.
  assert (Hrun : forall body c x rest tr,
      delay printable g body c cp (mkWorld (x :: rest) tr)
      = (Next tt,
         mkWorld (if 0 <? p then rest else x :: rest)
           (tr ++ if (0 <? p) && (x mod 100 <=? p)
                  then delayEvents c (DelayLength cp) else []))).
  { intros. rewrite (delay_request printable g body c cp _ Hs).
    unfold delayDraws, requestDelayEvents, after. rewrite Hp. cbn [rand trace hd].
    destruct (0 <? p); reflexivity. }
  assert (Hon : forall d, 0 <= d < 100 ->
                          delaysOn printable g cp d = (0 <? p) && (d <=? p)).
  { intros d Hd. unfold delaysOn, newWorld. rewrite Hrun. cbn [snd trace app].
    rewrite Z.mod_small by exact Hd.
    destruct ((0 <? p) && (d <=? p)); reflexivity. }
  split; [|split; [exact Hon|split; [|apply seconds_exact]]].
  - intros. rewrite Hrun. cbn [snd trace rand]. split; [|reflexivity].
    rewrite slept_app. destruct ((0 <? p) && (x mod 100 <=? p)); reflexivity.
  - rewrite (filter_ext_in _ (fun d => (0 <? p) && (d <=? p)))
      by (intros d Hd; apply Hon, percent_range, Hd).
    destruct (Z.leb_spec p 0) as [Hle|Hgt].
    + rewrite filter_none; [reflexivity|]. intros d _.
      destruct (Z.ltb_spec 0 p); [lia | reflexivity].
    + rewrite (filter_ext _ (fun d => d <=? p)).
      2:{ intros d. destruct (Z.ltb_spec 0 p); [reflexivity | lia]. }
      unfold percent. rewrite count_le by lia. lia.
Qed.

Lemma delay_percent_witness :
  envLatency (mkGlobals "" "" "") = ""
  /\ DelayProbability (mkColorParameters "red" (Some 1) 3 None) = Some 1
  /\ Z.of_nat (length (filter (delaysOn noTable (mkGlobals "" "" "")
                                 (mkColorParameters "red" (Some 1) 3 None))
                         percent))
     = 2.
Proof.
  assert (H1 : envLatency (mkGlobals "" "" "") = "") by reflexivity.
  assert (H2 : DelayProbability (mkColorParameters "red" (Some 1) 3 None) = Some 1)
    by reflexivity.
  split; [exact H1|]. split; [exact H2|].
  exact (proj1 (proj2 (proj2 (delay_percent_chances noTable _ _ 1 H1 H2)))).
Defined.

(** X6.  The two failure rates do not count alike.  Without
    [ERROR_RATE], a record with [return500] [p] fails the request when
    [p > 0] and the draw is at most [p]: [p + 1] draws of the hundred
    (none for [p <= 0]).  With [ERROR_RATE] holding [rate], the request
    fails when the draw is below [rate]: [rate] draws of the hundred
    (none for a negative rate, all from 100 on). *)

Theorem failure_chances printable g cp :
  (forall p,
      envErrorRate g = "" -> Return500Probability cp = Some p ->
      (forall d, 0 <= d < 100 ->
                 failsOn printable g cp d = (0 <? p) && (d <=? p))
      /\ Z.of_nat (length (filter (failsOn printable g cp) percent))
         = (if p <=? 0 then 0 else Z.min (p + 1) 100))
  /\ (forall rate,
         strconv.Atoi (envErrorRate g) = inl rate ->
         (forall d, 0 <= d < 100 ->
                    failsOn printable g cp d = negb (rate <=? d))
         /\ Z.of_nat (length (filter (failsOn printable g cp) percent))
            = Z.max 0 (Z.min rate 100)).
Proof.
  split.
  - intros p Hs Hp.
    assert (Hon : forall d, 0 <= d < 100 ->
                            failsOn printable g cp d = (0 <? p) && (d <=? p)).
    { intros d Hd. unfold failsOn.
      rewrite (decideSuccess_request printable g "" cp _ Hs).
      unfold requestSuccess, newWorld. rewrite Hp. cbn [fst rand hd].
      rewrite Z.mod_small by exact Hd.
      destruct ((0 <? p) && (d <=? p)); reflexivity. }
    split; [exact Hon|].
    rewrite (filter_ext_in _ (fun d => (0 <? p) && (d <=? p)))
      by (intros d Hd; apply Hon, percent_range, Hd).
    destruct (Z.leb_spec p 0) as [Hle|Hgt].
    + rewrite filter_none; [reflexivity|]. intros d _.
      destruct (Z.ltb_spec 0 p); [lia | reflexivity].
    + rewrite (filter_ext _ (fun d => d <=? p)).
      2:{ intros d. destruct (Z.ltb_spec 0 p); [reflexivity | lia]. }
      unfold percent. rewrite count_le by lia. lia.
  - intros rate Hrate.
    assert (Hon : forall d, 0 <= d < 100 ->
                            failsOn printable g cp d = negb (rate <=? d)).
    { intros d Hd. unfold failsOn.
      rewrite (decideSuccess_forced printable g "" cp _ rate Hrate).
      unfold newWorld. cbn [fst rand hd]. rewrite Z.mod_small by exact Hd.
      destruct (rate <=? d); reflexivity. }
    split; [exact Hon|].
    rewrite (filter_ext_in _ (fun d => negb (rate <=? d)))
      by (intros d Hd; apply Hon, percent_range, Hd).
    unfold percent. rewrite count_lt. lia.
Qed.

Lemma failure_chances_witness :
  envErrorRate (mkGlobals "" "" "") = ""
  /\ Return500Probability (mkColorParameters "red" None 0 (Some 50)) = Some 50
  /\ Z.of_nat (length (filter (failsOn noTable (mkGlobals "" "" "")
                                 (mkColorParameters "red" None 0 (Some 50)))
                         percent))
     = 51
  /\ strconv.Atoi (envErrorRate (mkGlobals "" "50" "")) = inl 50
  /\ Z.of_nat (length (filter (failsOn noTable (mkGlobals "" "50" "")
                                 (mkColorParameters "red" None 0 (Some 50)))
                         percent))
     = 50.
Proof.
  assert (H1 : envErrorRate (mkGlobals "" "" "") = "") by reflexivity.
  assert (H2 : Return500Probability (mkColorParameters "red" None 0 (Some 50)) = Some 50)
    by reflexivity.
  assert (H3 : strconv.Atoi (envErrorRate (mkGlobals "" "50" "")) = inl 50)
    by reflexivity.
  split; [exact H1|]. split; [exact H2|]. split.
  - exact (proj2 (proj1 (failure_chances noTable (mkGlobals "" "" "") _) 50 H1 H2)).
  - split; [exact H3|].
    exact (proj2 (proj2 (failure_chances noTable (mkGlobals "" "50" "")
                           (mkColorParameters "red" None 0 (Some 50))) 50 H3)).
Defined.

(** X7.  [printColor] called with the empty colour answers with a fresh
    random colour of the palette; [getColor] never calls it so: the
    colour it resolves is never empty, and no answer of [printColor]
    carries an empty colour. *)

Theorem empty_colour_never_printed printable g :
  (forall healthy wd,
      exists c, In c colors
                /\ printColor "" healthy wd
                   = (Next tt, after wd 1 (printEvents c healthy)))
  /\ (forall wd, exists c wd', resolveColor g wd = (Next c, wd') /\ c <> "")
  /\ (forall r draws,
         fst (handle printable g r draws) = Next tt ->
         written (outcome (handle printable g r draws)) <> quoted "").
Proof.
  split; [|split].
  - intros healthy wd. destruct (randomColor_run (after wd 0
        ([EvHeaderSet "Content-Type" "text/plain; charset=utf-8";
          EvHeaderSet "X-Content-Type-Options" "nosniff"]
         ++ (if healthy then [EvWriteHeader 200]
             else [EvLog (Println [OpString "Returning 500"]); EvWriteHeader 500]))))
      as (c & Hc & Hrun).
    exists c. split; [exact Hc|].
    destruct wd as [rd tr]. unfold printColor. cbn [String.eqb].
    destruct healthy;
      unfold after, HeaderSet, WriteHeader, log, FprintfQuoted, emit, bind in *;
      cbn [rand trace skipn app] in *; rewrite <- ?app_assoc in *; cbn [app] in *;
      rewrite Hrun; unfold printEvents; cbn [rand trace app];
      rewrite <- ?app_assoc; reflexivity.
  - intros wd. destruct (resolveColor_run g wd) as (c & Hc & Hres).
    eexists _, _. split; [exact Hres|]. apply (resolved_nonempty g c Hc).
  - intros r draws.
    destruct (handle_shape printable g r draws)
      as (k & pre & tail & fl & -> & _ & Hpre & Htail).
    pose proof (pre_silent pre Hpre) as Hsilent.
    unfold outcome. cbn [fst snd after trace newWorld app].
    destruct Htail as [(-> & _ & c & healthy & Hc & ->) | (-> & entry & errText & -> & _)];
      [|discriminate].
    intros _. rewrite (printEvents_response _ _ _ Hsilent). cbn [written].
    pose proof (resolved_nonempty g c Hc) as Hne.
    unfold quoted. destruct (resolved g c) as [|a s]; [congruence|].
    cbn [String.append]. intros E. injection E as _ E.
    destruct s; discriminate.
Qed.

Lemma empty_colour_witness :
  fst (handle noTable (mkGlobals "" "" "") (mkRequest "" None) [4]) = Next tt
  /\ written (outcome (handle noTable (mkGlobals "" "" "") (mkRequest "" None) [4]))
     <> quoted "".
Proof.
  assert (H : fst (handle noTable (mkGlobals "" "" "") (mkRequest "" None) [4])
              = Next tt) by reflexivity.
  split; [exact H|].
  exact (proj2 (proj2 (empty_colour_never_printed noTable (mkGlobals "" "" ""))) _ _ H).
Defined.

(** X8.  The log tells the outcome.  Every request leaves at least one
    line in the log; the answer is 200 exactly when the line
    [Successful <colour>] was logged; a 500 from [printColor] comes
    with the lines [Returning 500] and [500 - <colour>]; and a 500
    from an error [return] comes with a line that holds the error
    text, alone or after the request body. *)



(** ** Overrides that are no integers, and the palette *)

Lemma parseUintLoop_foreign s : forall n c,
  In c s -> isDigit c = false -> exists e, strconv.parseUintLoop n s = inr e.
Proof.
  induction s as [|d t IH]; intros n c Hin Hc; [destruct Hin|].
  cbn [strconv.parseUintLoop]. destruct (isDigit d) eqn:Hd; [|eauto].
  destruct (_ <=? n); [eauto|]. cbv zeta. destruct (_ <? _); [eauto|].
  destruct Hin as [->|Hin]; [congruence|]. eapply IH; eauto.
Qed.

Lemma Atoi_foreign s c :
  In c (bytes s) -> foreign c -> exists e, strconv.Atoi s = inr e.
Proof.
  intros Hin (Hd & Hplus & Hminus). unfold strconv.Atoi, strconv.ParseInt.
  destruct (bytes s) as [|c0 t]; [destruct Hin|]. cbv zeta.
  assert (Hdig : exists e,
            strconv.ParseUint (if (c0 =? "+")%char || (c0 =? "-")%char then t
                               else c0 :: t) = inr e).
  { destruct ((c0 =? "+")%char || (c0 =? "-")%char) eqn:Hsign.
    - assert (Hc : In c t).
      { destruct Hin as [<-|Hin]; [|exact Hin]. exfalso.
        apply orb_true_iff in Hsign as [H|H]; apply Ascii.eqb_eq in H; congruence. }
      unfold strconv.ParseUint. destruct t; [destruct Hc|].
      eapply parseUintLoop_foreign; eauto.
    - unfold strconv.ParseUint. eapply parseUintLoop_foreign; eauto. }
  destruct Hdig as [e ->]. eauto.
Qed.

Section IllFormed.

Variable printable : N -> bool.
Variable g : Globals.

Lemma latency_error_run e r draws :
  envLatency g <> "" -> strconv.Atoi (envLatency g) = inr e ->
  fst (handle printable g r draws) = Return
  /\ status (outcome (handle printable g r draws)) = Some 500
  /\ slept (trace (snd (handle printable g r draws))) = [].
Proof.
  intros Hs He.
  destruct (handle_front printable g r draws)
    as [(request & Hr & Ha) | (entry & errText & ->)].
  2:{ split; [reflexivity|]. split; [apply (failed_status entry errText draws 0%nat []);
                                     reflexivity | reflexivity]. }
  rewrite (handle_accepted printable g r draws request Hr Ha).
  destruct (resolveColor_run g (newWorld draws)) as (c & Hc & Hres).
  rewrite (serve_unfold _ _ _ _ _ _ _ Hres).
  rewrite (bind_return _ _ _ _ (delay_error printable g _ _ _ _ e Hs He)).
  rewrite after_after. split; [reflexivity|].
  split; [apply failed_status; reflexivity | reflexivity].
Qed.

Lemma error_rate_error_run e r draws :
  envErrorRate g <> "" -> strconv.Atoi (envErrorRate g) = inr e ->
  fst (handle printable g r draws) = Return
  /\ status (outcome (handle printable g r draws)) = Some 500.
Proof.
  intros Hs He.
  destruct (override_cases (envLatency g)) as [HL | (HLs & e' & HLe)].
  2:{ destruct (latency_error_run e' r draws HLs HLe) as (H1 & H2 & _). auto. }
  destruct (handle_front printable g r draws)
    as [(request & Hr & Ha) | (entry & errText & ->)].
  2:{ split; [reflexivity|]. apply (failed_status entry errText draws 0%nat []).
      reflexivity. }
  rewrite (handle_accepted printable g r draws request Hr Ha).
  destruct (resolveColor_run g (newWorld draws)) as (c & Hc & Hres).
  rewrite (serve_unfold _ _ _ _ _ _ _ Hres).
  match goal with |- context [delay printable g ?b ?c ?cp] =>
    destruct (delay_passes printable g b c cp (after (newWorld draws) 1 []) HL)
      as (n1 & evs & Hdelay & Hsilent) end.
  rewrite (bind_next _ _ _ _ _ Hdelay).
  rewrite (bind_return _ _ _ _ (decideSuccess_error printable g _ _ _ e Hs He)).
  rewrite !after_after. split; [reflexivity|]. apply failed_status. exact Hsilent.
Qed.

End IllFormed.

(** X9.  An override that is set but is no integer fails every
    request: with [LATENCY] holding any byte that is neither a digit
    nor a sign (a space, a unit, a decimal point), every request is
    answered 500 through an error [return], without any sleep; with
    [ERROR_RATE] holding such a byte every request is answered 500 as
    well. *)

Theorem ill_formed_override_fails_every_request printable g r draws :
  (forall c, In c (bytes (envLatency g)) -> foreign c ->
     fst (handle printable g r draws) = Return
     /\ status (outcome (handle printable g r draws)) = Some 500
     /\ slept (trace (snd (handle printable g r draws))) = [])
  /\ (forall c, In c (bytes (envErrorRate g)) -> foreign c ->
        fst (handle printable g r draws) = Return
        /\ status (outcome (handle printable g r draws)) = Some 500).
Proof.
  split; intros c Hin Hc; destruct (Atoi_foreign _ c Hin Hc) as [e He].
  - apply (latency_error_run printable g e); [|exact He].
    intros E. rewrite E in Hin. destruct Hin.
  - apply (error_rate_error_run printable g e); [|exact He].
    intros E. rewrite E in Hin. destruct Hin.
Qed.

Lemma ill_formed_override_witness :
  In "s"%char (bytes (envLatency (mkGlobals "" "" "2s")))
  /\ foreign "s"%char
  /\ status (outcome (handle noTable (mkGlobals "" "" "2s")
                        (mkRequest "" None) [1; 2; 3]))
     = Some 500
  /\ In " "%char (bytes (envErrorRate (mkGlobals "" " 0" "")))
  /\ foreign " "%char
  /\ status (outcome (handle noTable (mkGlobals "" " 0" "")
                        (mkRequest "" None) [1; 2; 3]))
     = Some 500.
Proof.
  assert (H1 : In "s"%char (bytes (envLatency (mkGlobals "" "" "2s"))))
    by (right; left; reflexivity).
  assert (H2 : foreign "s"%char)
    by (split; [reflexivity | split; discriminate]).
  assert (H3 : In " "%char (bytes (envErrorRate (mkGlobals "" " 0" ""))))
    by (left; reflexivity).
  assert (H4 : foreign " "%char)
    by (split; [reflexivity | split; discriminate]).
  split; [exact H1|]. split; [exact H2|]. split.
  - exact (proj1 (proj2 (proj1 (ill_formed_override_fails_every_request
                                  noTable _ _ _) _ H1 H2))).
  - split; [exact H3|]. split; [exact H4|].
    exact (proj2 (proj2 (ill_formed_override_fails_every_request
                           noTable _ _ _) _ H3 H4)).
Defined.

(** X10.  [randomColor] returns the palette entry whose index is the
    value of [rand.Int()] modulo 6, and takes that one value from the
    source; so every colour of the palette is drawn by some value, and
    a request without body and without overrides is answered 200 with
    that colour. *)

Theorem every_palette_colour_is_drawn :
  (forall x rest tr,
      randomColor (mkWorld (x :: rest) tr)
      = (Next (nth (Z.to_nat ((x mod 2 ^ 63) mod 6)) colors ""), mkWorld rest tr))
  /\ (forall c, In c colors ->
        exists x, 0 <= x < 6
          /\ (forall rest tr,
                 randomColor (mkWorld (x :: rest) tr) = (Next c, mkWorld rest tr))
          /\ forall printable,
               status (outcome (handle printable (mkGlobals "" "" "")
                                  (mkRequest "" None) [x])) = Some 200
               /\ written (outcome (handle printable (mkGlobals "" "" "")
                                      (mkRequest "" None) [x])) = quoted c).
Proof.
  assert (H1 : forall x rest tr,
      randomColor (mkWorld (x :: rest) tr)
      = (Next (nth (Z.to_nat ((x mod 2 ^ 63) mod 6)) colors ""), mkWorld rest tr)).
  { intros x rest tr. unfold randomColor, Int, draw, bind. cbn [rand trace].
    assert (Hr : 0 <= x mod 2 ^ 63 < 2 ^ 63) by (apply Z.mod_pos_bound; lia).
    change (Z.of_nat (length colors)) with 6.
    rewrite Z.rem_mod_nonneg by lia.
    assert (Hi : 0 <= (x mod 2 ^ 63) mod 6 < 6) by (apply Z.mod_pos_bound; lia).
    destruct (Z.ltb_spec ((x mod 2 ^ 63) mod 6) 0); [lia|].
    assert (Hn : (Z.to_nat ((x mod 2 ^ 63) mod 6) < 6)%nat) by lia.
    revert Hn. generalize (Z.to_nat ((x mod 2 ^ 63) mod 6)). intros n Hn.
    do 6 (destruct n as [|n]; [reflexivity|]). lia. }
  split; [exact H1|].
  intros c Hc.
  assert (Hx : exists x, 0 <= x < 6 /\ nth (Z.to_nat x) colors "" = c).
  { destruct Hc as [<-|[<-|[<-|[<-|[<-|[<-|[]]]]]]];
      [exists 0 | exists 1 | exists 2 | exists 3 | exists 4 | exists 5];
      (split; [lia | reflexivity]). }
  destruct Hx as (x & Hx & Hnth). exists x. split; [exact Hx|].
  assert (Hmod : (x mod 2 ^ 63) mod 6 = x).
  { rewrite (Z.mod_small x (2 ^ 63)) by lia. apply Z.mod_small. lia. }
  split.
  - intros rest tr. rewrite H1, Hmod, Hnth. reflexivity.
  - intros printable. set (g := mkGlobals "" "" "").
    assert (Ha : accepts (Body (mkRequest "" None)) []) by (left; split; reflexivity).
    rewrite (handle_accepted printable g (mkRequest "" None) [x] [] eq_refl Ha).
    assert (Hres : resolveColor g (newWorld [x]) = (Next c, mkWorld [] [])).
    { unfold resolveColor, newWorld.
      rewrite (bind_next _ _ _ _ _ (H1 x [] [])), Hmod, Hnth. reflexivity. }
    rewrite (serve_unfold printable g _ _ _ _ _ Hres). cbn [selectParams].
    rewrite (bind_next _ _ _ _ _
               (delay_request printable g _ c zeroColorParameters _ eq_refl)).
    rewrite (bind_next _ _ _ _ _
               (decideSuccess_request printable g _ zeroColorParameters _ eq_refl)).
    assert (Hne : c <> "") by (apply colors_nonempty; exact Hc).
    cbn [requestSuccess Return500Probability zeroColorParameters].
    rewrite (printColor_run c true _ Hne). unfold outcome, after.
    cbn [snd trace app delayDraws failureDraws requestDelayEvents
         DelayProbability Return500Probability zeroColorParameters].
    split; reflexivity.
Qed.

Lemma every_palette_colour_witness :
  In "green" colors
  /\ randomColor (mkWorld [9; 1] []) = (Next "green", mkWorld [1] []).
Proof.
  assert (H : In "green" colors) by (right; right; right; left; reflexivity).
  split; [exact H|].
  exact (proj1 every_palette_colour_is_drawn 9 [1] []).
Defined.

(* ================================================================== *)
(** * Further properties of the shutdown goroutine *)

Lemma behaviour_step td st i : behaviour td st -> behaviour td (step td st i).
Proof.
  destruct st as [p closed acts]. unfold behaviour, step. cbn [at_ doneClosed did].
  destruct p; intros H; destruct i as [sig| |[err|]]; try exact H.
  - destruct H as [-> ->].
    destruct (Z.leb_spec (seconds td) 0); cbn.
    + split; [reflexivity|]. split; [assumption|]. split; [reflexivity|].
      exists sig. reflexivity.
    + split; [reflexivity|]. split; [assumption|]. exists sig. reflexivity.
  - destruct H as (-> & Hpos & s1 & ->). cbn.
    split; [reflexivity|]. split; [assumption|]. exists s1, true. reflexivity.
  - destruct H as (-> & Hpos & s1 & ->). cbn.
    split; [reflexivity|]. split; [assumption|]. exists s1, false. reflexivity.
  - destruct H as (-> & Hpos & s1 & second & ->). cbn.
    split; [reflexivity|]. split; [assumption|]. split; [reflexivity|].
    exists s1, second, err. reflexivity.
  - destruct H as (-> & Hpos & s1 & second & ->). cbn.
    split; [reflexivity|]. split; [assumption|].
    exists s1, second. rewrite <- !app_assoc. reflexivity.
Qed.

Lemma behaviour_fold td inputs : forall st,
  behaviour td st -> behaviour td (fold_left (step td) inputs st).
Proof.
  induction inputs as [|i inputs IH]; intros st H; [exact H|].
  cbn. apply IH, behaviour_step, H.
Qed.

Lemma behaviour_run td inputs : behaviour td (run td inputs).
Proof. apply behaviour_fold. split; reflexivity. Qed.

(** X11.  Whatever the goroutine receives, and in whatever order, what it
    has done is one of six things: nothing (no signal yet); keep-alives
    off, the log line and the ticker; the same without ticker, the
    goroutine having panicked (a delay that is not positive); the
    former followed, possibly after the line of the second signal, by
    the call of [server.Shutdown] with its timeout; that followed by
    the failed return and [log.Fatalf]; or followed by the successful
    return, [close(done)] and the two deferred calls. *)

Theorem goroutine_behaviours td inputs : behaviour td (run td inputs).
Proof.
  unfold run. generalize init, (conj (eq_refl false) (eq_refl (@nil action))
                                 : behaviour td init).
  induction inputs as [|i inputs IH]; intros st H; [exact H|].
  cbn [fold_left]. apply IH, behaviour_step, H.
Qed.

Lemma settled td st i :
  match at_ st with
  | Returned | Exited _ | Panicked _ => True
  | _ => False
  end ->
  step td st i = st.
Proof. unfold step. destruct (at_ st); intros H; try contradiction; now destruct i. Qed.

Lemma settled_fold td inputs : forall st,
  match at_ st with
  | Returned | Exited _ | Panicked _ => True
  | _ => False
  end ->
  fold_left (step td) inputs st = st.
Proof.
  induction inputs as [|i inputs IH]; intros st H; [reflexivity|].
  cbn. rewrite (settled td st i H). apply IH, H.
Qed.

Lemma awaiting_shutdown_fold td inputs : forall acts,
  did (fold_left (step td) inputs (mkState AwaitShutdown false acts))
  = acts ++ match shutdownResult inputs with
            | None => []
            | Some None => closing
            | Some (Some err) => fatal err
            end.
Proof.
  induction inputs as [|i inputs IH]; intros acts; cbn [fold_left shutdownResult].
  - cbn. now rewrite app_nil_r.
  - destruct i as [sig| |[err|]].
    + apply IH.
    + apply IH.
    + rewrite settled_fold by exact I. reflexivity.
    + rewrite settled_fold by exact I. cbn. rewrite <- !app_assoc. reflexivity.
Qed.

(** X12.  On the first signal the goroutine turns keep-alives off, logs
    and starts a ticker of [terminationDelay] seconds; the first of a
    second signal and a tick makes it call [server.Shutdown], at once
    and once only, the second signal being logged; from then on
    signals and ticks are not looked at, and the first return of
    [server.Shutdown] ends the goroutine, with [close(done)] and the
    deferred calls when it is nil, with [log.Fatalf] otherwise. *)

Theorem shutdown_on_second_signal_or_tick td s1 i rest :
  0 < seconds td ->
  (i = Tick \/ exists s2, i = Quit s2) ->
  did (run td (Quit s1 :: i :: rest))
  = upToShutdown td s1 (match i with Quit _ => true | _ => false end)
    ++ match shutdownResult rest with
       | None => []
       | Some None => closing
       | Some (Some err) => fatal err
       end.
Proof.
  intros Hpos Hi. unfold run. cbn [fold_left].
  assert (E : step td (step td init (Quit s1)) i
              = mkState AwaitShutdown false
                  (upToShutdown td s1 (match i with Quit _ => true | _ => false end))).
  { unfold step at 2. cbn [at_ init].
    destruct (Z.leb_spec (seconds td) 0); [lia|].
    destruct Hi as [-> | [s2 ->]]; reflexivity. }
  rewrite E. apply awaiting_shutdown_fold.
Qed.

Lemma shutdown_on_second_signal_witness :
  0 < seconds 10
  /\ (Quit SIGINT = Tick \/ exists s2, Quit SIGINT = Quit s2)
  /\ did (run 10 [Quit SIGTERM; Quit SIGINT; Tick; Quit SIGINT;
                  ShutdownReturns None; ShutdownReturns (Some "late")])
     = upToShutdown 10 SIGTERM true ++ closing.
Proof.
  assert (H1 : 0 < seconds 10) by reflexivity.
  assert (H2 : Quit SIGINT = Tick \/ exists s2, Quit SIGINT = Quit s2)
    by (right; exists SIGINT; reflexivity).
  split; [exact H1|]. split; [exact H2|].
  exact (shutdown_on_second_signal_or_tick 10 SIGTERM (Quit SIGINT)
           [Tick; Quit SIGINT; ShutdownReturns None; ShutdownReturns (Some "late")]
           H1 H2).
Defined.

(** X13.  With a termination delay that is not positive (0, a negative
    number, or so large that its nanoseconds wrap around to one) the
    first signal makes [time.NewTicker] panic: keep-alives are off and
    the line is logged, but [server.Shutdown] is never called and
    [done] is never closed, whatever comes next. *)

Theorem nonpositive_delay_panics td sig rest :
  seconds td <= 0 ->
  at_ (run td (Quit sig :: rest)) = Panicked "non-positive interval for NewTicker"
  /\ did (run td (Quit sig :: rest)) = onSignal td sig
  /\ doneClosed (run td (Quit sig :: rest)) = false
  /\ ~ In CallShutdown (did (run td (Quit sig :: rest))).
Proof.
  intros Hneg. unfold run. cbn [fold_left].
  assert (E : step td init (Quit sig)
              = mkState (Panicked "non-positive interval for NewTicker") false
                  (onSignal td sig)).
  { unfold step. cbn [at_ init].
    destruct (Z.leb_spec (seconds td) 0); [reflexivity | lia]. }
  rewrite E, settled_fold by exact I. cbn [at_ did doneClosed].
  split; [reflexivity|]. split; [reflexivity|]. split; [reflexivity|].
  cbv. intuition discriminate.
Qed.

Lemma nonpositive_delay_witness :
  seconds 0 <= 0
  /\ seconds 9223372037 <= 0
  /\ at_ (run 0 [Quit SIGTERM; Tick; ShutdownReturns None])
     = Panicked "non-positive interval for NewTicker"
  /\ doneClosed (run 9223372037 [Quit SIGTERM; Quit SIGTERM]) = false.
Proof.
  assert (H1 : seconds 0 <= 0) by (vm_compute; discriminate).
  assert (H2 : seconds 9223372037 <= 0) by (vm_compute; discriminate).
  split; [exact H1|]. split; [exact H2|]. split.
  - exact (proj1 (nonpositive_delay_panics 0 SIGTERM [Tick; ShutdownReturns None] H1)).
  - exact (proj1 (proj2 (proj2
             (nonpositive_delay_panics 9223372037 SIGTERM [Quit SIGTERM] H2)))).
Defined.

(** Membership in one of the lists of actions above, spelled out. *)
Ltac listing :=
  unfold upToShutdown, onSignal, secondSignal, callShutdown, closing, fatal;
  cbn [app In].

Ltac listed H :=
  unfold upToShutdown, onSignal, secondSignal, callShutdown, closing, fatal in H;
  cbn [app In] in H.

Ltac not_there :=
  let Hin := fresh "Hin" in
  intros Hin; exfalso; listed Hin; intuition discriminate.

(** X14.  The deferred calls ([cancel], then [delay.Stop]) run exactly
    when the goroutine returns, after [close(done)] and in that order;
    when [server.Shutdown] fails, [log.Fatalf] ends the process with
    status 1 without running them: the ticker that was started is not
    stopped and the context is not cancelled. *)

Theorem deferred_calls_run_on_return_only td inputs :
  (at_ (run td inputs) = Returned <-> In Cancel (did (run td inputs)))
  /\ (at_ (run td inputs) = Returned <-> In TickerStop (did (run td inputs)))
  /\ (at_ (run td inputs) = Returned ->
      exists pre, did (run td inputs) = pre ++ [CloseDone; Cancel; TickerStop])
  /\ (forall err,
         In (ShutdownReturned (Some err)) (did (run td inputs)) ->
         at_ (run td inputs) = Exited 1
         /\ In (NewTicker (seconds td)) (did (run td inputs))
         /\ ~ In TickerStop (did (run td inputs))
         /\ ~ In Cancel (did (run td inputs))).
Proof.
  pose proof (behaviour_run td inputs) as H. unfold behaviour in H.
  destruct (at_ (run td inputs)) eqn:Hat.
  - destruct H as [_ ->].
    split; [split; [discriminate | intros []]|].
    split; [split; [discriminate | intros []]|].
    split; [discriminate | intros err []].
  - destruct H as (_ & _ & sig & ->).
    split; [split; [discriminate | not_there]|].
    split; [split; [discriminate | not_there]|].
    split; [discriminate | intros err; not_there].
  - destruct H as (_ & _ & sig & second & ->). destruct second.
    + split; [split; [discriminate | not_there]|].
      split; [split; [discriminate | not_there]|].
      split; [discriminate | intros err; not_there].
    + split; [split; [discriminate | not_there]|].
      split; [split; [discriminate | not_there]|].
      split; [discriminate | intros err; not_there].
  - destruct H as (_ & _ & sig & second & ->).
    split; [split; [intros _ | reflexivity]; destruct second; listing; tauto|].
    split; [split; [intros _ | reflexivity]; destruct second; listing; tauto|].
    split.
    + intros _. exists (upToShutdown td sig second ++ [ShutdownReturned None]).
      rewrite <- app_assoc. reflexivity.
    + intros err. destruct second; not_there.
  - destruct H as (_ & _ & -> & sig & second & err0 & ->).
    split; [split; [discriminate | destruct second; not_there]|].
    split; [split; [discriminate | destruct second; not_there]|].
    split; [discriminate|].
    intros err _. split; [reflexivity|]. split; [listing; auto|].
    split; destruct second; not_there.
  - destruct H as (_ & _ & _ & sig & ->).
    split; [split; [discriminate | not_there]|].
    split; [split; [discriminate | not_there]|].
    split; [discriminate | intros err; not_there].
Qed.

Lemma deferred_calls_witness :
  at_ (run 10 [Quit SIGINT; Tick; ShutdownReturns None]) = Returned
  /\ (exists pre, did (run 10 [Quit SIGINT; Tick; ShutdownReturns None])
                  = pre ++ [CloseDone; Cancel; TickerStop])
  /\ In (ShutdownReturned (Some "context deadline exceeded"))
        (did (run 10 [Quit SIGINT; Tick;
                      ShutdownReturns (Some "context deadline exceeded")]))
  /\ ~ In TickerStop
         (did (run 10 [Quit SIGINT; Tick;
                       ShutdownReturns (Some "context deadline exceeded")])).
Proof.
  assert (H1 : at_ (run 10 [Quit SIGINT; Tick; ShutdownReturns None]) = Returned)
    by reflexivity.
  assert (H2 : In (ShutdownReturned (Some "context deadline exceeded"))
        (did (run 10 [Quit SIGINT; Tick;
                      ShutdownReturns (Some "context deadline exceeded")]))).
  { cbn. right. right. right. right. right. left. reflexivity. }
  split; [exact H1|]. split.
  - exact (proj1 (proj2 (proj2 (deferred_calls_run_on_return_only 10 _))) H1).
  - split; [exact H2|].
    exact (proj1 (proj2 (proj2 (proj2 (proj2 (proj2
             (deferred_calls_run_on_return_only 10 _))) _ H2)))).
Defined.

Lemma idle_without_signal td inputs :
  existsb isQuit inputs = false -> run td inputs = init.
Proof.
  unfold run. induction inputs as [|i inputs IH]; [reflexivity|].
  cbn [existsb fold_left]. intros H. apply orb_false_iff in H as [Hi H].
  destruct i; [discriminate | apply IH, H | apply IH, H].
Qed.

Lemma existsb_isQuit inputs :
  existsb isQuit inputs = true -> exists sig, In (Quit sig) inputs.
Proof.
  intros H. apply existsb_exists in H as (i & Hin & Hi).
  destruct i as [sig| |]; try discriminate. eauto.
Qed.

Lemma closed_needs_nil td inputs : forall st,
  doneClosed (fold_left (step td) inputs st) = true ->
  doneClosed st = true \/ In (ShutdownReturns None) inputs.
Proof.
  induction inputs as [|i inputs IH]; intros st H; [now left|].
  cbn [fold_left] in H. destruct (IH _ H) as [Hc|Hin]; [|right; now right].
  destruct (doneClosed st) eqn:Hst; [now left|]. right. left.
  unfold step in Hc. destruct st as [p closed acts]. cbn [at_ doneClosed did] in *.
  subst closed.
  destruct p; destruct i as [sig| |[err|]]; try reflexivity; cbn in Hc;
    try discriminate.
  destruct (seconds td <=? 0); discriminate.
Qed.

(** X15.  Without a signal the goroutine does nothing at all: as long as
    nothing comes from [quit] it has done nothing, whatever else
    happens; [server.Shutdown] is called only after a signal, and
    [done] is closed only after a signal and a return of
    [server.Shutdown] with nil. *)

Theorem no_shutdown_without_signal td inputs :
  ((forall sig, ~ In (Quit sig) inputs) -> run td inputs = init)
  /\ (In CallShutdown (did (run td inputs)) -> exists sig, In (Quit sig) inputs)
  /\ (doneClosed (run td inputs) = true ->
      (exists sig, In (Quit sig) inputs) /\ In (ShutdownReturns None) inputs).
Proof.
  assert (Hcases : run td inputs = init \/ exists sig, In (Quit sig) inputs).
  { destruct (existsb isQuit inputs) eqn:E.
    - right. now apply existsb_isQuit.
    - left. now apply idle_without_signal. }
  split; [|split].
  - intros Hnone. destruct Hcases as [H|[sig H]]; [exact H|]. destruct (Hnone _ H).
  - intros Hin. destruct Hcases as [H|H]; [|exact H].
    rewrite H in Hin. destruct Hin.
  - intros Hc. split.
    + destruct Hcases as [H|H]; [|exact H]. rewrite H in Hc. discriminate.
    + destruct (closed_needs_nil td inputs init Hc) as [H|H]; [discriminate | exact H].
Qed.

Lemma no_shutdown_without_signal_witness :
  (forall sig, ~ In (Quit sig) [Tick; ShutdownReturns None; Tick])
  /\ run 10 [Tick; ShutdownReturns None; Tick] = init.
Proof.
  assert (H : forall sig, ~ In (Quit sig) [Tick; ShutdownReturns None; Tick]).
  { intros sig [E|[E|[E|[]]]]; discriminate. }
  split; [exact H|].
  exact (proj1 (no_shutdown_without_signal 10 _) H).
Defined.

(* ================================================================== *)
(** * Facts about [getLabels] *)

Lemma mapSet_keys out key val :
  map fst (mapSet out key val)
  = if in_dec string_dec key (map fst out) then map fst out
    else map fst out ++ [key].
Proof.
  induction out as [|[k v] t IH]; [reflexivity|]. cbn [mapSet map fst].
  destruct (String.eqb_spec k key) as [->|Hne].
  - clear IH. cbn [map fst].
    destruct (in_dec string_dec key (key :: map fst t)) as [_|Hn]; [reflexivity|].
    exfalso. apply Hn. now left.
  - cbn [map fst]. rewrite IH.
    destruct (in_dec string_dec key (map fst t)) as [Hin|Hn];
      destruct (in_dec string_dec key (k :: map fst t)) as [Hin'|Hn'];
      try reflexivity.
    + exfalso. apply Hn'. now right.
    + destruct Hin' as [E|Hin']; [congruence | contradiction].
Qed.

Lemma mapSet_length out key val :
  (length out <= length (mapSet out key val) <= S (length out))%nat
  /\ (1 <= length (mapSet out key val))%nat.
Proof.
  rewrite <- !(length_map fst), mapSet_keys.
  destruct (in_dec _ _ _) as [Hin|_].
  - split; [lia|]. destruct (map fst out); [destruct Hin | cbn; lia].
  - rewrite length_app. cbn. lia.
Qed.

Lemma mapSet_NoDup out key val :
  NoDup (map fst out) -> NoDup (map fst (mapSet out key val)).
Proof.
  intros H. rewrite mapSet_keys. destruct (in_dec _ _ _) as [_|Hn]; [exact H|].
  apply NoDup_app; [exact H | repeat constructor; intros [] |].
  intros x Hx [<-|[]]. contradiction.
Qed.


(** The loop keeps the map below 64 entries until it returns. *)
Lemma labelsLoop_size entries : forall out m,
  (length out < 64)%nat -> NoDup (map fst out) ->
  labelsLoop entries out = Some m ->
  (length out <= length m <= 64)%nat /\ NoDup (map fst m)
  /\ (entries <> [] -> (1 <= length m)%nat).
Proof.
  induction entries as [|entry rest IH]; intros out m Hlen Hnd; cbn [labelsLoop].
  - intros E. injection E as <-. split; [lia|]. split; [exact Hnd|]. congruence.
  - destruct (entry =? "")%string; [discriminate|].
    destruct (negb _); [discriminate|]. cbv zeta.
    destruct (_ || _); [discriminate|].
    match goal with |- context [mapSet out ?k ?v] =>
      pose proof (mapSet_length out k v) as [Hl H1];
      pose proof (mapSet_NoDup out k v Hnd) as Hnd';
      set (out' := mapSet out k v) in * end.
    destruct (Nat.leb_spec 64 (length out')) as [Hfull|Hroom].
    + intros E. injection E as <-. split; [lia|]. split; [exact Hnd'|]. intros _. exact H1.
    + intros E. destruct (IH out' m Hroom Hnd' E) as (Hm & Hndm & _).
      split; [lia|]. split; [exact Hndm|]. intros _. lia.
Qed.

Lemma Split_nonempty s sep : strings.Split s sep <> [].
Proof.
  destruct s as [|c t]; cbn; [discriminate|].
  destruct (c =? sep)%char; [discriminate|].
  destruct (strings.Split t sep); discriminate.
Qed.

(** ** Runes *)

Import utf8.













(** ** The cutset *)

Lemma trimLeft_within cutset pre s :
  within cutset pre ->
  strings.trimLeftASCII (pre ++ s) cutset = strings.trimLeftASCII s cutset.
Proof.
  induction pre as [|c pre IH]; intros H; [reflexivity|].
  cbn [String.append strings.trimLeftASCII].
  rewrite (H c) by now left. apply IH. intros d Hd. apply H. now right.
Qed.

Lemma trimRight_all cutset s :
  within cutset s -> strings.trimRightASCII s cutset = "".
Proof.
  induction s as [|c s IH]; intros H; [reflexivity|].
  cbn [strings.trimRightASCII]. rewrite IH by (intros d Hd; apply H; now right).
  now rewrite (H c) by now left.
Qed.

Lemma trimRight_within cutset post s :
  within cutset post ->
  strings.trimRightASCII (s ++ post) cutset = strings.trimRightASCII s cutset.
Proof.
  intros H. induction s as [|c s IH]; cbn [String.append].
  - now apply trimRight_all.
  - cbn [strings.trimRightASCII]. now rewrite IH.
Qed.

Lemma trim_commute cutset s :
  strings.trimLeftASCII (strings.trimRightASCII s cutset) cutset
  = strings.trimRightASCII (strings.trimLeftASCII s cutset) cutset.
Proof.
  induction s as [|c t IH]; [reflexivity|].
  cbn [strings.trimLeftASCII strings.trimRightASCII].
  destruct (strings.contains cutset c) eqn:Hc.
  - rewrite <- IH. destruct (strings.trimRightASCII t cutset) as [|a r]; [reflexivity|].
    cbn [strings.trimLeftASCII]. now rewrite Hc.
  - cbn [strings.trimRightASCII].
    destruct (strings.trimRightASCII t cutset) as [|a r];
      cbn [strings.trimLeftASCII]; now rewrite Hc.
Qed.

Lemma Trim_within cutset pre s post :
  within cutset pre -> within cutset post ->
  strings.Trim (pre ++ s ++ post) cutset = strings.Trim s cutset.
Proof.
  intros Hpre Hpost. unfold strings.Trim.
  rewrite trim_commute, (trimLeft_within _ _ _ Hpre), <- trim_commute.
  now rewrite (trimRight_within _ _ _ Hpost).
Qed.

(** ** Splitting *)

Lemma Split_app a sep b :
  strings.Split (a ++ String sep b) sep = strings.Split a sep ++ strings.Split b sep.
Proof.
  induction a as [|c t IH]; cbn [String.append strings.Split].
  - now rewrite Ascii.eqb_refl.
  - destruct (c =? sep)%char; [now rewrite IH|]. rewrite IH.
    pose proof (Split_nonempty t sep). destruct (strings.Split t sep); [congruence|].
    reflexivity.
Qed.

Lemma Split_none s sep : ~ In sep (bytes s) -> strings.Split s sep = [s].
Proof.
  induction s as [|c t IH]; intros H; [reflexivity|]. cbn [strings.Split].
  destruct (Ascii.eqb_spec c sep) as [->|_]; [exfalso; apply H; now left|].
  rewrite IH; [reflexivity|]. intros Hin. apply H. now right.
Qed.

Lemma trimLeft_incl cutset s c :
  In c (bytes (strings.trimLeftASCII s cutset)) -> In c (bytes s).
Proof.
  induction s as [|d t IH]; [auto|]. cbn [strings.trimLeftASCII].
  destruct (strings.contains cutset d); [|auto]. intros H. right. now apply IH.
Qed.

Lemma trimRight_incl cutset s c :
  In c (bytes (strings.trimRightASCII s cutset)) -> In c (bytes s).
Proof.
  induction s as [|d t IH]; [auto|]. cbn [strings.trimRightASCII].
  destruct (strings.trimRightASCII t cutset) as [|a r].
  - destruct (strings.contains cutset d); [intros [] |].
    intros [<-|[]]. now left.
  - intros [<-|H]; [now left|]. right. now apply IH.
Qed.

Lemma Split_head_incl s sep c :
  In c (bytes (hd "" (strings.Split s sep))) -> In c (bytes s).
Proof.
  induction s as [|d t IH]; [auto|]. cbn [strings.Split].
  destruct (d =? sep)%char; [intros []|].
  pose proof (Split_nonempty t sep). destruct (strings.Split t sep) as [|h r]; [congruence|].
  cbn [hd] in *. intros [<-|H']; [now left|]. right. now apply IH.
Qed.

(** ** The loop up to 64 labels *)

Lemma labelsLoop_full pre : forall out m rest,
  (length out < 64)%nat ->
  labelsLoop pre out = Some m -> length m = 64%nat ->
  labelsLoop (pre ++ rest) out = Some m.
Proof.
  induction pre as [|entry pre IH]; intros out m rest Hlen; cbn [labelsLoop app].
  - intros E. injection E as <-. lia.
  - destruct (entry =? "")%string; [discriminate|].
    destruct (negb _); [discriminate|]. cbv zeta.
    destruct (_ || _); [discriminate|].
    match goal with |- context [mapSet out ?k ?v] => set (out' := mapSet out k v) end.
    destruct (Nat.leb_spec 64 (length out')) as [Hfull|Hroom]; [auto|].
    intros E Hm. apply IH; assumption.
Qed.

(** X16.  [getLabels] returns either [nil] or a map of 1 to 64 labels
    (never an empty map): the test [len(labels) > 0] of its caller
    holds exactly when the result is not [nil]. *)

Theorem labels_nil_or_one_to_64 env :
  (getLabels env = None
   \/ exists out, getLabels env = Some out
                  /\ (1 <= length out <= 64)%nat /\ NoDup (map fst out))
  /\ ((0 <? len (getLabels env))%nat = true <-> getLabels env <> None).
Proof.
  assert (H : getLabels env = None
              \/ exists out, getLabels env = Some out
                   /\ (1 <= length out <= 64)%nat /\ NoDup (map fst out)).
  { destruct (getLabels env) as [out|] eqn:E; [right | now left].
    exists out. split; [reflexivity|]. unfold getLabels in E.
    assert (H0 : (@length (string * string) [] < 64)%nat) by (cbn; lia).
    destruct (labelsLoop_size _ [] out H0 (NoDup_nil _) E) as (Hlen & Hnd & Hpos).
    split; [|exact Hnd]. split; [|lia]. apply Hpos, Split_nonempty. }
  split; [exact H|].
  destruct H as [-> | (out & -> & Hlen & _)]; cbn [len].
  - split; [discriminate | congruence].
  - split; [discriminate|]. intros _. apply Nat.ltb_lt. lia.
Qed.

(** X17.  Every key and every value of the map that [getLabels] returns
    is non-empty and has at most 255 runes. *)



(** X18.  Semicolons and white space ([\t\n\v\f\r] and the space) around
    the value are ignored: they change nothing of what [getLabels]
    returns; and a value made of nothing else, the empty one included,
    gives [nil]. *)

Theorem labels_ignore_outer_separators pre env post :
  within labelCutset pre -> within labelCutset post ->
  getLabels (pre ++ env ++ post) = getLabels env
  /\ getLabels pre = None.
Proof.
  intros Hpre Hpost. unfold getLabels. split.
  - now rewrite Trim_within.
  - unfold strings.Trim. rewrite (trimRight_all _ _ Hpre). reflexivity.
Qed.

Lemma labels_ignore_outer_separators_witness :
  within labelCutset "; " /\ within labelCutset ";;"
  /\ getLabels ("; " ++ "a:b;c:d" ++ ";;") = getLabels "a:b;c:d"
  /\ getLabels "a:b;c:d" = Some [("a", "b"); ("c", "d")].
Proof.
  assert (H1 : within labelCutset "; ")
    by (intros c [<-|[<-|[]]]; reflexivity).
  assert (H2 : within labelCutset ";;")
    by (intros c [<-|[<-|[]]]; reflexivity).
  split; [exact H1|]. split; [exact H2|]. split.
  - exact (proj1 (labels_ignore_outer_separators "; " "a:b;c:d" ";;" H1 H2)).
  - reflexivity.
Defined.

(** X19.  The loop stops at 64 labels: when the entries up to some
    semicolon already give 64 labels, what follows it is not read, be
    it ill-formed (for a value without outer semicolons or white
    space, which [strings.Trim] has nothing to take from). *)

Theorem labels_stop_at_64 a b m :
  strings.Trim a labelCutset = a ->
  strings.Trim (a ++ ";" ++ b) labelCutset = (a ++ ";" ++ b)%string ->
  getLabels a = Some m -> length m = 64%nat ->
  getLabels (a ++ ";" ++ b) = Some m.
Proof.
  unfold getLabels. intros -> -> E Hm.
  change (";" ++ b)%string with (String ";" b). rewrite Split_app.
  apply labelsLoop_full; [cbn; lia | exact E | exact Hm].
Qed.

Lemma labels_stop_at_64_witness :
  strings.Trim (manyLabels 64) labelCutset = manyLabels 64
  /\ strings.Trim (manyLabels 64 ++ ";" ++ "no colon;;") labelCutset
     <> (manyLabels 64 ++ ";" ++ "no colon;;")%string
  /\ strings.Trim (manyLabels 64 ++ ";" ++ "no colon;;x") labelCutset
     = (manyLabels 64 ++ ";" ++ "no colon;;x")%string
  /\ len (getLabels (manyLabels 64)) = 64%nat
  /\ getLabels (manyLabels 64 ++ ";" ++ "no colon;;x") = getLabels (manyLabels 64)
  /\ getLabels (manyLabels 63 ++ ";" ++ "no colon;;x") = None.
Proof.
  assert (H1 : strings.Trim (manyLabels 64) labelCutset = manyLabels 64)
    by (vm_compute; reflexivity).
  assert (H2 : strings.Trim (manyLabels 64 ++ ";" ++ "no colon;;x") labelCutset
               = (manyLabels 64 ++ ";" ++ "no colon;;x")%string)
    by (vm_compute; reflexivity).
  destruct (getLabels (manyLabels 64)) as [m|] eqn:E; [|vm_compute in E; discriminate].
  assert (H3 : length m = 64%nat).
  { vm_compute in E. injection E as <-. reflexivity. }
  split; [exact H1|]. split; [vm_compute; discriminate|]. split; [exact H2|].
  split; [exact H3|]. split.
  - exact (labels_stop_at_64 _ _ m H1 H2 E H3).
  - vm_compute. reflexivity.
Defined.

(** X20.  A value without any colon gives [nil], whatever else it
    holds. *)

Theorem labels_need_a_colon env :
  ~ In ":"%char (bytes env) -> getLabels env = None.
Proof.
  intros H. unfold getLabels.
  set (entries := strings.Split (strings.Trim env labelCutset) ";").
  assert (Hhd : ~ In ":"%char (bytes (hd "" entries))).
  { intros Hin. apply H. apply Split_head_incl in Hin. unfold strings.Trim in Hin.
    eapply trimRight_incl, trimLeft_incl, Hin. }
  pose proof (Split_nonempty (strings.Trim env labelCutset) ";") as Hne.
  fold entries in Hne. destruct entries as [|entry rest]; [congruence|].
  cbn [hd] in Hhd. cbn [labelsLoop].
  destruct (entry =? "")%string; [reflexivity|].
  rewrite (Split_none _ _ Hhd). reflexivity.
Qed.

Lemma labels_need_a_colon_witness :
  ~ In ":"%char (bytes "team=core;env=prod")
  /\ getLabels "team=core;env=prod" = None.
Proof.
  assert (H : ~ In ":"%char (bytes "team=core;env=prod"))
    by (cbv; intuition discriminate).
  split; [exact H | exact (labels_need_a_colon _ H)].
Defined.

(** X21.  Lines 77-83 of [main]: with [NEW_RELIC_LABELS] empty the
    configuration is left alone; otherwise either [cfg.Labels] gets a
    map of 1 to 64 labels and [cfg.Error] is left alone, or
    [getLabels] gave [nil] and [cfg.Error] gets the text
    ["invalid NEW_RELIC_LABELS value: "] followed by the value, the
    labels being left alone.  An empty map is never assigned. *)

Theorem labels_or_error envLabels cfg :
  (envLabels = "" -> configureLabels envLabels cfg = cfg)
  /\ (forall out,
         envLabels <> "" -> getLabels envLabels = Some out ->
         configureLabels envLabels cfg = mkConfig (Some out) (Error cfg)
         /\ (1 <= length out <= 64)%nat)
  /\ (envLabels <> "" -> getLabels envLabels = None ->
      configureLabels envLabels cfg
      = mkConfig (Labels cfg)
          (Some ("invalid NEW_RELIC_LABELS value: " ++ envLabels)%string)).
Proof.
  unfold configureLabels. split; [intros ->; reflexivity|]. split.
  - intros out Hs E. apply String.eqb_neq in Hs. rewrite Hs. cbn [negb].
    assert (H0 : (@length (string * string) [] < 64)%nat) by (cbn; lia).
    pose proof E as E'. unfold getLabels in E'.
    destruct (labelsLoop_size _ [] out H0 (NoDup_nil _) E') as (Hlen & _ & Hpos).
    specialize (Hpos (Split_nonempty _ _)).
    rewrite E. cbn [len]. destruct (Nat.ltb_spec 0 (length out)); [|lia].
    split; [reflexivity | lia].
  - intros Hs E. apply String.eqb_neq in Hs. rewrite Hs, E. reflexivity.
Qed.

Lemma labels_or_error_witness :
  "a:b" <> "" /\ getLabels "a:b" = Some [("a", "b")]
  /\ configureLabels "a:b" (mkConfig None None)
     = mkConfig (Some [("a", "b")]) None
  /\ "a:b:c" <> "" /\ getLabels "a:b:c" = None
  /\ configureLabels "a:b:c" (mkConfig None None)
     = mkConfig None (Some "invalid NEW_RELIC_LABELS value: a:b:c").
Proof.
  assert (H1 : "a:b" <> "") by discriminate.
  assert (H2 : getLabels "a:b" = Some [("a", "b")]) by reflexivity.
  assert (H3 : "a:b:c" <> "") by discriminate.
  assert (H4 : getLabels "a:b:c" = None) by reflexivity.
  split; [exact H1|]. split; [exact H2|]. split.
  - exact (proj1 (proj1 (proj2 (labels_or_error "a:b" (mkConfig None None))) _ H1 H2)).
  - split; [exact H3|]. split; [exact H4|].
    exact (proj2 (proj2 (labels_or_error "a:b:c" (mkConfig None None))) H3 H4).
Defined.

(** ** Labels read back *)

Lemma bytes_app a b : bytes (a ++ b)%string = bytes a ++ bytes b.
Proof.
  unfold bytes. induction a as [|c a IH]; cbn; [reflexivity | now rewrite IH].
Qed.

Lemma append_assoc (a b c : string) : ((a ++ b) ++ c = a ++ (b ++ c))%string.
Proof. induction a as [|x a IH]; cbn; [reflexivity | now rewrite IH]. Qed.

Lemma string_of_bytes s : string_of_list_ascii (bytes s) = s.
Proof. apply string_of_list_ascii_of_string. Qed.

Lemma blank_ascii c : strings.asciiSpace c = true -> (128 <=? byteval c)%N = false.
Proof.
  unfold strings.asciiSpace. cbv zeta. intros H.
  repeat (apply orb_true_iff in H as [H|H]);
    apply N.eqb_eq in H; rewrite H; reflexivity.
Qed.

Lemma blank_not c sep :
  strings.asciiSpace c = true -> strings.asciiSpace sep = false -> c <> sep.
Proof. intros H1 H2 ->. congruence. Qed.

Lemma trimSpaceRight_blank bl : forall r,
  (forall c, In c bl -> strings.asciiSpace c = true) ->
  strings.trimSpaceRight (bl ++ r) = strings.trimSpaceRight r.
Proof.
  induction bl as [|c bl IH]; intros r H; [reflexivity|].
  cbn [app strings.trimSpaceRight]. unfold utf8.RuneSelf.
  rewrite (blank_ascii c) by (apply H; now left).
  rewrite (H c) by now left. apply IH. intros d Hd. apply H. now right.
Qed.

Lemma trimSpaceLeft_blank bl : forall s,
  (forall c, In c bl -> strings.asciiSpace c = true) ->
  strings.trimSpaceLeft (bl ++ s) = strings.trimSpaceLeft s.
Proof.
  induction bl as [|c bl IH]; intros s H; [reflexivity|].
  cbn [app strings.trimSpaceLeft]. unfold utf8.RuneSelf.
  rewrite (blank_ascii c) by (apply H; now left).
  rewrite (H c) by now left. apply IH. intros d Hd. apply H. now right.
Qed.

(** White space around a plain side is all that [TrimSpace] takes. *)
Lemma TrimSpace_plain a s b :
  blank a -> plain s -> blank b -> strings.TrimSpace (a ++ s ++ b) = s.
Proof.
  intros Ha (Hhd & Hlast & Hne & _) Hb. unfold strings.TrimSpace.
  rewrite !bytes_app, trimSpaceLeft_blank by exact Ha.
  destruct (bytes s) as [|c t] eqn:Hs.
  { exfalso. apply Hne. rewrite <- (string_of_bytes s), Hs. reflexivity. }
  cbn [app strings.trimSpaceLeft]. cbn [hd] in Hhd. unfold visibleByte in Hhd, Hlast.
  apply andb_true_iff in Hhd as [H1 H2]. apply N.ltb_lt in H1.
  unfold utf8.RuneSelf. destruct (N.leb_spec 128 (byteval c)); [lia|].
  apply negb_true_iff in H2. rewrite H2.
  change (c :: t ++ bytes b) with ((c :: t) ++ bytes b).
  rewrite rev_app_distr, trimSpaceRight_blank
    by (intros d Hd; apply Hb; now apply in_rev).
  destruct (rev (c :: t)) as [|d r] eqn:Hr.
  { apply (f_equal (@length ascii)) in Hr. rewrite length_rev in Hr. discriminate. }
  cbn [hd] in Hlast. apply andb_true_iff in Hlast as [H3 H4]. apply N.ltb_lt in H3.
  cbn [strings.trimSpaceRight]. unfold utf8.RuneSelf.
  destruct (N.leb_spec 128 (byteval d)); [lia|].
  apply negb_true_iff in H4. rewrite H4, <- Hr, rev_involutive, <- Hs.
  apply string_of_bytes.
Qed.

Lemma blank_without ws sep :
  blank ws -> strings.asciiSpace sep = false -> ~ In sep (bytes ws).
Proof. intros H Hs Hin. specialize (H _ Hin). congruence. Qed.

Lemma clip_plain s : (utf8.RuneCountInString s <= 255)%nat -> clip s = s.
Proof.
  intros H. unfold clip. destruct (Nat.ltb_spec 255 (utf8.RuneCountInString s)); [lia|].
  reflexivity.
Qed.

Lemma entry_split w :
  wellWritten w ->
  entryText w <> ""
  /\ ~ In ";"%char (bytes (entryText w))
  /\ strings.Split (entryText w) ":"
     = [(lead w ++ wkey w ++ mid1 w)%string; (mid2 w ++ wval w ++ trail w)%string].
Proof.
  intros ((_ & _ & Hkne & Hk1 & Hk2 & _) & (_ & _ & _ & Hv1 & Hv2 & _)
          & Ha & Hb & Hc & Hd).
  unfold entryText. split; [|split].
  - intros E. apply (f_equal bytes) in E. rewrite !bytes_app in E.
    apply app_eq_nil in E as [_ E]. apply app_eq_nil in E as [E _].
    apply Hkne. rewrite <- (string_of_bytes (wkey w)), E. reflexivity.
  - rewrite !bytes_app. intros Hin.
    repeat (apply in_app_or in Hin as [Hin|Hin]);
      try (eapply blank_without; [| |exact Hin]; [eassumption | reflexivity]);
      try contradiction.
    destruct Hin as [E|[]]. discriminate.
  - replace (lead w ++ wkey w ++ mid1 w ++ ":" ++ mid2 w ++ wval w ++ trail w)%string
      with ((lead w ++ wkey w ++ mid1 w) ++ String ":" (mid2 w ++ wval w ++ trail w))%string
      by (rewrite !append_assoc; reflexivity).
    rewrite Split_app, !Split_none; [reflexivity| |].
    + rewrite !bytes_app. intros Hin.
      repeat (apply in_app_or in Hin as [Hin|Hin]);
        try (eapply blank_without; [| |exact Hin]; [eassumption | reflexivity]);
        contradiction.
    + rewrite !bytes_app. intros Hin.
      repeat (apply in_app_or in Hin as [Hin|Hin]);
        try (eapply blank_without; [| |exact Hin]; [eassumption | reflexivity]);
        contradiction.
Qed.

Lemma labelsLoop_written ws : forall out,
  Forall wellWritten ws -> (length out + length ws <= 64)%nat ->
  labelsLoop (map entryText ws) out
  = Some (fold_left (fun out w => mapSet out (wkey w) (wval w)) ws out).
Proof.
  induction ws as [|w ws IH]; intros out Hws Hlen; [reflexivity|].
  inversion Hws as [|? ? Hw Hrest]; subst.
  destruct (entry_split w Hw) as (Hne & _ & Hsplit).
  pose proof Hw as (Hk & Hv & Ha & Hb & Hc & Hd).
  cbn [map labelsLoop fold_left]. apply String.eqb_neq in Hne. rewrite Hne, Hsplit.
  cbn [length Nat.eqb negb nth].
  rewrite (TrimSpace_plain _ _ _ Ha Hk Hb), (TrimSpace_plain _ _ _ Hc Hv Hd).
  destruct Hk as (_ & _ & Hkne & _ & _ & Hkc). destruct Hv as (_ & _ & Hvne & _ & _ & Hvc).
  apply String.eqb_neq in Hkne, Hvne. rewrite Hkne, Hvne. cbn [orb].
  rewrite (clip_plain _ Hkc), (clip_plain _ Hvc).
  pose proof (mapSet_length out (wkey w) (wval w)) as [Hl _].
  cbn [length] in Hlen.
  destruct (Nat.leb_spec 64 (length (mapSet out (wkey w) (wval w)))) as [Hfull|Hroom].
  - destruct ws; [reflexivity | cbn [length] in Hlen; lia].
  - apply IH; [exact Hrest | lia].
Qed.

Lemma Split_join es :
  es <> [] -> Forall (fun e => ~ In ";"%char (bytes e)) es ->
  strings.Split (joinEntries es) ";" = es.
Proof.
  induction es as [|e es IH]; intros Hne H; [congruence|].
  inversion H as [|? ? He Hes]; subst.
  destruct es as [|e' es]; [apply Split_none, He|].
  change (joinEntries (e :: e' :: es))
    with (e ++ String ";" (joinEntries (e' :: es)))%string.
  rewrite Split_app, (Split_none _ _ He), IH; [reflexivity | discriminate | exact Hes].
Qed.

Lemma mapSet_fresh out key val :
  ~ In key (map fst out) -> mapSet out key val = out ++ [(key, val)].
Proof.
  induction out as [|[k v] t IH]; intros H; [reflexivity|]. cbn [mapSet app].
  destruct (String.eqb_spec k key) as [->|_]; [exfalso; apply H; now left|].
  rewrite IH; [reflexivity|]. intros Hin. apply H. now right.
Qed.

Lemma labelsOf_distinct ws : forall out,
  NoDup (map fst out ++ map wkey ws) ->
  fold_left (fun out w => mapSet out (wkey w) (wval w)) ws out
  = out ++ map (fun w => (wkey w, wval w)) ws.
Proof.
  induction ws as [|w ws IH]; intros out H; cbn [fold_left map].
  - now rewrite app_nil_r.
  - assert (Hfresh : ~ In (wkey w) (map fst out)).
    { intros Hin. apply NoDup_remove_2 in H. apply H, in_or_app. now left. }
    rewrite (mapSet_fresh _ _ _ Hfresh), IH.
    + rewrite <- app_assoc. reflexivity.
    + rewrite map_app. cbn [map fst]. rewrite <- app_assoc. exact H.
Qed.

Lemma append_nil_r (s : string) : (s ++ "")%string = s.
Proof. induction s as [|c s IH]; cbn; [reflexivity | now rewrite IH]. Qed.

Lemma blank_within s : blank s -> within labelCutset s.
Proof.
  intros H c Hc. specialize (H c Hc). revert H. clear.
  destruct c as [[] [] [] [] [] [] [] []]; cbv; intros H;
    first [reflexivity | discriminate].
Qed.

Lemma visible_outside c :
  visibleByte c = true -> c <> ";"%char -> strings.contains labelCutset c = false.
Proof.
  destruct c as [[] [] [] [] [] [] [] []]; cbv; intros H1 H2;
    first [reflexivity | discriminate | congruence].
Qed.

Lemma trimLeft_plain k s :
  plain k -> strings.trimLeftASCII (k ++ s) labelCutset = (k ++ s)%string.
Proof.
  intros (Hhd & _ & Hne & Hsemi & _). destruct k as [|c t]; [congruence|].
  cbn [String.append strings.trimLeftASCII]. cbn in Hhd.
  rewrite visible_outside; [reflexivity | exact Hhd |].
  intros ->. apply Hsemi. now left.
Qed.

Lemma trimRight_last v :
  v <> "" ->
  strings.contains labelCutset (hd zero (rev (bytes v))) = false ->
  strings.trimRightASCII v labelCutset = v.
Proof.
  induction v as [|c t IH]; intros Hne Hlast; [congruence|].
  cbn [strings.trimRightASCII]. destruct t as [|d t'].
  - cbn in Hlast. cbn. now rewrite Hlast.
  - rewrite IH; [reflexivity | discriminate |].
    change (bytes (String c (String d t'))) with (c :: bytes (String d t')) in Hlast.
    cbn [rev] in Hlast.
    destruct (rev (bytes (String d t'))) as [|x r] eqn:Hr; [|exact Hlast].
    apply (f_equal (@length ascii)) in Hr. rewrite length_rev in Hr. discriminate.
Qed.

Lemma trimRight_plain s v :
  plain v -> strings.trimRightASCII (s ++ v) labelCutset = (s ++ v)%string.
Proof.
  intros (_ & Hlast & Hne & Hsemi & _).
  assert (Hv : strings.trimRightASCII v labelCutset = v).
  { apply trimRight_last; [exact Hne|]. apply visible_outside; [exact Hlast|].
    intros E. apply Hsemi. rewrite in_rev.
    destruct (rev (bytes v)) as [|x r] eqn:Hr.
    - apply (f_equal (@length ascii)) in Hr. rewrite length_rev in Hr.
      destruct v; [congruence | discriminate].
    - cbn in E. subst x. now left. }
  induction s as [|c s IH]; [exact Hv|].
  cbn [String.append strings.trimRightASCII]. rewrite IH.
  destruct (s ++ v)%string eqn:E; [|reflexivity].
  destruct s; cbn in E; [congruence | discriminate].
Qed.

Lemma joinEntries_cons e es :
  es <> [] -> joinEntries (e :: es) = (e ++ ";" ++ joinEntries es)%string.
Proof. destruct es; [congruence | reflexivity]. Qed.

(** The white space after the last value set apart. *)
Lemma trail_apart ws :
  ws <> [] -> Forall wellWritten ws ->
  exists ws' b,
    blank b
    /\ joinEntries (map entryText ws) = (joinEntries (map entryText ws') ++ b)%string
    /\ Forall wellWritten ws'
    /\ map (fun w => (wkey w, wval w)) ws' = map (fun w => (wkey w, wval w)) ws
    /\ map lead ws' = map lead ws
    /\ exists P v, plain v /\ joinEntries (map entryText ws') = (P ++ v)%string.
Proof.
  induction ws as [|w ws IH]; intros Hne Hws; [congruence|].
  inversion Hws as [|? ? Hw Hrest]; subst.
  destruct ws as [|w2 r].
  - exists [mkLabelText (lead w) (wkey w) (mid1 w) (mid2 w) (wval w) ""], (trail w).
    pose proof Hw as (Hk & Hv & Ha & Hb & Hc & Hd).
    split; [exact Hd|]. split.
    { cbn [map joinEntries]. unfold entryText.
      cbn [lead wkey mid1 mid2 wval trail].
      rewrite append_nil_r, !append_assoc. reflexivity. }
    split.
    { constructor; [|constructor]. unfold wellWritten.
      cbn [lead wkey mid1 mid2 wval trail].
      repeat split; try assumption; try apply Hk; try apply Hv. intros c []. }
    split; [reflexivity|]. split; [reflexivity|].
    exists (lead w ++ wkey w ++ mid1 w ++ ":" ++ mid2 w)%string, (wval w).
    split; [exact Hv|]. cbn [map joinEntries]. unfold entryText.
    cbn [lead wkey mid1 mid2 wval trail].
    rewrite append_nil_r, !append_assoc. reflexivity.
  - destruct IH as (ws' & b & Hb & Hjoin & Hws' & Hkv & Hlead & P & v & Hv & HP);
      [discriminate | exact Hrest |].
    assert (Hne' : map entryText ws' <> []).
    { destruct ws'; [discriminate Hkv | discriminate]. }
    exists (w :: ws'), b. split; [exact Hb|]. split.
    { cbn [map]. rewrite (joinEntries_cons (entryText w) _ Hne').
      rewrite joinEntries_cons by discriminate.
      cbn [map] in Hjoin. rewrite Hjoin, !append_assoc. reflexivity. }
    split; [constructor; assumption|].
    split; [cbn [map]; now rewrite Hkv|].
    split; [cbn [map]; now rewrite Hlead|].
    exists (entryText w ++ ";" ++ P)%string, v. split; [exact Hv|].
    cbn [map]. rewrite joinEntries_cons by assumption.
    rewrite HP, !append_assoc. reflexivity.
Qed.

Lemma labelsOf_pairs ws : forall out,
  fold_left (fun out w => mapSet out (wkey w) (wval w)) ws out
  = fold_left (fun out kv => mapSet out (fst kv) (snd kv))
      (map (fun w => (wkey w, wval w)) ws) out.
Proof. induction ws as [|w ws IH]; intros out; [reflexivity | apply IH]. Qed.

(** The labels between the outer white space, which [strings.Trim]
    leaves as they are. *)
Lemma outer_blanks ws :
  ws <> [] -> Forall wellWritten ws ->
  exists a ws' b,
    blank a /\ blank b
    /\ joinEntries (map entryText ws)
       = (a ++ joinEntries (map entryText ws') ++ b)%string
    /\ Forall wellWritten ws'
    /\ map (fun w => (wkey w, wval w)) ws' = map (fun w => (wkey w, wval w)) ws
    /\ strings.Trim (joinEntries (map entryText ws')) labelCutset
       = joinEntries (map entryText ws').
Proof.
  intros Hne Hws. destruct ws as [|w rest]; [congruence|].
  inversion Hws as [|? ? Hw Hrest]; subst.
  pose proof Hw as (Hk & Hv & Ha & Hb & Hc & Hd).
  set (w0 := mkLabelText "" (wkey w) (mid1 w) (mid2 w) (wval w) (trail w)).
  assert (Hw0 : wellWritten w0).
  { unfold wellWritten, w0. cbn [lead wkey mid1 mid2 wval trail].
    repeat split; try assumption; try apply Hk; try apply Hv. intros c []. }
  assert (Hstrip : joinEntries (map entryText (w :: rest))
                   = (lead w ++ joinEntries (map entryText (w0 :: rest)))%string).
  { cbn [map]. destruct rest as [|w2 r].
    - reflexivity.
    - rewrite !joinEntries_cons by discriminate.
      unfold entryText at 1 3. unfold w0 at 1. cbn [lead wkey mid1 mid2 wval trail].
      rewrite !append_assoc. reflexivity. }
  destruct (trail_apart (w0 :: rest)) as
    (ws' & b & Hbb & Hjoin & Hws' & Hkv & Hlead & P & v & Hpv & HP);
    [discriminate | constructor; assumption |].
  exists (lead w), ws', b. split; [exact Ha|]. split; [exact Hbb|].
  split; [rewrite Hstrip, Hjoin; reflexivity|].
  split; [exact Hws'|]. split; [exact Hkv|].
  unfold strings.Trim. rewrite HP, (trimRight_plain P v Hpv), <- HP.
  destruct ws' as [|w1 rest']; [discriminate Hkv|].
  cbn [map] in Hlead, Hkv. injection Hlead as Hl1 _. injection Hkv as Hk1 _ _.
  inversion Hws' as [|? ? Hw1 _]; subst.
  assert (Hhead : exists T, joinEntries (map entryText (w1 :: rest'))
                            = (wkey w1 ++ T)%string).
  { cbn [map]. destruct (map entryText rest') as [|e es] eqn:E.
    - eexists. cbn [joinEntries]. unfold entryText. rewrite Hl1. reflexivity.
    - eexists. rewrite joinEntries_cons by discriminate.
      unfold entryText at 1. rewrite Hl1. cbn [String.append].
      rewrite !append_assoc. reflexivity. }
  destruct Hhead as [T ->]. apply trimLeft_plain. apply Hw1.
Qed.

(** X22.  Labels read back.  For up to 64 labels written as
    [key:value], separated by semicolons, with or without ASCII white
    space around the keys and the values (before the first key and
    after the last value too), each key and each value being plain
    (starting and ending with a visible ASCII byte, free of [;] and
    [:], of at most 255 runes), [getLabels] returns the map that holds
    exactly these labels, a key that occurs again taking the later
    value; with distinct keys, the labels as written. *)

Theorem labels_read_back ws :
  ws <> [] -> (length ws <= 64)%nat -> Forall wellWritten ws ->
  getLabels (joinEntries (map entryText ws)) = Some (labelsOf ws)
  /\ (NoDup (map wkey ws) ->
      getLabels (joinEntries (map entryText ws))
      = Some (map (fun w => (wkey w, wval w)) ws)).
Proof.
  intros Hne Hlen Hws.
  assert (H : getLabels (joinEntries (map entryText ws)) = Some (labelsOf ws)).
  { destruct (outer_blanks ws Hne Hws)
      as (a & ws' & b & Ha & Hb & -> & Hws' & Hkv & Htrim).
    unfold getLabels.
    rewrite (Trim_within _ _ _ _ (blank_within _ Ha) (blank_within _ Hb)), Htrim.
    assert (Hlen' : length ws' = length ws).
    { rewrite <- (length_map (fun w => (wkey w, wval w)) ws'), Hkv. apply length_map. }
    rewrite Split_join.
    - rewrite labelsLoop_written; [|exact Hws' | cbn; lia].
      unfold labelsOf. now rewrite !labelsOf_pairs, Hkv.
    - destruct ws'; [destruct ws; [congruence | discriminate Hkv] | discriminate].
    - apply Forall_map. eapply Forall_impl; [|exact Hws'].
      intros w Hw. apply (entry_split w Hw). }
  split; [exact H|]. intros Hnd. rewrite H. unfold labelsOf.
  now rewrite (labelsOf_distinct ws []).
Qed.

Lemma labels_read_back_witness :
  [mkLabelText " " "team" " " " " "core" "";
   mkLabelText " " "env" "" "" "prod" " "] <> []
  /\ joinEntries (map entryText
       [mkLabelText " " "team" " " " " "core" "";
        mkLabelText " " "env" "" "" "prod" " "])
     = " team : core; env:prod "
  /\ getLabels " team : core; env:prod " = Some [("team", "core"); ("env", "prod")].
Proof.
  set (ws := [mkLabelText " " "team" " " " " "core" "";
              mkLabelText " " "env" "" "" "prod" " "]).
  assert (H1 : ws <> []) by discriminate.
  assert (H2 : (length ws <= 64)%nat) by (cbn; lia).
  assert (Hplain : forall s,
            In s ["team"; "core"; "env"; "prod"] -> plain s).
  { intros s Hs. cbn [In] in Hs.
    destruct Hs as [<-|[<-|[<-|[<-|[]]]]];
      (split; [reflexivity|]; split; [reflexivity|]; split; [discriminate|];
       split; [cbv; intuition discriminate|];
       split; [cbv; intuition discriminate | vm_compute; lia]). }
  assert (Hblank : forall s, In s [""; " "] -> blank s).
  { intros s Hs c Hc. cbn [In] in Hs. destruct Hs as [<-|[<-|[]]].
    - destruct Hc.
    - destruct Hc as [<-|[]]. reflexivity. }
  assert (H3 : Forall wellWritten ws).
  { repeat constructor; cbn [wkey wval lead mid1 mid2 trail];
      first [ apply Hplain; cbn [In]; tauto | apply Hblank; cbn [In]; tauto ]. }
  split; [exact H1|]. split; [reflexivity|].
  assert (Hnd : NoDup (map wkey ws)).
  { cbn. repeat constructor; cbn [In]; intuition discriminate. }
  exact (proj2 (labels_read_back ws H1 H2 H3) Hnd).
Defined.

(* ================================================================== *)
(** * Facts about [cpuBurn] and the process *)

Import process.

Lemma spawn_range fuel : forall i n,
  0 <= i -> (Z.to_nat (n - i) <= fuel)%nat ->
  spawn fuel i n = map Z.of_nat (seq (Z.to_nat i) (Z.to_nat (n - i))).
Proof.
  induction fuel as [|fuel IH]; intros i n Hi Hf; cbn [spawn].
  - replace (Z.to_nat (n - i)) with 0%nat by lia. reflexivity.
  - destruct (Z.ltb_spec i n) as [Hlt|Hge].
    + rewrite IH by lia.
      replace (Z.to_nat (n - i)) with (S (Z.to_nat (n - (i + 1)))) by lia.
      cbn [seq map]. rewrite Z2Nat.id by lia.
      replace (Z.to_nat (i + 1)) with (S (Z.to_nat i)) by lia. reflexivity.
    + replace (Z.to_nat (n - i)) with 0%nat by lia. reflexivity.
Qed.

(** X23.  [cpuBurn] with the empty flag starts nothing and logs nothing;
    with [all] it takes [runtime.NumCPU()], with a decimal integer that
    number: it logs it and starts one goroutine for each of
    [0, ..., numCPU - 1], none when the number is zero or negative;
    with anything else it ends the process by [log.Fatal], with
    status 1 and the error of [strconv.Atoi], having started
    nothing. *)

Theorem cpu_burn_workers printable NumCPU numCPUBurn :
  (numCPUBurn = "" -> cpuBurn printable NumCPU numCPUBurn = Started [] [])
  /\ (forall numCPU,
         (numCPUBurn = "all" /\ numCPU = NumCPU)
         \/ (numCPUBurn <> "all" /\ strconv.Atoi numCPUBurn = inl numCPU) ->
         cpuBurn printable NumCPU numCPUBurn
         = Started [Log (Printf "Burning %d CPUs" [OpInt numCPU])]
             (map Z.of_nat (seq 0 (Z.to_nat numCPU))))
  /\ (forall e,
         numCPUBurn <> "" -> numCPUBurn <> "all" ->
         strconv.Atoi numCPUBurn = inr e ->
         cpuBurn printable NumCPU numCPUBurn
         = Exit [Fatal (strconv.AtoiError printable numCPUBurn e)] 1).
Proof.
  unfold cpuBurn. split; [intros ->; reflexivity|]. split.
  - intros numCPU [[-> ->] | [Hall H]].
    + cbn [String.eqb Ascii.eqb Bool.eqb]. cbv zeta.
      rewrite spawn_range by lia. rewrite Z.sub_0_r. reflexivity.
    + pose proof (Atoi_set _ _ H) as Hs. apply String.eqb_neq in Hs, Hall.
      rewrite Hs, Hall, H. rewrite spawn_range by lia. rewrite Z.sub_0_r. reflexivity.
  - intros e Hs Hall H. apply String.eqb_neq in Hs, Hall. rewrite Hs, Hall, H.
    reflexivity.
Qed.

Lemma cpu_burn_workers_witness :
  ("+3" <> "all" /\ strconv.Atoi "+3" = inl 3)
  /\ cpuBurn noTable 8 "+3"
     = Started [Log (Printf "Burning %d CPUs" [OpInt 3])] [0; 1; 2]
  /\ "ALL" <> "" /\ "ALL" <> "all"
  /\ strconv.Atoi "ALL" = inr strconv.ErrSyntax
  /\ cpuBurn noTable 8 "ALL"
     = Exit [Fatal (strconv.AtoiError noTable "ALL" strconv.ErrSyntax)] 1.
Proof.
  assert (H1 : "+3" <> "all" /\ strconv.Atoi "+3" = inl 3)
    by (split; [discriminate | reflexivity]).
  assert (H2 : "ALL" <> "") by discriminate.
  assert (H3 : "ALL" <> "all") by discriminate.
  assert (H4 : strconv.Atoi "ALL" = inr strconv.ErrSyntax) by reflexivity.
  split; [exact H1|]. split.
  - exact (proj1 (proj2 (cpu_burn_workers noTable 8 "+3")) 3 (or_intror H1)).
  - split; [exact H2|]. split; [exact H3|]. split; [exact H4|].
    exact (proj2 (proj2 (cpu_burn_workers noTable 8 "ALL")) _ H2 H3 H4).
Defined.

Section Process.

Variable printable : N -> bool.
Variable NumCPU : Z.
Variable td : Z.
Variable listenAddr : string.
Variable numCPUBurn : string.

Let pstep := process.step printable NumCPU td listenAddr numCPUBurn.
Let prun := process.run printable NumCPU td listenAddr numCPUBurn.
Let inv := invariant printable NumCPU td numCPUBurn.

Lemma workerLog_mono c c' w :
  (c = true -> c' = true) -> workerLog c w -> workerLog c' w.
Proof.
  unfold workerLog. destruct (wat w); auto. intros H [H1 H2]. auto.
Qed.

Lemma stepWorker_log closed w :
  workerLog closed w -> workerLog closed (stepWorker closed w).
Proof.
  unfold workerLog, stepWorker. destruct (wat w) eqn:Hw; cbn [wat wlog cpu].
  - intros ->. reflexivity.
  - destruct closed; cbn [wat wlog cpu]; [|now rewrite Hw].
    intros ->. split; reflexivity.
  - now rewrite Hw.
Qed.

Lemma stepAt_log closed ws : forall k,
  Forall (workerLog closed) ws -> Forall (workerLog closed) (stepAt k closed ws).
Proof.
  induction ws as [|w ws IH]; intros k H; [destruct k; constructor|].
  inversion H as [|? ? Hw Hws]; subst.
  destruct k; cbn [stepAt]; constructor; auto using stepWorker_log.
Qed.

Lemma stepAt_cpus closed ws : forall k,
  map cpu (stepAt k closed ws) = map cpu ws.
Proof.
  induction ws as [|w ws IH]; intros k; [destruct k; reflexivity|].
  destruct k; cbn [stepAt map]; [|now rewrite IH].
  unfold stepWorker. destruct (wat w); [reflexivity | destruct closed; reflexivity
                                       | reflexivity].
Qed.

(** [done], once closed, stays closed. *)
Lemma doneClosed_stays st i :
  behaviour td st -> shutdown.doneClosed st = true ->
  shutdown.step td st i = st.
Proof.
  intros H Hc. apply settled. unfold behaviour in H.
  destruct (shutdown.at_ st); try exact I; destruct H as [H _]; congruence.
Qed.

Lemma invariant_init : inv init.
Proof.
  split; [split; reflexivity|]. split; [constructor|]. split; [reflexivity|].
  cbn. split; [discriminate|]. split; [reflexivity|]. split; [intros []| exact I].
Qed.

Lemma forallb_quiet_app a b :
  forallb (fun l => negb (isFatal l)) a = true ->
  forallb (fun l => negb (isFatal l)) b = true ->
  forallb (fun l => negb (isFatal l)) (a ++ b) = true.
Proof. intros. rewrite forallb_app. now apply andb_true_iff. Qed.

Lemma invariant_step st s : inv st -> inv (pstep st s).
Proof.
  intros Hinv. pose proof Hinv as (Hb & Hw & Hs & Hst).
  unfold pstep, process.step.
  destruct (exited st) as [code|] eqn:Hex; [exact Hinv|].
  unfold standing in Hst. rewrite Hex in Hst.
  destruct Hst as (Hmain & Hquiet & Hnot & Hat).
  destruct s as [i|e| |k].
  - (* the shutdown goroutine *)
    pose proof (behaviour_step td (sd st) i Hb) as Hb'.
    split; [exact Hb'|]. split.
    { cbn [sd workers]. eapply Forall_impl; [|exact Hw].
      intros w. apply workerLog_mono. intros Hc.
      now rewrite (doneClosed_stays _ i Hb Hc). }
    split; [exact Hs|].
    unfold standing. cbn [exited mainAt mainLog sd].
    pose proof Hb' as Hb2. unfold behaviour in Hb2.
    destruct (shutdown.at_ (shutdown.step td (sd st) i)) eqn:Hat'.
    1,2,3,4: (split; [exact Hmain|]; split; [exact Hquiet|]; split; [exact Hnot | exact I]).
    + destruct Hb2 as (_ & _ & -> & _). right. left.
      split; [reflexivity|]. split; [exact Hmain|]. split; [exact Hnot|]. now right.
    + right. right. split; [reflexivity|]. split; [exact Hmain|].
      split; [exact Hnot|]. eauto.
  - (* ListenAndServe returns *)
    destruct (mainAt st) eqn:Hm; try (destruct e; exact Hinv).
    assert (Hgo : inv (mkProc (sd st) (workers st) AwaitDone (mainLog st) None)).
    { split; [exact Hb|]. split; [exact Hw|].
      split; [unfold staffed in *; cbn [mainAt workers]; rewrite Hm in Hs; exact Hs|].
      unfold standing. cbn [exited mainAt mainLog sd]. split; [discriminate|]. auto. }
    destruct e as [|text|]; try exact Hgo.
    split; [exact Hb|]. split; [exact Hw|].
    split; [unfold staffed in *; cbn [mainAt workers]; rewrite Hm in Hs; exact Hs|].
    unfold standing. cbn [exited mainAt mainLog sd]. right. left.
    split; [reflexivity|]. split; [discriminate|]. split.
    + intros Hin. apply in_app_or in Hin as [Hin|[Hin|[]]]; [auto | discriminate].
    + left. eexists _, _. split; reflexivity.
  - (* main takes a step *)
    unfold stepMain. destruct (mainAt st) eqn:Hm; try exact Hinv.
    + destruct (cpuBurn printable NumCPU numCPUBurn) as [lines cpus|lines code] eqn:Hburn.
      * split; [exact Hb|]. split.
        { cbn [workers sd]. apply Forall_forall. intros w Hin.
          apply in_map_iff in Hin as (c & <- & _). reflexivity. }
        split.
        { unfold staffed. cbn [mainAt workers]. exists lines.
          rewrite map_map. cbn [cpu]. now rewrite map_id. }
        unfold standing. cbn [exited mainAt mainLog sd].
        split; [discriminate|].
        assert (Hlines : forallb (fun l => negb (isFatal l)) lines = true
                         /\ ~ In serverStopped lines).
        { unfold cpuBurn in Hburn.
          destruct (numCPUBurn =? "")%string.
          - injection Hburn as <- _. split; [reflexivity | intros []].
          - destruct (if (numCPUBurn =? "all")%string then _ else _);
              [|discriminate].
            injection Hburn as <- _. split; [reflexivity|].
            intros [H|[]]. discriminate. }
        destruct Hlines as [Hl1 Hl2].
        split; [apply forallb_quiet_app; [exact Hquiet|];
                apply forallb_quiet_app; [exact Hl1 | reflexivity]|].
        split; [|exact Hat].
        intros Hin. apply in_app_or in Hin as [Hin|Hin]; [auto|].
        apply in_app_or in Hin as [Hin|[Hin|[]]]; [auto | discriminate].
      * split; [exact Hb|]. split; [exact Hw|].
        split; [unfold staffed in *; cbn [mainAt workers]; rewrite Hm in Hs; exact Hs|].
        unfold standing. cbn [exited mainAt mainLog sd].
        unfold cpuBurn in Hburn.
        destruct (numCPUBurn =? "")%string; [discriminate|].
        destruct (if (numCPUBurn =? "all")%string then _ else _) as [n|text];
          [discriminate|].
        injection Hburn as <- <-. right. left.
        split; [reflexivity|]. split; [discriminate|]. split.
        -- intros Hin. apply in_app_or in Hin as [Hin|[Hin|[]]]; [auto | discriminate].
        -- left. eexists _, _. split; reflexivity.
    + destruct (shutdown.doneClosed (sd st)) eqn:Hc; [|exact Hinv].
      split; [exact Hb|]. split; [cbn [sd workers]; now rewrite Hc|].
      split; [unfold staffed in *; cbn [mainAt workers]; rewrite Hm in Hs; exact Hs|].
      unfold standing. cbn [exited mainAt mainLog sd]. left.
      split; [reflexivity|]. split; [reflexivity|]. split; [exact Hc|].
      exists (mainLog st). auto.
  - (* a worker takes a step *)
    split; [exact Hb|]. split; [cbn [sd workers]; apply stepAt_log, Hw|].
    split.
    { unfold staffed in *. cbn [mainAt workers]. rewrite stepAt_cpus.
      destruct (mainAt st); [|exact Hs..]. rewrite Hs. destruct k; reflexivity. }
    unfold standing. cbn [exited mainAt mainLog sd]. auto.
Qed.

Lemma invariant_run schedule : inv (prun schedule).
Proof.
  unfold prun, process.run. generalize invariant_init. generalize init.
  induction schedule as [|s schedule IH]; intros st H; [exact H|].
  cbn [fold_left]. apply IH, invariant_step, H.
Qed.

End Process.

Lemma closed_after_shutdown td st :
  behaviour td st -> shutdown.doneClosed st = true ->
  In (shutdown.ShutdownReturned None) (shutdown.did st)
  /\ In shutdown.CloseDone (shutdown.did st)
  /\ forall err, ~ In (shutdown.ShutdownReturned (Some err)) (shutdown.did st).
Proof.
  unfold behaviour. intros H Hc.
  destruct (shutdown.at_ st); try (destruct H as [H _]; congruence).
  destruct H as (_ & _ & sig & second & ->).
  split; [destruct second; listing; tauto|].
  split; [destruct second; listing; tauto|].
  intros err. destruct second; not_there.
Qed.

(** X24.  The goroutines that burn CPU are those [cpuBurn] started, one
    per cpu.  Each logs its first line once, and its last line
    ([Stopped CPU burn]) at most once, after the first and only once
    [done] is closed, that is only after [server.Shutdown] has returned
    nil: a worker never stops while the server is up, nor after a
    shutdown that failed. *)

Theorem workers_stop_only_after_done printable NumCPU td listenAddr numCPUBurn schedule :
  Forall (workerLog (shutdown.doneClosed
                       (sd (run printable NumCPU td listenAddr numCPUBurn schedule))))
    (workers (run printable NumCPU td listenAddr numCPUBurn schedule))
  /\ staffed printable NumCPU numCPUBurn
       (run printable NumCPU td listenAddr numCPUBurn schedule)
  /\ (forall w,
         In w (workers (run printable NumCPU td listenAddr numCPUBurn schedule)) ->
         wat w = Stopped ->
         wlog w = [burningLine (cpu w); stoppedLine (cpu w)]
         /\ In (shutdown.ShutdownReturned None)
              (shutdown.did (sd (run printable NumCPU td listenAddr numCPUBurn schedule)))
         /\ In shutdown.CloseDone
              (shutdown.did (sd (run printable NumCPU td listenAddr numCPUBurn schedule)))
         /\ forall err,
              ~ In (shutdown.ShutdownReturned (Some err))
                  (shutdown.did (sd (run printable NumCPU td listenAddr numCPUBurn
                                       schedule)))).
Proof.
  destruct (invariant_run printable NumCPU td listenAddr numCPUBurn schedule)
    as (Hb & Hw & Hs & _).
  split; [exact Hw|]. split; [exact Hs|].
  intros w Hin Hstop. rewrite Forall_forall in Hw. specialize (Hw w Hin).
  unfold workerLog in Hw. rewrite Hstop in Hw. destruct Hw as [Hlog Hc].
  split; [exact Hlog|]. apply (closed_after_shutdown td); assumption.
Qed.

Lemma workers_stop_witness :
  In (mkWorker 1 Stopped [burningLine 1; stoppedLine 1])
     (workers (run noTable 4 10 ":8080" "2"
                 [MainRuns; WorkerRuns 0; WorkerRuns 1; WorkerRuns 1;
                  ToShutdown (shutdown.Quit shutdown.SIGTERM);
                  ToShutdown shutdown.Tick;
                  ToShutdown (shutdown.ShutdownReturns None);
                  WorkerRuns 1]))
  /\ wat (mkWorker 1 Stopped [burningLine 1; stoppedLine 1]) = Stopped
  /\ In shutdown.CloseDone
       (shutdown.did (sd (run noTable 4 10 ":8080" "2"
                 [MainRuns; WorkerRuns 0; WorkerRuns 1; WorkerRuns 1;
                  ToShutdown (shutdown.Quit shutdown.SIGTERM);
                  ToShutdown shutdown.Tick;
                  ToShutdown (shutdown.ShutdownReturns None);
                  WorkerRuns 1]))).
Proof.
  assert (H1 : In (mkWorker 1 Stopped [burningLine 1; stoppedLine 1])
     (workers (run noTable 4 10 ":8080" "2"
                 [MainRuns; WorkerRuns 0; WorkerRuns 1; WorkerRuns 1;
                  ToShutdown (shutdown.Quit shutdown.SIGTERM);
                  ToShutdown shutdown.Tick;
                  ToShutdown (shutdown.ShutdownReturns None);
                  WorkerRuns 1]))) by (vm_compute; right; left; reflexivity).
  assert (H2 : wat (mkWorker 1 Stopped [burningLine 1; stoppedLine 1]) = Stopped)
    by reflexivity.
  split; [exact H1|]. split; [exact H2|].
  exact (proj1 (proj2 (proj2 (proj2 (proj2
           (workers_stop_only_after_done noTable 4 10 ":8080" "2" _)) _ H1 H2)))).
Defined.


(** X25.  The process ends with status 0 exactly when [main] has logged
    [Server stopped], which it does once, as its last line, after
    [ListenAndServe] has returned and [done] was closed, that is after
    [server.Shutdown] has returned nil; it ends with status 1 on a
    [log.Fatal] or [log.Fatalf] ([cpuBurn], [ListenAndServe] or
    [server.Shutdown] failed) and with 2 when the shutdown goroutine
    panicked, in each case without the line [Server stopped]; and
    once it has ended nothing more happens. *)


